(** * Pothole analytics and SMS alerting: a shallow embedding

    This development embeds the two Python modules of the repository,
    [api/sms_service.py] and [api/predictive_analytics.py], and proves the
    properties their specification states about them.

    Conventions of the embedding:
    - Python [float] values are taken as exact rationals ([Q]); a decimal
      literal such as [0.6] is the rational [6 # 10].
    - [datetime] values are integers ([Z]), counted in microseconds.
    - A Python exception is a value of [exn]; code that may raise returns
      [Exc A], and [try ... except] is a [match] on it.
    - Text is a [string] whose characters are the code points below 256,
      with ASCII case folding and the ASCII members of Python's
      whitespace class; [str.isdigit] is taken on all of that range.
      Text with other code points is not represented.
    - What the code takes from outside (the clock, the SMS gateway, the
      generative model, numeric formatting, [numpy.polyfit], [json.loads],
      the neighbourhood test of DBSCAN) enters as an argument or as a
      method of a type class. *)

From Stdlib Require Import ZArith QArith Lqa String Ascii Bool Lia.
From stdpp Require Import gmap strings list fin_maps pretty.

Open Scope string_scope.
Open Scope Z_scope.

(** ** Exceptions *)

Inductive exn : Type :=
| KeyError (key : string)
| IndexError
| ValueError (msg : string)
| AttributeError (msg : string)
| JSONDecodeError (msg : string)
| Timeout
| RequestException (msg : string)
| OtherException (msg : string).

Inductive Exc (A : Type) : Type :=
| Ok (a : A)
| Raise (e : exn).
Arguments Ok {A} a.
Arguments Raise {A} e.

Definition exc_bind {A B} (m : Exc A) (k : A → Exc B) : Exc B :=
  match m with
  | Ok a => k a
  | Raise e => Raise e
  end.

Notation "x ←! m ;; k" := (exc_bind m (λ x, k))
  (at level 100, m at next level, right associativity,
   format "x  ←!  m  ;;  '/' k").

(** [d[key]] on a Python dict whose entry may be missing. *)
Definition getitem {A} (key : string) (field : option A) : Exc A :=
  match field with
  | Some a => Ok a
  | None => Raise (KeyError key)
  end.

(** ** Python string operations *)

Module PyStr.

(** The digits 0 to 9: the class [[0-9]] of a pattern. *)
Definition is_digit (c : ascii) : bool :=
  let n := nat_of_ascii c in ((48 <=? n) && (n <=? 57))%nat.

(** [c.isdigit()] for one character: below 256 these are the digits 0 to
    9 and the superscript two, three and one (178, 179 and 185). *)
Definition isdigit_char (c : ascii) : bool :=
  let n := nat_of_ascii c in
  (((48 <=? n) && (n <=? 57)) || (n =? 178) || (n =? 179) || (n =? 185))%nat.

(** [str.isspace] on the ASCII range: tab .. carriage return, the four
    separators 28 .. 31 and the space. *)
Definition is_space (c : ascii) : bool :=
  let n := nat_of_ascii c in
  (((9 <=? n) && (n <=? 13)) || ((28 <=? n) && (n <=? 32)))%nat.

Definition lower_char (c : ascii) : ascii :=
  let n := nat_of_ascii c in
  if ((65 <=? n) && (n <=? 90))%nat then ascii_of_nat (n + 32) else c.

Fixpoint lower (s : string) : string :=
  match s with
  | EmptyString => EmptyString
  | String c r => String (lower_char c) (lower r)
  end.

Fixpoint all_chars (p : ascii → bool) (s : string) : bool :=
  match s with
  | EmptyString => true
  | String c r => p c && all_chars p r
  end.

(** [s.isdigit()]: false on the empty string. *)
Definition isdigit (s : string) : bool :=
  match s with
  | EmptyString => false
  | _ => all_chars isdigit_char s
  end.

Fixpoint drop (n : nat) (s : string) : string :=
  match n, s with
  | O, _ => s
  | S n', String _ r => drop n' r
  | S _, EmptyString => EmptyString
  end.

Fixpoint take (n : nat) (s : string) : string :=
  match n, s with
  | S n', String c r => String c (take n' r)
  | _, _ => EmptyString
  end.

(** [pat in s]. *)
Fixpoint contains (pat s : string) : bool :=
  String.prefix pat s ||
  match s with
  | EmptyString => false
  | String _ r => contains pat r
  end.

(** [s.find(pat)], with [None] for Python's [-1]. *)
Fixpoint find (pat s : string) : option nat :=
  if String.prefix pat s then Some O
  else match s with
       | EmptyString => None
       | String _ r => S <$> find pat r
       end.

(** [s.rfind(c)] for a one-character pattern. *)
Fixpoint rfind_char (c : ascii) (s : string) : option nat :=
  match s with
  | EmptyString => None
  | String a r =>
      match rfind_char c r with
      | Some i => Some (S i)
      | None => if Ascii.eqb a c then Some O else None
      end
  end.

(** [s[i:j]] for [0 <= i] and [0 <= j]: empty when [j <= i]. *)
Definition slice (s : string) (i j : nat) : string := take (j - i) (drop i s).

(** [s.replace(pat, "")] for a non-empty [pat]: occurrences are removed
    from left to right and do not overlap.  [skip] counts the characters
    of the occurrence under way that are still to drop. *)
Fixpoint remove_from (pat : string) (skip : nat) (s : string) : string :=
  match s with
  | EmptyString => EmptyString
  | String c r =>
      match skip with
      | S k => remove_from pat k r
      | O => if String.prefix pat s
             then remove_from pat (String.length pat - 1) r
             else String c (remove_from pat O r)
      end
  end.

Definition remove (pat s : string) : string := remove_from pat O s.

(** [s.split(pat)] for a non-empty [pat].  [cur] holds the piece under
    way, reversed. *)
Fixpoint rev_string (acc s : string) : string :=
  match s with
  | EmptyString => acc
  | String c r => rev_string (String c acc) r
  end.

Fixpoint split_from (pat : string) (skip : nat) (cur : string) (s : string)
  : list string :=
  match s with
  | EmptyString => [rev_string EmptyString cur]
  | String c r =>
      match skip with
      | S k => split_from pat k cur r
      | O => if String.prefix pat s
             then rev_string EmptyString cur
                  :: split_from pat (String.length pat - 1) EmptyString r
             else split_from pat O (String c cur) r
      end
  end.

Definition split (pat s : string) : list string :=
  split_from pat O EmptyString s.

Fixpoint lstrip (s : string) : string :=
  match s with
  | String c r => if is_space c then lstrip r else s
  | EmptyString => EmptyString
  end.

(** [s.strip()]. *)
Definition strip (s : string) : string :=
  rev_string EmptyString
    (lstrip (rev_string EmptyString (lstrip s))).

(** [sep.join(l)]. *)
Fixpoint join (sep : string) (l : list string) : string :=
  match l with
  | [] => ""
  | [x] => x
  | x :: r => x +:+ sep +:+ join sep r
  end.

End PyStr.

(** ** Values shared by both modules *)

(** A JSON value as [json.loads] and [response.json()] build it; a dict
    keeps its entries in insertion order. *)
#[warnings="-register-all"]
Inductive JValue : Type :=
| JNull
| JBool (b : bool)
| JInt (z : Z)
| JFloat (q : Q)
| JStr (s : string)
| JList (l : list JValue)
| JDict (d : list (string * JValue)).

(** The [location_data] dict of both modules. *)
Record LocationData := {
  lat : option Q;
  lng : option Q;
  address : option string;
}.

(** ** Formatting of numbers

    [round(x, 3)] and the conversion of a float to text are Python
    built-ins; the service only concatenates their output. *)

Class NumFormat := {
  (** [f"{round(x, 3)}"] *)
  round3_str : Q → string;
  (** [f"{x}"] *)
  float_str : Q → string;
  (** [t.isoformat()] *)
  isoformat : Z → string;
}.

(** ** The SMS service ([api/sms_service.py]) *)

Module SMS.

(** One day, [timedelta(days=1)], in microseconds. *)
Definition one_day : Z := 86400000000.

Record SMSService := {
  api_key : string;
  sent_alerts : gmap string (list Z);
  max_alerts_per_day : nat;
}.

(** [SMSService.__init__], given the value of [FAST2SMS_API_KEY]. *)
Definition init (key : string) : SMSService :=
  {| api_key := key; sent_alerts := ∅; max_alerts_per_day := 1 |}.

Definition is_enabled (self : SMSService) : bool :=
  negb (String.eqb (api_key self) "").

(** [self.sent_alerts[k]] on the [defaultdict(list)]: a key never written
    reads as the empty list. *)
Definition ledger_at (self : SMSService) (k : string) : list Z :=
  default [] (sent_alerts self !! k).

Definition set_ledger (self : SMSService) (k : string) (l : list Z)
  : SMSService :=
  {| api_key := api_key self;
     sent_alerts := <[k := l]> (sent_alerts self);
     max_alerts_per_day := max_alerts_per_day self |}.

Record Payload := {
  authorization : string;
  message : string;
  numbers : string;
  route : string;
  sender_id : string;
}.

(** [v == True] in Python: [True] itself, and the number one. *)
Definition eq_True (v : JValue) : bool :=
  match v with
  | JBool b => b
  | JInt z => z =? 1
  | JFloat q => Qeq_bool q 1
  | _ => false
  end.

(** The JSON object of a response, of which the code reads the keys
    [return] and [message] (the latter already as text). *)
Record JsonObject := {
  json_return : option JValue;
  json_message : option string;
}.

(** What [requests.post] does: it raises, or it returns a response with a
    status code and a body.  Reading the body gives a JSON object, or
    raises: in [response.json()] when the body is not JSON, in [.get]
    when it is not an object. *)
Inductive GatewayOutcome : Type :=
| PostRaises (e : exn)
| Response (status_code : Z) (json : Exc JsonObject).

Definition Gateway := Payload → GatewayOutcome.

(** What a call leaves behind: the pair it returns, the service after the
    call, and the requests posted to the gateway. *)
Record Sent := {
  result : bool * string;
  service : SMSService;
  posted : list Payload;
}.

Definition clean (number : string) : string :=
  PyStr.remove "-" (PyStr.remove " " (PyStr.remove "+91" number)).

Definition valid_number (clean_number : string) : bool :=
  (String.length clean_number =? 10)%nat && PyStr.isdigit clean_number.

(** The three [except] clauses of [send_high_priority_alert], as the
    text each one returns; [Timeout] is tested before its base class. *)
Definition alert_error_text (e : exn) : string :=
  match e with
  | Timeout => "SMS request timeout"
  | RequestException msg => "SMS request failed: " +:+ msg
  | KeyError msg | ValueError msg | AttributeError msg
  | JSONDecodeError msg | OtherException msg => "Unexpected error: " +:+ msg
  | IndexError => "Unexpected error: "
  end.

(** [str(e)]. *)
Definition exn_text (e : exn) : string :=
  match e with
  | Timeout => "timeout"
  | IndexError => ""
  | KeyError msg | ValueError msg | AttributeError msg | JSONDecodeError msg
  | RequestException msg | OtherException msg => msg
  end.

Section Service.
Context `{NumFormat}.

Definition _get_location_key (lat lng : Q) : string :=
  round3_str lat +:+ "_" +:+ round3_str lng.

Definition location_key_of (location_data : LocationData) : string :=
  _get_location_key (default 0%Q (lat location_data))
                    (default 0%Q (lng location_data)).

(** [_can_send_alert], with the reading of the clock as [now]: the entry
    of the key is replaced by its timestamps younger than a day, and the
    answer compares what is left with the daily limit. *)
Definition _can_send_alert (self : SMSService) (location_key : string)
    (now : Z) : bool * SMSService :=
  let yesterday := now - one_day in
  let kept := filter (λ timestamp, yesterday < timestamp)
                     (ledger_at self location_key) in
  let self' := set_ledger self location_key kept in
  (bool_decide (length (ledger_at self' location_key)
                < max_alerts_per_day self')%nat, self').

Definition na_or (x : option Q) : string :=
  match x with
  | Some q => float_str q
  | None => "N/A"
  end.

Definition alert_message (location_data : LocationData) (report_count : Z)
  : string :=
  let address :=
    default ("Lat: " +:+ na_or (lat location_data) +:+ ", Lng: "
             +:+ na_or (lng location_data))
            (address location_data) in
  "HIGH PRIORITY ALERT: " +:+ pretty report_count
  +:+ " pothole reports received at " +:+ address
  +:+ ". Immediate attention required. - FixMyPothole.AI".

(** [send_high_priority_alert].  [now] is the clock read by the rate-limit
    check, [now_sent] the clock read when a send is recorded, [gateway]
    the answer of the SMS gateway to a request. *)
Definition send_high_priority_alert (self : SMSService)
    (phone_numbers : list string) (location_data : LocationData)
    (report_count : Z) (now now_sent : Z) (gateway : Gateway) : Sent :=
  if negb (is_enabled self) then
    {| result := (false, "SMS service not configured");
       service := self; posted := [] |}
  else match phone_numbers with
  | [] => {| result := (false, "No phone numbers provided");
             service := self; posted := [] |}
  | _ =>
    let location_key := location_key_of location_data in
    let '(allowed, self1) := _can_send_alert self location_key now in
    if negb allowed then
      {| result := (false, "Daily alert limit reached for this location");
         service := self1; posted := [] |}
    else
      let message := alert_message location_data report_count in
      let clean_numbers := filter (λ n, valid_number n = true)
                                  (clean <$> phone_numbers) in
      match clean_numbers with
      | [] => {| result := (false, "No valid phone numbers found");
                 service := self1; posted := [] |}
      | _ =>
        let payload :=
          {| authorization := api_key self1; message := message;
             numbers := PyStr.join "," clean_numbers;
             route := "q"; sender_id := "FXPTHL" |} in
        match gateway payload with
        | Response status_code json =>
            if status_code =? 200 then
              match json with
              | Ok body =>
                  if default false (eq_True <$> json_return body) then
                    {| result := (true, "Alert sent to "
                                        +:+ pretty (length clean_numbers)
                                        +:+ " recipients");
                       service := set_ledger self1 location_key
                                    (ledger_at self1 location_key
                                     ++ [now_sent]);
                       posted := [payload] |}
                  else
                    {| result := (false, "SMS API error: "
                                  +:+ default "Unknown error"
                                              (json_message body));
                       service := self1; posted := [payload] |}
              | Raise e =>
                  {| result := (false, alert_error_text e);
                     service := self1; posted := [payload] |}
              end
            else
              {| result := (false, "SMS service error: "
                            +:+ pretty status_code);
                 service := self1; posted := [payload] |}
        | PostRaises e =>
            {| result := (false, alert_error_text e);
               service := self1; posted := [payload] |}
        end
      end
  end.

(** [send_test_sms]. *)
Definition send_test_sms (self : SMSService) (phone_number : string)
    (test_message : string) (gateway : Gateway) : Sent :=
  if negb (is_enabled self) then
    {| result := (false, "SMS service not configured");
       service := self; posted := [] |}
  else
    let clean_number := clean phone_number in
    if negb (valid_number clean_number) then
      {| result := (false, "Invalid phone number format");
         service := self; posted := [] |}
    else
      let payload :=
        {| authorization := api_key self; message := test_message;
           numbers := clean_number; route := "q"; sender_id := "FXPTHL" |} in
      match gateway payload with
      | Response status_code json =>
          if status_code =? 200 then
            match json with
            | Ok body =>
                if default false (eq_True <$> json_return body) then
                  {| result := (true, "Test SMS sent successfully");
                     service := self; posted := [payload] |}
                else
                  {| result := (false, default "Unknown error"
                                               (json_message body));
                     service := self; posted := [payload] |}
            | Raise e =>
                {| result := (false, "Error: " +:+ exn_text e);
                   service := self; posted := [payload] |}
            end
          else
            {| result := (false, "HTTP error: " +:+ pretty status_code);
               service := self; posted := [payload] |}
      | PostRaises e =>
          {| result := (false, "Error: " +:+ exn_text e);
             service := self; posted := [payload] |}
      end.

(** The states a service goes through: from [init], by calls of its
    methods with any arguments, clock readings and gateway answers. *)
Inductive reachable : SMSService → Prop :=
| reach_init key : reachable (init key)
| reach_check self k now :
    reachable self → reachable (_can_send_alert self k now).2
| reach_alert self nums loc cnt now now_sent gw :
    reachable self →
    reachable (service (send_high_priority_alert self nums loc cnt
                                                 now now_sent gw))
| reach_test self num msg gw :
    reachable self → reachable (service (send_test_sms self num msg gw)).

End Service.

End SMS.

(** ** Outside libraries of the analytics module *)

(** [np.polyfit(range(len(y)), y, 1)[0]]: the slope of the fitted line. *)
Class Numpy := {
  polyfit_slope : list Z → Q;
}.

(** [pd.Timedelta(text)], in microseconds, or the error it raises. *)
Class Pandas := {
  Timedelta : string → Exc Z;
}.

(** [json.loads]; the empty text is not a JSON document. *)
Class Json := {
  loads : string → Exc JValue;
  loads_empty : ∃ msg, loads "" = Raise (JSONDecodeError msg);
}.

(** ** Predictive analytics ([api/predictive_analytics.py]) *)

Module Analytics.

Inductive Severity : Type := low | medium | high.
Inductive Trend : Type := increasing | decreasing | stable.

#[global] Instance Severity_eq_dec : EqDecision Severity.
Proof. solve_decision. Defined.
#[global] Instance Trend_eq_dec : EqDecision Trend.
Proof. solve_decision. Defined.

(** *** Comparisons and means on floats *)

Definition Qltb (a b : Q) : bool := negb (Qle_bool b a).

(** [min(a, b)] and [max(a, b)] of Python: the first argument unless the
    second is strictly smaller (greater). *)
Definition py_min (a b : Q) : Q := if Qltb b a then b else a.
Definition py_max (a b : Q) : Q := if Qltb a b then b else a.

Definition Qsum (l : list Q) : Q := foldr Qplus 0%Q l.

(** The mean of a non-empty sequence. *)
Definition Qmean (l : list Q) : Q := (Qsum l / inject_Z (Z.of_nat (length l)))%Q.

Definition Zsum (l : list Z) : Z := foldr Z.add 0 l.

Definition Zmean (l : list Z) : Q :=
  (inject_Z (Zsum l) / inject_Z (Z.of_nat (length l)))%Q.

(** *** Reports *)

Record ReportLocation := {
  loc_lat : option Q;
  loc_lng : option Q;
}.

(** The [createdAt] entry of a report: text that [pd.to_datetime] reads as
    a time, or text it rejects. *)
Inductive RawTime : Type :=
| ValidTime (t : Z)
| InvalidTime (text : string).

Definition to_datetime (raw : RawTime) : Exc Z :=
  match raw with
  | ValidTime t => Ok t
  | InvalidTime text => Raise (ValueError text)
  end.

(** A report as the caller hands it over: any entry may be missing. *)
Record Report := {
  location : option ReportLocation;
  severity : option string;
  createdAt : option RawTime;
  type : option string;
  verified : option string;
  fixingStatus : option string;
}.

(** A row of the data frame. *)
Record ReportData := {
  latitude : Q;
  longitude : Q;
  row_severity : string;
  created_at : Z;
  row_type : string;
  row_verified : string;
  fixing_status : string;
}.

(** *** Geofilter *)

(** [np.sqrt(dlat**2 + dlng**2) * 111 <= radius_km], decided on the
    squares. *)
Definition within_radius (report_lat report_lng lat lng radius_km : Q) : bool :=
  let dlat := (report_lat - lat)%Q in
  let dlng := (report_lng - lng)%Q in
  Qle_bool 0 radius_km &&
  Qle_bool ((dlat * dlat + dlng * dlng) * (111 * 111)) (radius_km * radius_km).

(** The body of the loop of [_process_historical_data] for one report:
    the row it appends, if any. *)
Definition process_report (target : LocationData) (radius_km : Q)
    (report : Report) : Exc (option ReportData) :=
  loc ←! getitem "location" (location report);;
  report_lat ←! getitem "lat" (loc_lat loc);;
  report_lng ←! getitem "lng" (loc_lng loc);;
  target_lat ←! getitem "lat" (lat target);;
  target_lng ←! getitem "lng" (lng target);;
  if within_radius report_lat report_lng target_lat target_lng radius_km then
    sev ←! getitem "severity" (severity report);;
    raw ←! getitem "createdAt" (createdAt report);;
    created ←! to_datetime raw;;
    ver ←! getitem "verified" (verified report);;
    fixing ←! getitem "fixingStatus" (fixingStatus report);;
    Ok (Some {| latitude := report_lat; longitude := report_lng;
                row_severity := sev; created_at := created;
                row_type := default "pothole" (type report);
                row_verified := ver; fixing_status := fixing |})
  else Ok None.

Fixpoint _process_historical_data (reports : list Report)
    (target : LocationData) (radius_km : Q) : Exc (list ReportData) :=
  match reports with
  | [] => Ok []
  | report :: rest =>
      row ←! process_report target radius_km report;;
      rows ←! _process_historical_data rest target radius_km;;
      Ok (match row with
          | Some r => r :: rows
          | None => rows
          end)
  end.

(** *** Trend analyzer *)

Record TrendResult := {
  trend : Trend;
  frequency : Q;
  prediction : Severity;
}.

(** The week of a timestamp: weeks run from Monday to Sunday, and day 0
    (1 January 1970) is a Thursday. *)
Definition week_of (t : Z) : Z := (t / 86400000000 + 3) / 7.

Definition Zminimum (x : Z) (l : list Z) : Z := foldr Z.min x l.
Definition Zmaximum (x : Z) (l : list Z) : Z := foldr Z.max x l.

Definition count_in (w : Z) (weeks : list Z) : Z :=
  Z.of_nat (length (filter (λ w', w' = w) weeks)).

(** [df.resample('W', on='created_at').size()]: one count per week from
    the first week with a report to the last one, zero for a week without
    reports in between. *)
Definition weekly_counts_of (weeks : list Z) : list Z :=
  match weeks with
  | [] => []
  | w :: ws =>
      let first := Zminimum w ws in
      let last := Zmaximum w ws in
      (λ k, count_in k weeks) <$> seqZ first (last - first + 1)
  end.

Definition resample_W (df : list ReportData) : list Z :=
  weekly_counts_of (week_of ∘ created_at <$> df).

(** The heuristic of lines 184 to 186. *)
Definition severity_of (trend : Trend) (recent_frequency : Q) : Severity :=
  if Qltb 5 recent_frequency
     || (bool_decide (trend = increasing) && Qltb 3 recent_frequency)
  then high
  else if Qltb 2 recent_frequency || bool_decide (trend = increasing)
  then medium
  else low.

Definition trend_of (slope : Q) : Trend :=
  if Qltb (1 # 10) slope then increasing
  else if Qltb slope (- (1 # 10)) then decreasing
  else stable.

(** [weekly_counts[-4:]]. *)
Definition last4 (weekly_counts : list Z) : list Z :=
  drop (length weekly_counts - 4) weekly_counts.

Section Trends.
Context `{Numpy}.

Definition _analyze_trends (df : list ReportData) : TrendResult :=
  match df with
  | [] => {| trend := stable; frequency := 0; prediction := low |}
  | _ =>
    let weekly_counts := resample_W df in
    if (length weekly_counts <? 2)%nat then
      {| trend := stable;
         frequency := match weekly_counts with
                      | [] => 0
                      | _ => Zmean weekly_counts
                      end;
         prediction := low |}
    else
      let slope := polyfit_slope weekly_counts in
      let trend := trend_of slope in
      let recent_frequency := Zmean (last4 weekly_counts) in
      {| trend := trend;
         frequency := recent_frequency;
         prediction := severity_of trend recent_frequency |}
  end.

End Trends.

(** *** Hotspot clusterer *)

Record Hotspot := {
  hs_lat : Q;
  hs_lng : Q;
  intensity : Q;
  count : nat;
}.

(** [DBSCAN(eps, min_samples).fit(X).labels_] of scikit-learn: the
    neighbourhood of every sample is computed first (a sample is in its
    own neighbourhood), a sample with at least [min_samples] neighbours is
    a core sample, and the clusters are grown from the unlabelled core
    samples in index order, depth first, stopping at samples that are not
    core.  The label [-1] marks noise.  A neighbourhood lists its samples
    in index order here; what is proved of the labelling holds for any
    order. *)
Section DBSCAN.
Context {P : Type} (near : P → P → bool) (min_samples : nat).

Fixpoint indices_where (f : P → bool) (X : list P) (i : nat) : list nat :=
  match X with
  | [] => []
  | x :: r => if f x then i :: indices_where f r (S i)
              else indices_where f r (S i)
  end.

Definition neighborhoods (X : list P) : list (list nat) :=
  (λ p, indices_where (near p) X 0) <$> X.

Definition neighb (nbhs : list (list nat)) (i : nat) : list nat :=
  default [] (nbhs !! i).

Definition is_core (nbhs : list (list nat)) (i : nat) : bool :=
  bool_decide (min_samples ≤ length (neighb nbhs i))%nat.

Definition unlabelled (labels : list Z) (v : nat) : bool :=
  bool_decide (labels !! v = Some (-1)).

(** The inner [while] loop; the sample under way is the head of [stack].
    Neighbours are pushed in order and popped from the back. *)
Fixpoint expand (fuel : nat) (nbhs : list (list nat)) (label_num : Z)
    (stack : list nat) (labels : list Z) : list Z :=
  match fuel with
  | O => labels
  | S fuel' =>
      match stack with
      | [] => labels
      | i :: stack' =>
          if unlabelled labels i then
            let labels' := <[i := label_num]> labels in
            if is_core nbhs i then
              expand fuel' nbhs label_num
                (reverse (filter (λ v, unlabelled labels' v = true)
                                 (neighb nbhs i)) ++ stack')
                labels'
            else expand fuel' nbhs label_num stack' labels'
          else expand fuel' nbhs label_num stack' labels
      end
  end.

(** The outer [for] loop over the samples. *)
Fixpoint dbscan_inner (fuel : nat) (nbhs : list (list nat)) (todo : list nat)
    (label_num : Z) (labels : list Z) : list Z :=
  match todo with
  | [] => labels
  | i :: rest =>
      if unlabelled labels i && is_core nbhs i then
        dbscan_inner fuel nbhs rest (label_num + 1)
                     (expand fuel nbhs label_num [i] labels)
      else dbscan_inner fuel nbhs rest label_num labels
  end.

(** A search labels a sample at most once and pushes at most [n] samples
    for each, which bounds its number of steps. *)
Definition dbscan (X : list P) : list Z :=
  let n := length X in
  dbscan_inner (n * (n + 1) + 1) (neighborhoods X) (seq 0 n) 0
               (replicate n (-1)).

End DBSCAN.

(** The Euclidean neighbourhood test, decided on the squares. *)
Definition euclid_near (eps : Q) (p q : Q * Q) : bool :=
  let dx := (p.1 - q.1)%Q in
  let dy := (p.2 - q.2)%Q in
  Qle_bool (dx * dx + dy * dy) (eps * eps).

(** [coords[clustering.labels_ == cluster_id]]. *)
Definition cluster_points (coords : list (Q * Q)) (labels : list Z)
    (cluster_id : Z) : list (Q * Q) :=
  fst <$> filter (λ pl, pl.2 = cluster_id) (zip coords labels).

Definition hotspot_of (coords : list (Q * Q)) (labels : list Z)
    (cluster_id : Z) : Hotspot :=
  let points := cluster_points coords labels cluster_id in
  let cluster_size := length points in
  {| hs_lat := Qmean (fst <$> points);
     hs_lng := Qmean (snd <$> points);
     intensity := py_min 1 (inject_Z (Z.of_nat cluster_size) / 10);
     count := cluster_size |}.

(** [_identify_hotspots].  The clusters are visited in the order of
    [set(labels_)], which Python leaves open; here it is the order in
    which the labels first occur. *)
Definition _identify_hotspots (df : list ReportData) (eps_km : Q)
  : list Hotspot :=
  match df with
  | [] => []
  | _ =>
    let eps_degrees := (eps_km / 111)%Q in
    let coords := (λ r, (latitude r, longitude r)) <$> df in
    let labels := dbscan (euclid_near eps_degrees) 3 coords in
    hotspot_of coords labels
      <$> filter (λ cluster_id, cluster_id ≠ -1) (remove_dups labels)
  end.

(** *** Keyword-mode parser *)

(** The line break. *)
Definition nl : string := String "010" "".

Record AITrends := {
  description : string;
  recommendations : list string;
}.

Record AIInsights := {
  ai_severity : Severity;
  ai_confidence : Q;
  ai_trends : AITrends;
}.

Definition severity_keywords : list (Severity * list string) :=
  [ (high, ["high"; "severe"; "critical"; "dangerous"]);
    (medium, ["medium"; "moderate"; "intermediate"]);
    (low, ["low"; "minor"; "minimal"]) ].

Fixpoint first_level (text_lower : string)
    (table : list (Severity * list string)) : Severity :=
  match table with
  | [] => medium
  | (level, keywords) :: rest =>
      if existsb (λ keyword, PyStr.contains keyword text_lower) keywords
      then level
      else first_level text_lower rest
  end.

(** The classes [[\s:]] and [[0-9.]] of the pattern. *)
Definition is_sep (c : ascii) : bool := PyStr.is_space c || Ascii.eqb c ":".
Definition is_numchar (c : ascii) : bool := PyStr.is_digit c || Ascii.eqb c ".".

(** The longest prefix of characters in a class, and what follows it. *)
Fixpoint span (p : ascii → bool) (s : string) : string * string :=
  match s with
  | String c r =>
      if p c then let '(a, b) := span p r in (String c a, b)
      else (EmptyString, s)
  | EmptyString => (EmptyString, EmptyString)
  end.

(** The pattern [confidence[\s:]+([0-9.]+)] matched at the start of [s]:
    the captured group.  The two classes are disjoint, so the greedy
    match is the only one. *)
Definition match_confidence_at (s : string) : option string :=
  if String.prefix "confidence" s then
    let '(seps, rest) := span is_sep (PyStr.drop 10 s) in
    match seps with
    | EmptyString => None
    | _ => let '(run, _) := span is_numchar rest in
           match run with
           | EmptyString => None
           | _ => Some run
           end
    end
  else None.

(** The first element of [re.findall(pattern, s)], if there is one. *)
Fixpoint first_confidence_match (s : string) : option string :=
  match match_confidence_at s with
  | Some run => Some run
  | None =>
      match s with
      | EmptyString => None
      | String _ r => first_confidence_match r
      end
  end.

Fixpoint digits_value (acc : Z) (s : string) : Z :=
  match s with
  | EmptyString => acc
  | String c r => digits_value (10 * acc + (Z.of_nat (nat_of_ascii c) - 48)) r
  end.

(** [float(run)] for text made of digits and dots: digits with at most
    one dot among them; anything else is a [ValueError]. *)
Definition py_float (run : string) : Exc Q :=
  let '(int_part, rest) := span PyStr.is_digit run in
  match rest with
  | EmptyString =>
      match int_part with
      | EmptyString => Raise (ValueError run)
      | _ => Ok (inject_Z (digits_value 0 int_part))
      end
  | String c frac =>
      if Ascii.eqb c "." && PyStr.all_chars PyStr.is_digit frac
         && negb (String.eqb (int_part +:+ frac) "")
      then Ok (inject_Z (digits_value 0 (int_part +:+ frac))
               / inject_Z (10 ^ Z.of_nat (String.length frac)))%Q
      else Raise (ValueError run)
  end.

(** [l[i]] on a list. *)
Definition item {A} (l : list A) (i : nat) : Exc A :=
  match l !! i with
  | Some a => Ok a
  | None => Raise IndexError
  end.

Definition recommendation_words : list string :=
  ["recommend"; "suggest"; "should"; "need to"].

(** Lines 241 and 242: the confidence read from the text. *)
Definition extract_confidence (response_text : string) : Exc Q :=
  match first_confidence_match (PyStr.lower response_text) with
  | Some run => py_float run
  | None => Ok (7 # 10)
  end.

(** Lines 251 to 253: the description of the trend. *)
Definition extract_description (response_text : string) : Exc string :=
  if PyStr.contains "trend" (PyStr.lower response_text) then
    after ←! item (PyStr.split "trend" response_text) 1;;
    trend_section ←! item (PyStr.split nl after) 0;;
    Ok (PyStr.strip trend_section)
  else Ok "".

(** Lines 256 to 259: the lines that recommend something. *)
Definition extract_recommendations (response_text : string) : list string :=
  PyStr.strip <$>
    filter (λ line, existsb (λ word, PyStr.contains word (PyStr.lower line))
                            recommendation_words = true)
           (PyStr.split nl response_text).

(** The [try] block of [_parse_ai_response]. *)
Definition parse_ai_response_body (response_text : string) : Exc AIInsights :=
  let severity := first_level (PyStr.lower response_text) severity_keywords in
  confidence ←! extract_confidence response_text;;
  description ←! extract_description response_text;;
  let recommendations := extract_recommendations response_text in
  Ok {| ai_severity := severity;
        ai_confidence := py_min 1 (py_max 0 confidence);
        ai_trends := {| description := description;
                        recommendations := recommendations |} |}.

(** The result of the [except] clause. *)
Definition parse_error_result : AIInsights :=
  {| ai_severity := medium;
     ai_confidence := 5 # 10;
     ai_trends := {| description := "Error parsing AI response";
                     recommendations := [] |} |}.

(** [_parse_ai_response]: both clauses end in a [return], and the
    statements that follow in the source, lines 279 to 353, are never
    reached. *)
Definition _parse_ai_response (response_text : string) : AIInsights :=
  match parse_ai_response_body response_text with
  | Ok insights => insights
  | Raise _ => parse_error_result
  end.

(** *** Prediction blender *)

Record Trends := {
  ai : option AITrends;
  statistical : TrendResult;
}.

Record PredictionResult := {
  predictedSeverity : Severity;
  confidence : Q;
  hotspots : list Hotspot;
  trends : Trends;
}.

(** [self.model]: [generate_content(prompt)] followed by the reading of
    [response.text], either of which may raise. *)
Definition GenerativeModel : Type := string → Exc string.

Record PredictiveAnalytics := {
  api_key : string;
  model : option GenerativeModel;
}.

Definition is_enabled (self : PredictiveAnalytics) : bool :=
  bool_decide (is_Some (model self)).

(** The payload of the last [except] clause of [_fallback_prediction]. *)
Definition default_payload : PredictionResult :=
  {| predictedSeverity := low;
     confidence := 3 # 10;
     hotspots := [];
     trends := {| ai := None;
                  statistical := {| trend := stable; frequency := 0;
                                    prediction := low |} |} |}.

Section Blender.
Context `{NumFormat} `{Numpy} `{Pandas}.

Definition _generate_ai_prompt (df : list ReportData)
    (location_data : LocationData) (time_range : string) (now : Z)
  : Exc string :=
  match df with
  | [] => Raise (KeyError "created_at")
  | _ =>
    delta ←! Timedelta time_range;;
    let recent_reports := filter (λ r, now - delta ≤ created_at r) df in
    let total_reports := length df in
    let high_severity := length (filter (λ r, row_severity r = "high") df) in
    let verified_reports :=
      length (filter (λ r, row_verified r = "verified") df) in
    let resolved_reports :=
      length (filter (λ r, fixing_status r = "resolved") df) in
    target_lat ←! getitem "lat" (lat location_data);;
    target_lng ←! getitem "lng" (lng location_data);;
    Ok ("Analyze road hazard conditions for location ("
        +:+ float_str target_lat +:+ ", " +:+ float_str target_lng +:+ ")."
        +:+ nl +:+ nl +:+ "Historical data summary:" +:+ nl
        +:+ "- Total reports: " +:+ pretty total_reports +:+ nl
        +:+ "- Recent reports (" +:+ time_range +:+ "): "
        +:+ pretty (length recent_reports) +:+ nl
        +:+ "- High severity reports: " +:+ pretty high_severity +:+ nl
        +:+ "- Verified reports: " +:+ pretty verified_reports +:+ nl
        +:+ "- Resolved issues: " +:+ pretty resolved_reports +:+ nl +:+ nl
        +:+ "Based on this data, predict:" +:+ nl
        +:+ "1. Expected hazard severity (high/medium/low)" +:+ nl
        +:+ "2. Confidence level (0-1)" +:+ nl
        +:+ "3. Reporting trends and patterns" +:+ nl
        +:+ "4. Recommendations for monitoring/intervention")
  end.

(** The [try] block of [_fallback_prediction]. *)
Definition fallback_body (location_data : LocationData)
    (historical_reports : list Report) : Exc PredictionResult :=
  df ←! _process_historical_data historical_reports location_data 5;;
  let hotspots := _identify_hotspots df (1 # 10) in
  let trends := _analyze_trends df in
  Ok {| predictedSeverity := prediction trends;
        confidence := 6 # 10;
        hotspots := hotspots;
        trends := {| ai := None; statistical := trends |} |}.

Definition _fallback_prediction (location_data : LocationData)
    (historical_reports : list Report) (time_range : string)
  : PredictionResult :=
  match fallback_body location_data historical_reports with
  | Ok result => result
  | Raise _ => default_payload
  end.

(** The [try] block of [predict_pothole_conditions]. *)
Definition predict_body (generate_content : GenerativeModel)
    (location_data : LocationData) (historical_reports : list Report)
    (time_range : string) (now : Z) : Exc PredictionResult :=
  df ←! _process_historical_data historical_reports location_data 5;;
  let hotspots := _identify_hotspots df (1 # 10) in
  prompt ←! _generate_ai_prompt df location_data time_range now;;
  response_text ←! generate_content prompt;;
  let ai_insights := _parse_ai_response response_text in
  let statistical_trends := _analyze_trends df in
  Ok {| predictedSeverity := ai_severity ai_insights;
        confidence := ai_confidence ai_insights;
        hotspots := hotspots;
        trends := {| ai := Some (ai_trends ai_insights);
                     statistical := statistical_trends |} |}.

Definition predict_pothole_conditions (self : PredictiveAnalytics)
    (location_data : LocationData) (historical_reports : list Report)
    (time_range : string) (now : Z) : PredictionResult :=
  match model self with
  | None => _fallback_prediction location_data historical_reports time_range
  | Some generate_content =>
      match predict_body generate_content location_data historical_reports
                         time_range now with
      | Ok result => result
      | Raise _ =>
          _fallback_prediction location_data historical_reports time_range
      end
  end.

End Blender.

(** *** Trend forecast (JSON-block mode) *)

Definition Dict : Type := list (string * JValue).

Fixpoint dict_get (k : string) (d : Dict) : option JValue :=
  match d with
  | [] => None
  | (k', v) :: r => if String.eqb k' k then Some v else dict_get k r
  end.

(** [d[k] = v]: an entry that exists keeps its place. *)
Fixpoint dict_set (k : string) (v : JValue) (d : Dict) : Dict :=
  match d with
  | [] => [(k, v)]
  | (k', v') :: r =>
      if String.eqb k' k then (k, v) :: r else (k', v') :: dict_set k v r
  end.

(** [d.update(entries)]. *)
Definition dict_update (d : Dict) (entries : Dict) : Dict :=
  foldl (λ d kv, dict_set kv.1 kv.2 d) d entries.

(** [counts[k] = counts.get(k, 0) + 1]. *)
Fixpoint bump (k : string) (counts : list (string * nat))
  : list (string * nat) :=
  match counts with
  | [] => [(k, 1%nat)]
  | (k', n) :: r =>
      if String.eqb k' k then (k, S n) :: r else (k', n) :: bump k r
  end.

Definition _analyze_severity_distribution (reports : list Report)
  : list (string * nat) :=
  foldl (λ counts report, bump (default "medium" (severity report)) counts)
        [("high", 0%nat); ("medium", 0%nat); ("low", 0%nat)] reports.

(** What the forecast flow asks of the calendar and of text rendering:
    [datetime.fromisoformat(text).strftime('%Y-%m')], the same for the
    current time, and the text of a dict of counts in an f-string. *)
Class ForecastFormat := {
  month_key : RawTime → Exc string;
  month_of : Z → string;
  counts_str : list (string * nat) → string;
}.

(** [str.find] and [str.rfind] with Python's [-1]. *)
Definition find_Z (pat text : string) : Z :=
  match PyStr.find pat text with
  | Some i => Z.of_nat i
  | None => -1
  end.

Definition rfind_Z (c : ascii) (text : string) : Z :=
  match PyStr.rfind_char c text with
  | Some i => Z.of_nat i
  | None => -1
  end.

(** [text[i:j]] for indices that are not negative. *)
Definition slice_Z (text : string) (i j : Z) : string :=
  PyStr.slice text (Z.to_nat i) (Z.to_nat j).

(** The double quote, and a text between two of them. *)
Definition dq : string := String "034" "".
Definition quoted (s : string) : string := dq +:+ s +:+ dq.

(** The JSON object that the prompt of the forecast shows to the model. *)
Definition forecast_template : string :=
  PyStr.join nl
    [ "{";
      quoted "forecast_period" +:+ ": " +:+ quoted "Next 6 months" +:+ ",";
      quoted "predicted_reports" +:+ ": {";
      quoted "month1" +:+ ": 15,";
      quoted "month2" +:+ ": 18,";
      quoted "month3" +:+ ": 22";
      "},";
      quoted "trend_direction" +:+ ": "
        +:+ quoted "increasing|decreasing|stable" +:+ ",";
      quoted "peak_periods" +:+ ": [" +:+ quoted "monsoon" +:+ ", "
        +:+ quoted "post-winter" +:+ "],";
      quoted "issue_type_trends" +:+ ": {";
      quoted "potholes" +:+ ": " +:+ quoted "increasing" +:+ ",";
      quoted "drainage" +:+ ": " +:+ quoted "stable" +:+ ",";
      quoted "street_lamps" +:+ ": " +:+ quoted "decreasing";
      "},";
      quoted "recommendations" +:+ ": [";
      quoted "Increase maintenance before monsoon" +:+ ",";
      quoted "Focus on high-traffic areas";
      "],";
      quoted "confidence_level" +:+ ": 0.8";
      "}" ].

Section Forecast.
Context `{NumFormat} `{ForecastFormat} `{Json}.

(** [_analyze_monthly_patterns]: a report whose date cannot be read is
    passed over. *)
Definition _analyze_monthly_patterns (reports : list Report) (now : Z)
  : list (string * nat) :=
  foldl (λ monthly_counts report,
           match createdAt report with
           | Some raw =>
               match month_key raw with
               | Ok key => bump key monthly_counts
               | Raise _ => monthly_counts
               end
           | None => bump (month_of now) monthly_counts
           end)
        [] reports.

Definition _generate_mock_trends (reports : list Report) (area_name : string)
    (now : Z) : Dict :=
  [ ("forecast_period", JStr "Next 6 months");
    ("predicted_reports",
     JDict [ ("month1", JInt 12); ("month2", JInt 15); ("month3", JInt 18);
             ("month4", JInt 14); ("month5", JInt 16); ("month6", JInt 13) ]);
    ("trend_direction", JStr "stable");
    ("peak_periods", JList [JStr "monsoon"; JStr "post-winter"]);
    ("issue_type_trends",
     JDict [ ("potholes", JStr "stable"); ("drainage", JStr "increasing");
             ("street_lamps", JStr "stable") ]);
    ("recommendations",
     JList [ JStr "Monitor during peak seasons";
             JStr "Focus on preventive maintenance" ]);
    ("confidence_level", JFloat (6 # 10));
    ("generated_at", JStr (isoformat now));
    ("area_name", JStr area_name);
    ("data_points", JInt (Z.of_nat (length reports)));
    ("model", JStr "mock-fallback") ].

(** The prompt of the forecast, its lines without their indentation. *)
Definition forecast_prompt (historical_reports : list Report)
    (area_name : string) (now : Z) : string :=
  let monthly_data := _analyze_monthly_patterns historical_reports now in
  let severity_distribution :=
    _analyze_severity_distribution historical_reports in
  nl +:+ "Analyze pothole reporting trends for " +:+ area_name
  +:+ " and provide forecasts:" +:+ nl +:+ nl
  +:+ "Historical Data:" +:+ nl
  +:+ "- Total reports: " +:+ pretty (length historical_reports) +:+ nl
  +:+ "- Monthly distribution: " +:+ counts_str monthly_data +:+ nl
  +:+ "- Severity distribution: " +:+ counts_str severity_distribution +:+ nl
  +:+ nl +:+ "Provide trend analysis in JSON format:" +:+ nl
  +:+ forecast_template +:+ nl.

(** The metadata merged into a parsed forecast. *)
Definition forecast_metadata (historical_reports : list Report)
    (area_name : string) (now : Z) : Dict :=
  [ ("generated_at", JStr (isoformat now));
    ("area_name", JStr area_name);
    ("data_points", JInt (Z.of_nat (length historical_reports)));
    ("model", JStr "gemini-1.5-flash") ].

(** The inner [try] of [generate_trend_forecast], on a response text that
    is not empty; [except json.JSONDecodeError] is its only handler. *)
Definition extract_forecast (text : string) (historical_reports : list Report)
    (area_name : string) (now : Z) : Exc Dict :=
  let json_start := find_Z "{" text in
  let json_end := rfind_Z "}" text + 1 in
  if negb (json_start =? -1) && negb (json_end =? -1) then
    let json_str := slice_Z text json_start json_end in
    match loads json_str with
    | Ok (JDict trend_data) =>
        Ok (dict_update trend_data
              (forecast_metadata historical_reports area_name now))
    | Ok _ => Raise (AttributeError "update")
    | Raise (JSONDecodeError _) =>
        Ok (_generate_mock_trends historical_reports area_name now)
    | Raise e => Raise e
    end
  else Ok (_generate_mock_trends historical_reports area_name now).

(** The outer [try] block. *)
Definition forecast_body (generate_content : GenerativeModel)
    (historical_reports : list Report) (area_name : string) (now : Z)
  : Exc Dict :=
  let prompt := forecast_prompt historical_reports area_name now in
  text ←! generate_content prompt;;
  if negb (String.eqb text "") then
    extract_forecast text historical_reports area_name now
  else Ok (_generate_mock_trends historical_reports area_name now).

Definition generate_trend_forecast (self : PredictiveAnalytics)
    (historical_reports : list Report) (area_name : string) (now : Z)
  : Dict :=
  match model self with
  | None => _generate_mock_trends historical_reports area_name now
  | Some generate_content =>
      match forecast_body generate_content historical_reports area_name now
      with
      | Ok trend_data => trend_data
      | Raise _ => _generate_mock_trends historical_reports area_name now
      end
  end.

End Forecast.

End Analytics.

(** ** Notions used in the statements about the SMS service *)

Module SMSNotions.
Import SMS.

(** The timestamps of an entry that a check at [now] keeps. *)
Definition younger (now : Z) (l : list Z) : list Z :=
  filter (λ timestamp, now - one_day < timestamp) l.

(** The acknowledgement of a send by the gateway: status 200 and a JSON
    object whose [return] entry equals [True]. *)
Definition acknowledged (o : GatewayOutcome) : bool :=
  match o with
  | Response status_code (Ok body) =>
      (status_code =? 200) && default false (eq_True <$> json_return body)
  | _ => false
  end.

(** The same service with another ledger. *)
Definition with_ledger (self : SMSService) (m : gmap string (list Z))
  : SMSService :=
  {| api_key := api_key self; sent_alerts := m;
     max_alerts_per_day := max_alerts_per_day self |}.

Section WithFormat.
Context `{NumFormat}.

(** The request that [send_high_priority_alert] posts when it gets as far
    as the gateway. *)
Definition alert_payload (self : SMSService) (phone_numbers : list string)
    (location_data : LocationData) (report_count : Z) : Payload :=
  {| authorization := api_key self;
     message := alert_message location_data report_count;
     numbers := PyStr.join ","
                  (filter (λ n, valid_number n = true)
                          (clean <$> phone_numbers));
     route := "q"; sender_id := "FXPTHL" |}.

(** A call gets as far as the gateway when the service is enabled, the
    rate-limit check allows the key and a valid number is left. *)
Definition reaches_gateway (self : SMSService) (phone_numbers : list string)
    (location_data : LocationData) (now : Z) : bool :=
  is_enabled self
  && bool_decide (phone_numbers ≠ [])
  && (_can_send_alert self (location_key_of location_data) now).1
  && bool_decide (filter (λ n, valid_number n = true)
                         (clean <$> phone_numbers) ≠ []).

End WithFormat.
End SMSNotions.

(** ** Notions used in the statements about the analytics module *)

Module AnalyticsNotions.
Import Analytics.

(** The weeks that hold a report of the subset, each once: the non-empty
    weekly buckets. *)
Definition report_weeks (df : list ReportData) : list Z :=
  remove_dups (week_of ∘ created_at <$> df).

(** The counts of the non-empty weekly buckets. *)
Definition bucket_counts (df : list ReportData) : list Z :=
  (λ w, count_in w (week_of ∘ created_at <$> df)) <$> report_weeks df.

(** The mean of the available buckets, zero when there is none. *)
Definition mean_or_zero (counts : list Z) : Q :=
  match counts with
  | [] => 0%Q
  | _ => Zmean counts
  end.

(** The coordinates of a report, when it has them. *)
Definition coordinates (report : Report) : option (Q * Q) :=
  match location report with
  | Some loc =>
      match loc_lat loc, loc_lng loc with
      | Some a, Some b => Some (a, b)
      | _, _ => None
      end
  | None => None
  end.

(** A report lacks a required entry: severity, a creation time that can
    be read, verified or fixingStatus. *)
Definition lacks_required (report : Report) : bool :=
  match severity report, createdAt report, verified report,
        fixingStatus report with
  | Some _, Some (ValidTime _), Some _, Some _ => false
  | _, _, _, _ => true
  end.

(** The reports at which the geofilter stops: those without coordinates,
    and those within the radius that lack a required entry. *)
Definition aborts (target_lat target_lng radius_km : Q) (report : Report)
  : bool :=
  match coordinates report with
  | None => true
  | Some (a, b) =>
      within_radius a b target_lat target_lng radius_km
      && lacks_required report
  end.

(** The row of a report that has every entry and lies within the radius. *)
Definition row_of (target_lat target_lng radius_km : Q) (report : Report)
  : option ReportData :=
  match coordinates report, severity report, createdAt report,
        verified report, fixingStatus report with
  | Some (a, b), Some sev, Some (ValidTime t), Some ver, Some fixing =>
      if within_radius a b target_lat target_lng radius_km
      then Some {| latitude := a; longitude := b; row_severity := sev;
                   created_at := t;
                   row_type := default "pothole" (type report);
                   row_verified := ver; fixing_status := fixing |}
      else None
  | _, _, _, _, _ => None
  end.

(** *** The pattern of the keyword-mode parser *)

(** [s] does not start with a character of the class. *)
Definition stops (p : ascii → bool) (s : string) : Prop :=
  match s with
  | EmptyString => True
  | String c _ => p c = false
  end.

(** The pattern [confidence[\s:]+([0-9.]+)] matches at the start of [s]
    and captures [run]: the word, then separators, then the longest run
    of digits and dots. *)
Definition confidence_match (s run : string) : Prop :=
  ∃ seps rest,
    s = "confidence" +:+ seps +:+ run +:+ rest
    ∧ seps ≠ "" ∧ PyStr.all_chars is_sep seps = true
    ∧ run ≠ "" ∧ PyStr.all_chars is_numchar run = true
    ∧ stops is_numchar rest.

(** The leftmost match of the pattern in [s] captures [run]. *)
Definition leftmost_confidence (s run : string) : Prop :=
  ∃ pre suf,
    s = pre +:+ suf
    ∧ confidence_match suf run
    ∧ ∀ pre' suf' run',
        s = pre' +:+ suf' →
        (String.length pre' < String.length pre)%nat →
        ¬ confidence_match suf' run'.

(** The pattern matches nowhere in [s]. *)
Definition no_confidence (s : string) : Prop :=
  ∀ pre suf run, s = pre +:+ suf → ¬ confidence_match suf run.

(** The test that guards the trend description looks at the folded text,
    the split that follows at the text itself: they agree when the text
    holds the word in lower case, or not at all. *)
Definition trend_guard_agrees (text : string) : Prop :=
  PyStr.contains "trend" (PyStr.lower text) = true →
  PyStr.contains "trend" text = true.

(** *** Clusters *)

(** The number of samples that carry a label. *)
Definition count_of (l : Z) (labels : list Z) : nat :=
  length (filter (λ x, x = l) labels).

(** Labels that are only ever added: a sample keeps its label, or goes
    from noise to the label [c]. *)
Definition extends (c : Z) (labels labels' : list Z) : Prop :=
  ∀ v, labels' !! v = labels !! v
       ∨ (labels !! v = Some (-1) ∧ labels' !! v = Some c).

Section Graph.
Context (min_samples : nat) (nbhs : list (list nat)).

(** A labelled sample is a core sample, or a neighbour of a core sample
    with the same label. *)
Definition supported (labels : list Z) : Prop :=
  ∀ v l, labels !! v = Some l → l ≠ -1 →
    is_core min_samples nbhs v = true
    ∨ ∃ u, is_core min_samples nbhs u = true
           ∧ labels !! u = Some l ∧ v ∈ neighb nbhs u.

(** The neighbours of a labelled core sample are labelled, or wait on the
    stack of the search for the cluster [c]. *)
Definition closed_up_to (c : Z) (stack : list nat) (labels : list Z) : Prop :=
  ∀ u v l, labels !! u = Some l → l ≠ -1 →
    is_core min_samples nbhs u = true → v ∈ neighb nbhs u →
    labels !! v ≠ Some (-1) ∨ (l = c ∧ v ∈ stack).

(** A sample on the stack is the core sample the search started from, or
    a neighbour of a core sample of the cluster. *)
Definition stack_supported (c : Z) (stack : list nat) (labels : list Z)
  : Prop :=
  ∀ v, v ∈ stack →
    is_core min_samples nbhs v = true
    ∨ ∃ u, is_core min_samples nbhs u = true
           ∧ labels !! u = Some c ∧ v ∈ neighb nbhs u.

(** What holds between two searches, when the clusters [0 .. c-1] are
    complete. *)
Record clustered (n : nat) (c : Z) (labels : list Z) : Prop := {
  cl_length : length labels = n;
  cl_next : 0 ≤ c;
  cl_range : ∀ v l, labels !! v = Some l → l = -1 ∨ (0 ≤ l ∧ l < c);
  cl_closed : closed_up_to c [] labels;
  cl_supported : supported labels;
  cl_sizes : ∀ l, 0 ≤ l → l < c → (min_samples ≤ count_of l labels)%nat;
}.

End Graph.

(** The steps a search can still take: every step labels a sample, or
    drops one from the stack. *)
Definition search_measure (n : nat) (stack : list nat) (labels : list Z)
  : nat :=
  (count_of (-1) labels * (n + 1) + length stack)%nat.

(** [c] is [q] brought into the interval from 0 to 1. *)
Definition clamped (q c : Q) : Prop :=
  ((q < 0)%Q → (c == 0)%Q)
  ∧ ((0 <= q)%Q → (q <= 1)%Q → (c == q)%Q)
  ∧ ((1 < q)%Q → (c == 1)%Q).

End AnalyticsNotions.

(** ** Instances used to evaluate the embedding on examples *)

Module Demo.

(** Rounding to the nearest integer, ties to even. *)
Definition round_half_even (q : Q) : Z :=
  let n := Qnum q in
  let d := Z.pos (Qden q) in
  let fl := n / d in
  let r2 := 2 * (n mod d) in
  if r2 <? d then fl
  else if d <? r2 then fl + 1
  else if Z.even fl then fl else fl + 1.

(** Numbers written as counts of thousandths, and as fractions. *)
Definition thousandths : NumFormat :=
  {| round3_str := λ q, pretty (round_half_even (q * 1000));
     float_str := λ q, pretty (Qnum q) +:+ "/" +:+ pretty (Z.pos (Qden q));
     isoformat := λ t, pretty t |}.

(** A gateway that acknowledges every request. *)
Definition accepting : SMS.Gateway :=
  λ _, SMS.Response 200
         (Ok {| SMS.json_return := Some (JBool true);
                SMS.json_message := None |}).

(** A gateway whose requests time out. *)
Definition timing_out : SMS.Gateway := λ _, SMS.PostRaises Timeout.

Definition somewhere : LocationData :=
  {| lat := Some (129716 # 10000); lng := Some (775946 # 10000);
     address := None |}.

(** The slope of the least-squares line through the points [(i, y_i)],
    computed exactly. *)
Definition exact_slope (ys : list Z) : Q :=
  let n := Z.of_nat (length ys) in
  let xs := seqZ 0 n in
  let sx := Analytics.Zsum xs in
  let sy := Analytics.Zsum ys in
  let sxx := Analytics.Zsum ((λ x, x * x) <$> xs) in
  let sxy := Analytics.Zsum (zip_with Z.mul xs ys) in
  (inject_Z (n * sxy - sx * sy) / inject_Z (n * sxx - sx * sx))%Q.

Definition exact_fit : Numpy := {| polyfit_slope := exact_slope |}.

(** Time spans written as a number of days. *)
Definition days_only : Pandas :=
  {| Timedelta := λ text,
       if String.eqb text "7d" then Ok (7 * SMS.one_day)
       else if String.eqb text "1d" then Ok SMS.one_day
       else Raise (ValueError text) |}.

(** A parser that knows the empty object only. *)
Definition empty_object_only : Json :=
  {| loads := λ text,
       if String.eqb text "{}" then Ok (JDict [])
       else Raise (JSONDecodeError text);
     loads_empty := ex_intro _ "" eq_refl |}.

Definition plain_forecast_format : Analytics.ForecastFormat :=
  {| Analytics.month_key := λ raw,
       match raw with
       | Analytics.ValidTime t => Ok (pretty (t / (30 * SMS.one_day)))
       | Analytics.InvalidTime text => Raise (ValueError text)
       end;
     Analytics.month_of := λ t, pretty (t / (30 * SMS.one_day));
     Analytics.counts_str := λ counts,
       PyStr.join ", " ((λ kv, kv.1 +:+ ": " +:+ pretty kv.2) <$> counts) |}.

(** A well-formed report at a place and a time. *)
Definition report_at (la ln : Q) (t : Z) : Analytics.Report :=
  {| Analytics.location :=
       Some {| Analytics.loc_lat := Some la; Analytics.loc_lng := Some ln |};
     Analytics.severity := Some "high";
     Analytics.createdAt := Some (Analytics.ValidTime t);
     Analytics.type := None;
     Analytics.verified := Some "verified";
     Analytics.fixingStatus := Some "pending" |}.

(** The same report without its severity. *)
Definition report_without_severity (la ln : Q) (t : Z) : Analytics.Report :=
  {| Analytics.location :=
       Some {| Analytics.loc_lat := Some la; Analytics.loc_lng := Some ln |};
     Analytics.severity := None;
     Analytics.createdAt := Some (Analytics.ValidTime t);
     Analytics.type := None;
     Analytics.verified := Some "verified";
     Analytics.fixingStatus := Some "pending" |}.

(** A row of the data frame at a place and a time. *)
Definition row_at (la ln : Q) (t : Z) : Analytics.ReportData :=
  {| Analytics.latitude := la; Analytics.longitude := ln;
     Analytics.row_severity := "high"; Analytics.created_at := t;
     Analytics.row_type := "pothole"; Analytics.row_verified := "verified";
     Analytics.fixing_status := "pending" |}.

Definition here : LocationData :=
  {| lat := Some 1%Q; lng := Some 1%Q; address := None |}.

Definition disabled : Analytics.PredictiveAnalytics :=
  {| Analytics.api_key := ""; Analytics.model := None |}.

(** A model whose call raises. *)
Definition failing : Analytics.PredictiveAnalytics :=
  {| Analytics.api_key := "key"; Analytics.model := Some (λ _, Raise (OtherException "quota")) |}.

(** A model that answers. *)
Definition answering (text : string) : Analytics.PredictiveAnalytics :=
  {| Analytics.api_key := "key"; Analytics.model := Some (λ _, Ok text) |}.

(** Ten times the superscript two, a character that [str.isdigit]
    accepts. *)
Definition superscript_twos : string :=
  let c := "178"%char in
  String c (String c (String c (String c (String c
    (String c (String c (String c (String c (String c ""))))))))).

End Demo.

(** ** Notions used in the further statements *)

Module MoreNotions.

(** A text of exactly ten characters, each of which [str.isdigit]
    accepts: the digits 0 to 9, and also the superscript digits. *)
Definition ten_digits (s : string) : Prop :=
  String.length s = 10%nat ∧ PyStr.all_chars PyStr.isdigit_char s = true.

(** The numbers of a call that are left after the validation. *)
Definition valid_numbers (phone_numbers : list string) : list string :=
  filter (λ n, SMS.valid_number n = true) (SMS.clean <$> phone_numbers).

(** A text without a comma. *)
Definition comma_free (s : string) : Prop :=
  PyStr.contains "," s = false.

(** Core samples that are neighbours and both labelled carry the same
    label. *)
Definition core_agree (min_samples : nat) (nbhs : list (list nat))
    (labels : list Z) : Prop :=
  ∀ u v l l',
    Analytics.is_core min_samples nbhs u = true →
    Analytics.is_core min_samples nbhs v = true →
    v ∈ Analytics.neighb nbhs u →
    labels !! u = Some l → labels !! v = Some l' →
    l ≠ -1 → l' ≠ -1 → l = l'.

(** Two rows lie within [eps_km] of each other, as the clusterer measures
    it: in degrees, with 111 km to the degree. *)
Definition nearby (eps_km : Q) (a b : Analytics.ReportData) : bool :=
  Analytics.euclid_near (eps_km / 111)
    (Analytics.latitude a, Analytics.longitude a)
    (Analytics.latitude b, Analytics.longitude b).

(** A row is dense when at least three rows of the subset lie within
    [eps_km] of it, itself included. *)
Definition dense (eps_km : Q) (df : list Analytics.ReportData)
    (a : Analytics.ReportData) : Prop :=
  (3 ≤ length (filter (λ b, nearby eps_km a b = true) df))%nat.

(** The part of a text before the first occurrence of a pattern: the
    whole text when the pattern does not occur. *)
Definition before (pat s : string) : string :=
  match PyStr.find pat s with
  | Some n => PyStr.take n s
  | None => s
  end.

(** [counts.get(k, 0)]. *)
Fixpoint counts_get (k : string) (counts : list (string * nat)) : nat :=
  match counts with
  | [] => 0
  | (k', n) :: r => if String.eqb k' k then n else counts_get k r
  end.

(** The level under which the severity histogram counts a report. *)
Definition severity_bucket (report : Analytics.Report) : string :=
  default "medium" (Analytics.severity report).

Section Months.
Context `{Analytics.ForecastFormat}.

(** The month under which the monthly histogram counts a report, if it
    counts it: the month of its date, the current month when it has no
    date, none when its date cannot be read. *)
Definition month_bucket (now : Z) (report : Analytics.Report)
  : option string :=
  match Analytics.createdAt report with
  | Some raw =>
      match Analytics.month_key raw with
      | Ok key => Some key
      | Raise _ => None
      end
  | None => Some (Analytics.month_of now)
  end.

End Months.

(** A report has coordinates, and they lie within the radius of the
    target. *)
Definition in_radius (target_lat target_lng radius_km : Q)
    (report : Analytics.Report) : bool :=
  match AnalyticsNotions.coordinates report with
  | Some (a, b) =>
      Analytics.within_radius a b target_lat target_lng radius_km
  | None => false
  end.

End MoreNotions.

(** * The string operations on examples *)

Section StringExamples.

Example remove_example :
  PyStr.remove "+91" "+91 98765-43210" = " 98765-43210"
  ∧ PyStr.remove "-" "98765-43210" = "9876543210".
Proof. split; reflexivity. Qed.

Example split_example :
  PyStr.split "ab" "xabyabab" = ["x"; "y"; ""; ""]
  ∧ PyStr.split "trend" "Trend: up" = ["Trend: up"]
  ∧ PyStr.split "trend" "the trend is up" = ["the "; " is up"].
Proof. repeat split; reflexivity. Qed.

Example strip_example : PyStr.strip "  a b  " = "a b".
Proof. reflexivity. Qed.

Example find_example :
  PyStr.find "{" "ab{c{" = Some 2%nat
  ∧ PyStr.rfind_char "}" "a}b}c" = Some 3%nat
  ∧ PyStr.slice "hello" 1 4 = "ell"
  ∧ PyStr.slice "hello" 3 0 = "".
Proof. repeat split; reflexivity. Qed.

End StringExamples.

(** * Properties of the SMS service *)

Section SMSProperties.
Context `{NumFormat}.
Import SMS SMSNotions.

Lemma ledger_at_set_same (self : SMSService) (k : string) (l : list Z) :
  ledger_at (set_ledger self k l) k = l.
Proof. unfold ledger_at, set_ledger; simpl. by rewrite lookup_insert_eq. Qed.

Lemma ledger_at_set_other (self : SMSService) (k k' : string) (l : list Z) :
  k ≠ k' → ledger_at (set_ledger self k l) k' = ledger_at self k'.
Proof.
  intros Hne. unfold ledger_at, set_ledger; simpl.
  by rewrite lookup_insert_ne.
Qed.

Lemma can_send_service (self : SMSService) (k : string) (now : Z) :
  (_can_send_alert self k now).2
  = set_ledger self k (younger now (ledger_at self k)).
Proof. reflexivity. Qed.

Lemma can_send_answer (self : SMSService) (k : string) (now : Z) :
  (_can_send_alert self k now).1
  = bool_decide (length (younger now (ledger_at self k))
                 < max_alerts_per_day self)%nat.
Proof.
  unfold _can_send_alert; cbn [fst]. by rewrite ledger_at_set_same.
Qed.


Lemma send_not_reaching self nums loc cnt now now_sent gw :
  reaches_gateway self nums loc now = false →
  let out := send_high_priority_alert self nums loc cnt now now_sent gw in
  (result out).1 = false ∧ posted out = [] ∧
  (service out = self
   ∨ service out = (_can_send_alert self (location_key_of loc) now).2).
Proof.
  unfold reaches_gateway, send_high_priority_alert. cbv zeta.
  destruct (_can_send_alert self (location_key_of loc) now)
    as [allowed self1] eqn:Hc.
  destruct (is_enabled self); simpl; [|by auto].
  destruct nums as [|n nums]; simpl; [by auto|].
  destruct allowed; simpl; [|by auto].
  destruct (filter _ _) as [|c cs] eqn:Hf; simpl; [by auto|].
  done.
Qed.

Lemma send_reaching self nums loc cnt now now_sent gw :
  reaches_gateway self nums loc now = true →
  let k := location_key_of loc in
  let self1 := (_can_send_alert self k now).2 in
  let payload := alert_payload self nums loc cnt in
  let out := send_high_priority_alert self nums loc cnt now now_sent gw in
  posted out = [payload] ∧
  (result out).1 = acknowledged (gw payload) ∧
  service out = if acknowledged (gw payload)
                then set_ledger self1 k (ledger_at self1 k ++ [now_sent])
                else self1.
Proof.
  unfold reaches_gateway, send_high_priority_alert, alert_payload. cbv zeta.
  rewrite (can_send_service self).
  destruct (_can_send_alert self (location_key_of loc) now)
    as [allowed self1] eqn:Hc.
  destruct (is_enabled self); simpl; [|done].
  destruct nums as [|n nums]; simpl; [done|].
  destruct allowed; simpl; [|done].
  destruct (filter _ _) as [|c cs] eqn:Hf; simpl; [done|].
  intros _.
  assert (self1 = set_ledger self (location_key_of loc)
                    (younger now (ledger_at self (location_key_of loc))))
    as Hs by (rewrite <- can_send_service; by rewrite Hc).
  rewrite <- Hs.
  assert (api_key self1 = api_key self) as -> by (by rewrite Hs).
  destruct (gw _) as [e|status body]; simpl; [done|].
  destruct (status =? 200); simpl; [|by destruct body].
  destruct body as [body|e]; simpl; [|done].
  destruct (default false (eq_True <$> json_return body)); done.
Qed.

End SMSProperties.

Section SMSClaims.
Context `{NumFormat}.
Import SMS SMSNotions.




(** C6, as amended.  A call succeeds exactly when it got as far as the
    gateway and the gateway acknowledged the request; only then a
    timestamp is appended, to the entry of the key as the rate-limit
    check left it.  On every failure of the gateway the result is
    [(False, reason)] and the service is what the rate-limit check left:
    the entry of the key pruned to the timestamps younger than 24 hours,
    every other entry as before.  The call returns in every case. *)
Theorem alert_recorded_only_after_acknowledgement
    (self : SMSService) (nums : list string) (loc : LocationData)
    (cnt now now_sent : Z) (gw : Gateway) :
  let k := location_key_of loc in
  let checked := (_can_send_alert self k now).2 in
  let out := send_high_priority_alert self nums loc cnt now now_sent gw in
  let answer := gw (alert_payload self nums loc cnt) in
  ((result out).1 = true
   ↔ reaches_gateway self nums loc now = true ∧ acknowledged answer = true)
  ∧ ((result out).1 = true →
     ledger_at (service out) k
     = (younger now (ledger_at self k) ++ [now_sent])%list
     ∧ ∀ k', k ≠ k' → ledger_at (service out) k' = ledger_at self k')
  ∧ (reaches_gateway self nums loc now = true →
     acknowledged answer = false →
     (∃ reason, result out = (false, reason))
     ∧ service out = checked
     ∧ ledger_at (service out) k = younger now (ledger_at self k)
     ∧ ∀ k', k ≠ k' → ledger_at (service out) k' = ledger_at self k')
  ∧ ((result out).1 = false →
     ∀ k', ledger_at (service out) k' = ledger_at self k'
           ∨ ledger_at (service out) k' = younger now (ledger_at self k')).
Proof.
  intros k checked out answer.
  destruct (reaches_gateway self nums loc now) eqn:Hr.
  - destruct (send_reaching self nums loc cnt now now_sent gw Hr)
      as (_ & Hres & Hsvc).
    fold out k checked answer in Hres, Hsvc.
    assert (ledger_at checked k = younger now (ledger_at self k)) as Hk
      by (subst checked; by rewrite can_send_service, ledger_at_set_same).
    assert (∀ k', k ≠ k' → ledger_at checked k' = ledger_at self k') as Hk'
      by (intros k' Hne; subst checked;
          by rewrite can_send_service, ledger_at_set_other).
    split; [|split; [|split]].
    + rewrite Hres. split; [done | by intros [_ ?]].
    + rewrite Hres. intros Hack. rewrite Hack in Hsvc. rewrite Hsvc.
      split.
      * by rewrite ledger_at_set_same, Hk.
      * intros k' Hne. rewrite ledger_at_set_other by done. by apply Hk'.
    + intros _ Hack. rewrite Hack in Hsvc, Hres. rewrite Hsvc.
      split; [|done].
      exists (result out).2. destruct (result out) as [b r].
      simpl in *. by subst b.
    + rewrite Hres. intros Hack. rewrite Hack in Hsvc. rewrite Hsvc.
      intros k'. destruct (decide (k = k')) as [<-|Hne]; [by right|].
      left. by apply Hk'.
  - destruct (send_not_reaching self nums loc cnt now now_sent gw Hr)
      as (Hf & _ & Hsvc).
    fold out k checked in Hf, Hsvc.
    split; [|split; [|split]].
    + rewrite Hf. split; [done | by intros [? _]].
    + rewrite Hf. done.
    + done.
    + intros _ k'. destruct Hsvc as [-> | ->]; [by left|].
      subst checked. rewrite can_send_service.
      destruct (decide (k = k')) as [<-|Hne].
      * right. by rewrite ledger_at_set_same.
      * left. by rewrite ledger_at_set_other.
Qed.

(** C10.  A test send leaves the service, and so every entry of the
    ledger, as it was; its result and the request it posts are the same
    whatever the ledger holds; and a rate-limit check after it answers as
    it would have before. *)
Theorem test_sms_ignores_ledger
    (self : SMSService) (phone_number test_message : string) (gw : Gateway) :
  let out := send_test_sms self phone_number test_message gw in
  service out = self
  ∧ (∀ k, ledger_at (service out) k = ledger_at self k)
  ∧ (∀ m,
       let out' := send_test_sms (with_ledger self m) phone_number
                                 test_message gw in
       result out' = result out ∧ posted out' = posted out
       ∧ sent_alerts (service out') = m)
  ∧ (∀ k now,
       _can_send_alert (service out) k now = _can_send_alert self k now).
Proof.
  intros out.
  assert (service out = self) as Hsvc.
  { subst out. unfold send_test_sms.
    destruct (negb (is_enabled self)); [done|].
    destruct (negb (valid_number _)); [done|].
    destruct (gw _) as [e|status body]; [done|].
    destruct (status =? 200); [|done].
    destruct body as [body|e]; [|done].
    destruct (default false _); done. }
  split; [done|]. split; [by rewrite Hsvc|]. split; [|by rewrite Hsvc].
  intros m out'. subst out out'. unfold send_test_sms.
  change (is_enabled (with_ledger self m)) with (is_enabled self).
  change (api_key (with_ledger self m)) with (api_key self).
  destruct (negb (is_enabled self)); [done|].
  destruct (negb (valid_number _)); [done|].
  destruct (gw _) as [e|status body]; [done|].
  destruct (status =? 200); [|done].
  destruct body as [body|e]; [|done].
  destruct (default false _); done.
Qed.

End SMSClaims.

Section SMSExamples.
Import SMS SMSNotions.
Local Existing Instance Demo.thousandths.

(** The normalisation of a phone number. *)
Example clean_example :
  clean "+91 98765-43210" = "9876543210"
  ∧ valid_number (clean "+91 98765-43210") = true
  ∧ valid_number (clean "12345") = false.
Proof. repeat split; reflexivity. Qed.


(** C6 as stated fails: a running service holds one expired timestamp
    for a key; an alert for that key two days later reaches the gateway,
    which times out; the call returns [(False, reason)], and the entry of
    the key has changed from one timestamp to none. *)
Lemma failed_alert_prunes_entry :
  let k := location_key_of Demo.somewhere in
  let self := service (send_high_priority_alert (init "key")
                         ["+91 98765-43210"] Demo.somewhere 5 0 7
                         Demo.accepting) in
  let out := send_high_priority_alert self ["9876543210"] Demo.somewhere 5
               (2 * one_day + 7) (2 * one_day + 8) Demo.timing_out in
  reachable self
  ∧ reaches_gateway self ["9876543210"] Demo.somewhere (2 * one_day + 7) = true
  ∧ result out = (false, "SMS request timeout")
  ∧ ledger_at self k = [7]
  ∧ ledger_at (service out) k = []
  ∧ ledger_at (service out) k ≠ ledger_at self k.
Proof.
  intros k self out.
  split; [apply reach_alert, reach_init|].
  assert (ledger_at self k = [7]) as Hbefore by reflexivity.
  assert (ledger_at (service out) k = []) as Hafter by reflexivity.
  split; [reflexivity|]. split; [reflexivity|].
  split; [exact Hbefore|]. split; [exact Hafter|].
  rewrite Hbefore, Hafter. discriminate.
Qed.

(** The amended statement at that call: nothing is appended, the entry
    is the pruned one. *)
Lemma alert_recorded_only_after_acknowledgement_witness :
  let k := location_key_of Demo.somewhere in
  let self := service (send_high_priority_alert (init "key")
                         ["+91 98765-43210"] Demo.somewhere 5 0 7
                         Demo.accepting) in
  let now := 2 * one_day + 7 in
  let out := send_high_priority_alert self ["9876543210"] Demo.somewhere 5
               now (now + 1) Demo.timing_out in
  reaches_gateway self ["9876543210"] Demo.somewhere now = true
  ∧ acknowledged (Demo.timing_out
                    (alert_payload self ["9876543210"] Demo.somewhere 5))
    = false
  ∧ (∃ reason, result out = (false, reason))
  ∧ ledger_at (service out) k = younger now (ledger_at self k).
Proof.
  intros k self now out.
  assert (reaches_gateway self ["9876543210"] Demo.somewhere now = true)
    as Hr by reflexivity.
  assert (acknowledged (Demo.timing_out
                    (alert_payload self ["9876543210"] Demo.somewhere 5))
          = false) as Hack by reflexivity.
  destruct (alert_recorded_only_after_acknowledgement self ["9876543210"]
              Demo.somewhere 5 now (now + 1) Demo.timing_out)
    as (_ & _ & Hfail & _).
  destruct (Hfail Hr Hack) as (Hres & _ & Hk & _).
  split; [exact Hr|]. split; [exact Hack|]. split; [exact Hres | exact Hk].
Defined.

End SMSExamples.

(** * Properties of the trend analyzer *)

Section TrendProperties.
Import Analytics AnalyticsNotions.

Lemma Qltb_lt (a b : Q) : Qltb a b = true ↔ (a < b)%Q.
Proof.
  unfold Qltb. rewrite negb_true_iff, <- not_true_iff_false, Qle_bool_iff.
  split; [apply Qnot_le_lt | apply Qlt_not_le].
Qed.

Lemma Qltb_ge (a b : Q) : Qltb a b = false ↔ (b <= a)%Q.
Proof.
  unfold Qltb. rewrite negb_false_iff, Qle_bool_iff. done.
Qed.

(** C3.  The severity heuristic follows the stated precedence: high when
    the frequency exceeds 5, or the trend is increasing and the frequency
    exceeds 3; otherwise medium when the frequency exceeds 2 or the trend
    is increasing; otherwise low.  The four literal cases of the
    specification are among its values, and [_analyze_trends] applies it
    whenever it has at least two weekly buckets. *)
Theorem severity_precedence `{Numpy} (t : Trend) (f : Q) :
  let rule1 := (5 < f)%Q ∨ (t = increasing ∧ (3 < f)%Q) in
  let rule2 := (2 < f)%Q ∨ t = increasing in
  (severity_of t f = high ↔ rule1)
  ∧ (severity_of t f = medium ↔ ¬ rule1 ∧ rule2)
  ∧ (severity_of t f = low ↔ ¬ rule1 ∧ ¬ rule2)
  ∧ severity_of stable 6 = high
  ∧ severity_of increasing 4 = high
  ∧ severity_of stable (25 # 10) = medium
  ∧ severity_of stable 1 = low
  ∧ ∀ df, let r := _analyze_trends df in
          prediction r = if (length (resample_W df) <? 2)%nat then low
                         else severity_of (trend r) (frequency r).
Proof.
  intros rule1 rule2.
  assert (Qltb 5 f || bool_decide (t = increasing) && Qltb 3 f = true
          ↔ rule1) as H1.
  { rewrite orb_true_iff, andb_true_iff, bool_decide_eq_true, !Qltb_lt.
    done. }
  assert (Qltb 2 f || bool_decide (t = increasing) = true ↔ rule2) as H2.
  { rewrite orb_true_iff, bool_decide_eq_true, Qltb_lt. done. }
  split; [|split; [|split]].
  1-3: rewrite <- H1, <- ?H2; unfold severity_of;
       destruct (Qltb 5 f || bool_decide (t = increasing) && Qltb 3 f);
       destruct (Qltb 2 f || bool_decide (t = increasing));
       split; (try done); (try by intros [? ?]); auto.
  do 4 (split; [reflexivity|]).
  intros [|row df]; [done|]. unfold _analyze_trends.
  by destruct (length (resample_W (row :: df)) <? 2)%nat.
Qed.

Lemma remove_dups_short_all_same (l : list Z) :
  (length (remove_dups l) < 2)%nat → ∀ x y, x ∈ l → y ∈ l → x = y.
Proof.
  intros Hlen x y Hx Hy.
  apply elem_of_remove_dups in Hx, Hy.
  destruct (remove_dups l) as [|a [|b r]]; simpl in Hlen; [| |lia].
  - by apply elem_of_nil in Hx.
  - apply list_elem_of_singleton in Hx, Hy. congruence.
Qed.

Lemma Zminimum_const (w : Z) (ws : list Z) :
  Forall (λ x, x = w) ws → Zminimum w ws = w.
Proof. induction 1 as [|x ws -> _ IH]; simpl; [done | rewrite IH; lia]. Qed.

Lemma Zmaximum_const (w : Z) (ws : list Z) :
  Forall (λ x, x = w) ws → Zmaximum w ws = w.
Proof. induction 1 as [|x ws -> _ IH]; simpl; [done | rewrite IH; lia]. Qed.

Lemma count_in_const (w : Z) (weeks : list Z) :
  Forall (λ x, x = w) weeks → count_in w weeks = Z.of_nat (length weeks).
Proof.
  intros Hall. unfold count_in. f_equal.
  induction Hall as [|x ws -> _ IH]; [done|].
  rewrite filter_cons_True by done. simpl. by rewrite IH.
Qed.

Lemma weekly_counts_one_week (w : Z) (ws : list Z) :
  Forall (λ x, x = w) ws →
  weekly_counts_of (w :: ws) = [Z.of_nat (length (w :: ws))].
Proof.
  intros Hall. unfold weekly_counts_of.
  rewrite Zminimum_const, Zmaximum_const by done.
  replace (w - w + 1) with 1 by lia. cbn [seqZ fmap list_fmap].
  change (seqZ w 1) with [w]. simpl.
  rewrite count_in_const; [done | by constructor].
Qed.

Lemma Zmean_singleton (c : Z) : (Zmean [c] == inject_Z c)%Q.
Proof.
  unfold Zmean. simpl. replace (c + 0) with c by lia.
  unfold Qeq, Qdiv, Qmult, Qinv, inject_Z; simpl. lia.
Qed.

(** C2.  A subset with fewer than two non-empty weekly buckets is
    classified stable and low, and the frequency reported is the mean of
    the buckets there are: zero without reports, and else the count of
    the one bucket, which holds all the reports. *)
Theorem fewer_than_two_buckets_stable_low `{Numpy} (df : list ReportData) :
  (length (report_weeks df) < 2)%nat →
  let r := _analyze_trends df in
  trend r = stable
  ∧ prediction r = low
  ∧ (frequency r == mean_or_zero (bucket_counts df))%Q
  ∧ (frequency r == inject_Z (Z.of_nat (length df)))%Q.
Proof.
  intros Hlen r. subst r. destruct df as [|row df]; [done|].
  unfold report_weeks in Hlen.
  pose proof (remove_dups_short_all_same _ Hlen) as Hsame.
  set (weeks := week_of ∘ created_at <$> row :: df) in *.
  assert (∃ w ws, weeks = w :: ws ∧ Forall (λ x, x = w) ws)
    as (w & ws & Hweeks & Hall).
  { exists (week_of (created_at row)), (week_of ∘ created_at <$> df).
    split; [done|]. apply Forall_forall. intros x Hx.
    apply Hsame; subst weeks; rewrite fmap_cons.
    - by apply list_elem_of_further.
    - apply list_elem_of_here. }
  assert (length weeks = length (row :: df)) as Hl
    by (subst weeks; apply length_fmap).
  assert (resample_W (row :: df) = [Z.of_nat (length (row :: df))]) as Hres.
  { unfold resample_W. fold weeks. rewrite Hweeks.
    rewrite weekly_counts_one_week by done. by rewrite <- Hweeks, Hl. }
  assert (bucket_counts (row :: df) = [Z.of_nat (length (row :: df))])
    as Hbuckets.
  { unfold bucket_counts, report_weeks. fold weeks.
    assert (remove_dups weeks = [w]) as ->.
    { assert (w ∈ remove_dups weeks) as Hw
        by (apply elem_of_remove_dups; rewrite Hweeks; apply list_elem_of_here).
      destruct (remove_dups weeks) as [|a [|b rest]]; simpl in Hlen; [| |lia].
      - by apply elem_of_nil in Hw.
      - apply list_elem_of_singleton in Hw. by subst. }
    simpl. rewrite count_in_const, Hl; [done|].
    rewrite Hweeks. by constructor. }
  unfold _analyze_trends. rewrite Hres. cbn [length Nat.ltb Nat.leb].
  cbn [trend prediction frequency]. rewrite Hbuckets.
  cbn [mean_or_zero].
  split; [done|]. split; [done|]. split; [done|]. apply Zmean_singleton.
Qed.

(** The series the analyzer tests starts and ends with a week that holds
    a report: it has no zero at either end. *)
Lemma Zminimum_elem (w : Z) (ws : list Z) : Zminimum w ws ∈ w :: ws.
Proof.
  induction ws as [|x ws IH]; simpl; [apply list_elem_of_here|].
  destruct (Z.min_spec x (Zminimum w ws)) as [[_ ->] | [_ ->]].
  - apply list_elem_of_further, list_elem_of_here.
  - apply elem_of_cons in IH as [-> | IH].
    + apply list_elem_of_here.
    + by do 2 apply list_elem_of_further.
Qed.

Lemma Zminimum_le_Zmaximum (w : Z) (ws : list Z) :
  Zminimum w ws ≤ w ∧ w ≤ Zmaximum w ws.
Proof. induction ws as [|x ws IH]; simpl; lia. Qed.

Lemma count_in_pos (w : Z) (weeks : list Z) : w ∈ weeks → 0 < count_in w weeks.
Proof.
  intros Hw. unfold count_in.
  assert (w ∈ filter (λ w', w' = w) weeks) as Hin
    by (by apply list_elem_of_filter).
  destruct (filter _ weeks); [by apply elem_of_nil in Hin | simpl; lia].
Qed.

Lemma weekly_counts_first_positive (weeks : list Z) (c : Z) (rest : list Z) :
  weekly_counts_of weeks = c :: rest → 0 < c.
Proof.
  destruct weeks as [|w ws]; [done|]. unfold weekly_counts_of.
  pose proof (Zminimum_le_Zmaximum w ws) as [Hlo Hhi].
  destruct (Z.to_nat (Zmaximum w ws - Zminimum w ws + 1)) as [|n] eqn:Hn;
    [lia|].
  unfold seqZ. rewrite Hn. simpl. intros [= <- _].
  rewrite Z.add_0_l. apply count_in_pos, Zminimum_elem.
Qed.

End TrendProperties.

Section TrendExamples.
Import Analytics AnalyticsNotions.
Local Existing Instance Demo.exact_fit.

(** Three reports of one week. *)
Lemma fewer_than_two_buckets_stable_low_witness :
  let df := [Demo.row_at 1 1 0; Demo.row_at 1 1 SMS.one_day;
             Demo.row_at 1 1 (2 * SMS.one_day)] in
  (length (report_weeks df) < 2)%nat
  ∧ trend (_analyze_trends df) = stable
  ∧ prediction (_analyze_trends df) = low
  ∧ (frequency (_analyze_trends df) == 3)%Q.
Proof.
  intros df.
  assert (length (report_weeks df) < 2)%nat as Hlen by (vm_compute; lia).
  destruct (fewer_than_two_buckets_stable_low df Hlen) as (Ht & Hp & _ & Hf).
  split; [exact Hlen|]. split; [exact Ht|]. split; [exact Hp | exact Hf].
Defined.

(** Weeks without reports between two weeks with reports are counted as
    zero, and the analyzer then fits a line. *)
Example resample_fills_gaps :
  let df := [Demo.row_at 1 1 0; Demo.row_at 1 1 (14 * SMS.one_day)] in
  resample_W df = [1; 0; 1]
  ∧ trend (_analyze_trends df) = stable
  ∧ prediction (_analyze_trends df) = low.
Proof. repeat split; reflexivity. Qed.

(** A single report, eighteen days into a period: the weeks before it
    hold nothing, the series of the analyzer starts at the week of the
    report, and the answer is stable and low. *)
Example one_report_in_third_week :
  let df := [Demo.row_at 1 1 (18 * SMS.one_day)] in
  week_of (created_at (Demo.row_at 1 1 (18 * SMS.one_day))) = 3
  ∧ resample_W df = [1]
  ∧ trend (_analyze_trends df) = stable
  ∧ prediction (_analyze_trends df) = low
  ∧ (frequency (_analyze_trends df) == 1)%Q.
Proof. repeat split; reflexivity. Qed.

End TrendExamples.

(** * Properties of the geofilter and of the prediction blender *)

Section BlenderProperties.
Context `{NumFormat} `{Numpy} `{Pandas}.
Import Analytics AnalyticsNotions.

Lemma process_report_spec (target : LocationData) (tlat tlng radius_km : Q)
    (report : Report) :
  lat target = Some tlat → lng target = Some tlng →
  if aborts tlat tlng radius_km report
  then ∃ e, process_report target radius_km report = Raise e
  else process_report target radius_km report
       = Ok (row_of tlat tlng radius_km report).
Proof.
  intros Hlat Hlng. unfold aborts, row_of, coordinates, process_report,
    lacks_required.
  rewrite Hlat, Hlng.
  destruct (location report) as [[[a|] [b|]]|]; simpl; eauto.
  destruct (within_radius a b tlat tlng radius_km); simpl.
  - destruct (severity report), (createdAt report) as [[t|txt]|],
      (verified report), (fixingStatus report); simpl; eauto.
  - by destruct (severity report), (createdAt report) as [[t|txt]|],
      (verified report), (fixingStatus report).
Qed.

Lemma process_historical_data_spec (target : LocationData)
    (tlat tlng radius_km : Q) (reports : list Report) :
  lat target = Some tlat → lng target = Some tlng →
  if existsb (aborts tlat tlng radius_km) reports
  then ∃ e, _process_historical_data reports target radius_km = Raise e
  else _process_historical_data reports target radius_km
       = Ok (omap (row_of tlat tlng radius_km) reports).
Proof.
  intros Hlat Hlng. induction reports as [|report rest IH]; [done|].
  pose proof (process_report_spec target tlat tlng radius_km report Hlat Hlng)
    as Hone.
  cbn [existsb _process_historical_data].
  destruct (aborts tlat tlng radius_km report); simpl.
  - destruct Hone as [e ->]. by exists e.
  - rewrite Hone. simpl.
    destruct (existsb (aborts tlat tlng radius_km) rest).
    + destruct IH as [e ->]. by exists e.
    + rewrite IH. simpl. by destruct (row_of tlat tlng radius_km report).
Qed.

(** The block that calls the model raises exactly when the geofilter,
    the building of the prompt or the call of the model raises: the
    parser is not among them, it catches what it raises. *)
Lemma predict_body_raises (generate_content : GenerativeModel)
    (location_data : LocationData) (historical_reports : list Report)
    (time_range : string) (now : Z) :
  (∃ e, predict_body generate_content location_data historical_reports
                     time_range now = Raise e)
  ↔ (∃ e, _process_historical_data historical_reports location_data 5
          = Raise e)
    ∨ (∃ df e, _process_historical_data historical_reports location_data 5
               = Ok df
               ∧ _generate_ai_prompt df location_data time_range now
                 = Raise e)
    ∨ (∃ df prompt e,
         _process_historical_data historical_reports location_data 5 = Ok df
         ∧ _generate_ai_prompt df location_data time_range now = Ok prompt
         ∧ generate_content prompt = Raise e).
Proof.
  unfold predict_body.
  destruct (_process_historical_data historical_reports location_data 5)
    as [df|e0]; cbn [exc_bind].
  - destruct (_generate_ai_prompt df location_data time_range now)
      as [prompt|e1] eqn:Hprompt; cbn [exc_bind].
    + destruct (generate_content prompt) as [text|e2] eqn:Hgen;
        cbn [exc_bind].
      * split; [by intros [e He]|].
        intros [[e He] | [(df' & e & Hd & Hp)
                         | (df' & prompt' & e & Hd & Hp & He)]].
        -- done.
        -- injection Hd as <-. congruence.
        -- injection Hd as <-. rewrite Hprompt in Hp.
           injection Hp as <-. congruence.
      * split; [|by exists e2]. intros _. right. right.
        by exists df, prompt, e2.
    + split; [|by exists e1]. intros _. right. left. by exists df, e1.
  - split; [|by exists e0]. intros _. left. by exists e0.
Qed.

(** C1, as amended.  When the AI subsystem is disabled, or the geofilter,
    the building of the prompt or the call of the model raises, the
    prediction is the statistical fallback: if the fallback runs
    through, its confidence is 0.6 and its trends hold the statistical
    result alone; if the fallback raises, the result is the all-default
    payload, with confidence 0.3.  These are the only cases without an
    [ai] entry.  A reply that the parser cannot read is not among them:
    the parser catches its own exception, and the prediction stays on
    the AI path, with the severity medium, the confidence 0.5 and an
    [ai] entry that reports the error, beside the statistical result. *)
Theorem prediction_falls_back (self : PredictiveAnalytics)
    (location_data : LocationData) (historical_reports : list Report)
    (time_range : string) (now : Z) :
  let r := predict_pothole_conditions self location_data historical_reports
                                      time_range now in
  let falls_back :=
    is_enabled self = false
    ∨ (∃ generate_content e,
         model self = Some generate_content
         ∧ predict_body generate_content location_data historical_reports
                        time_range now = Raise e) in
  (falls_back →
   r = _fallback_prediction location_data historical_reports time_range
   ∧ match _process_historical_data historical_reports location_data 5 with
     | Ok df =>
         confidence r = 6 # 10
         ∧ trends r = {| ai := None; statistical := _analyze_trends df |}
         ∧ predictedSeverity r = prediction (_analyze_trends df)
         ∧ hotspots r = _identify_hotspots df (1 # 10)
     | Raise _ =>
         (∃ e, fallback_body location_data historical_reports = Raise e)
         ∧ r = {| predictedSeverity := low;
                  confidence := 3 # 10;
                  hotspots := [];
                  trends := {| ai := None;
                               statistical := {| trend := stable;
                                                 frequency := 0;
                                                 prediction := low |} |} |}
     end)
  ∧ (ai (trends r) = None ↔ falls_back)
  ∧ (∀ generate_content df prompt text,
       model self = Some generate_content →
       _process_historical_data historical_reports location_data 5 = Ok df →
       _generate_ai_prompt df location_data time_range now = Ok prompt →
       generate_content prompt = Ok text →
       r = {| predictedSeverity := ai_severity (_parse_ai_response text);
              confidence := ai_confidence (_parse_ai_response text);
              hotspots := _identify_hotspots df (1 # 10);
              trends := {| ai := Some (ai_trends (_parse_ai_response text));
                           statistical := _analyze_trends df |} |}
       ∧ ((∃ e, parse_ai_response_body text = Raise e) →
          predictedSeverity r = medium
          ∧ confidence r = 5 # 10
          ∧ ai (trends r)
            = Some {| description := "Error parsing AI response";
                      recommendations := [] |}
          ∧ r ≠ _fallback_prediction location_data historical_reports
                                     time_range))
  ∧ (∀ generate_content,
       (∃ e, predict_body generate_content location_data historical_reports
                          time_range now = Raise e)
       ↔ (∃ e, _process_historical_data historical_reports location_data 5
               = Raise e)
         ∨ (∃ df e,
              _process_historical_data historical_reports location_data 5
              = Ok df
              ∧ _generate_ai_prompt df location_data time_range now
                = Raise e)
         ∨ (∃ df prompt e,
              _process_historical_data historical_reports location_data 5
              = Ok df
              ∧ _generate_ai_prompt df location_data time_range now
                = Ok prompt
              ∧ generate_content prompt = Raise e)).
Proof.
  intros r falls_back.
  assert (ai (trends (_fallback_prediction location_data historical_reports
                                           time_range)) = None) as Hfb_ai.
  { unfold _fallback_prediction, fallback_body.
    by destruct (_process_historical_data historical_reports location_data 5). }
  assert (falls_back →
          r = _fallback_prediction location_data historical_reports
                time_range) as Hr.
  { intros Hcase. subst r. unfold predict_pothole_conditions.
    destruct Hcase as [Hoff | (gen & e & Hm & Hraise)].
    - unfold is_enabled in Hoff. apply bool_decide_eq_false in Hoff.
      destruct (model self); [|done]. by destruct Hoff.
    - by rewrite Hm, Hraise. }
  assert (∀ generate_content df prompt text,
            model self = Some generate_content →
            _process_historical_data historical_reports location_data 5
            = Ok df →
            _generate_ai_prompt df location_data time_range now = Ok prompt →
            generate_content prompt = Ok text →
            r = {| predictedSeverity := ai_severity (_parse_ai_response text);
                   confidence := ai_confidence (_parse_ai_response text);
                   hotspots := _identify_hotspots df (1 # 10);
                   trends := {| ai := Some (ai_trends
                                              (_parse_ai_response text));
                                statistical := _analyze_trends df |} |})
    as Hai.
  { intros gen df prompt text Hm Hdf Hprompt Hgen. subst r.
    unfold predict_pothole_conditions, predict_body.
    rewrite Hm, Hdf. cbn [exc_bind]. rewrite Hprompt. cbn [exc_bind].
    by rewrite Hgen. }
  split; [|split; [|split]]; [| | |intros gen; apply predict_body_raises].
  - intros Hcase. split; [by apply Hr|]. rewrite (Hr Hcase).
    unfold _fallback_prediction, fallback_body.
    destruct (_process_historical_data historical_reports location_data 5)
      as [df|e]; simpl; [done|]. split; [by exists e | done].
  - split; [|intros Hcase; by rewrite (Hr Hcase)].
    intros Hnone. unfold falls_back, is_enabled.
    destruct (model self) as [gen|] eqn:Hm; cycle 1.
    { left. apply bool_decide_eq_false. by intros [? ?]. }
    right. exists gen.
    destruct (predict_body gen location_data historical_reports time_range
                           now) as [result|e] eqn:Hbody; [|by exists e].
    exfalso. unfold predict_body in Hbody.
    destruct (_process_historical_data historical_reports location_data 5)
      as [df|e0] eqn:Hdf; [|done].
    cbn [exc_bind] in Hbody.
    destruct (_generate_ai_prompt df location_data time_range now)
      as [prompt|e1] eqn:Hprompt; [|done].
    cbn [exc_bind] in Hbody.
    destruct (gen prompt) as [text|e2] eqn:Hgen; [|done].
    rewrite (Hai gen df prompt text eq_refl eq_refl Hprompt Hgen) in Hnone.
    done.
  - intros gen df prompt text Hm Hdf Hprompt Hgen.
    pose proof (Hai gen df prompt text Hm Hdf Hprompt Hgen) as Hshape.
    split; [exact Hshape|]. intros [e He].
    assert (_parse_ai_response text = parse_error_result) as Hparse
      by (unfold _parse_ai_response; by rewrite He).
    rewrite Hparse in Hshape. rewrite Hshape.
    split; [done|]. split; [done|]. split; [done|].
    intros Heq. apply (f_equal (λ x, ai (trends x))) in Heq.
    rewrite Hfb_ai in Heq. done.
Qed.

(** C4, as amended.  The geofilter does not pass over a malformed
    report: at the first report without coordinates, or within the radius
    and without severity, a readable creation time, verified or
    fixingStatus, it raises and returns no subset.  The error stays
    inside the blender, which answers with the all-default payload.
    Without such a report the subset is made of the rows of the reports
    within the radius; a report outside the radius is dropped without
    its other entries being read. *)
Theorem malformed_report_aborts_batch (self : PredictiveAnalytics)
    (target : LocationData) (tlat tlng : Q) (reports : list Report)
    (time_range : string) (now : Z) :
  lat target = Some tlat → lng target = Some tlng →
  (if existsb (aborts tlat tlng 5) reports
   then (∃ e, _process_historical_data reports target 5 = Raise e)
        ∧ _fallback_prediction target reports time_range = default_payload
        ∧ predict_pothole_conditions self target reports time_range now
          = default_payload
   else _process_historical_data reports target 5
        = Ok (omap (row_of tlat tlng 5) reports))
  ∧ (∀ report a b,
       coordinates report = Some (a, b) →
       within_radius a b tlat tlng 5 = false →
       aborts tlat tlng 5 report = false
       ∧ row_of tlat tlng 5 report = None).
Proof.
  intros Hlat Hlng. split.
  - pose proof (process_historical_data_spec target tlat tlng 5 reports
                  Hlat Hlng) as Hspec.
    destruct (existsb (aborts tlat tlng 5) reports); [|done].
    destruct Hspec as [e He].
    assert (_fallback_prediction target reports time_range = default_payload)
      as Hfb by (unfold _fallback_prediction, fallback_body; by rewrite He).
    split; [by exists e|]. split; [done|].
    unfold predict_pothole_conditions.
    destruct (model self) as [gen|]; [|done].
    unfold predict_body. by rewrite He.
  - intros report a b Hc Hout. unfold aborts, row_of. rewrite Hc, Hout.
    split; [done|].
    by destruct (severity report), (createdAt report) as [[t|txt]|],
      (verified report), (fixingStatus report).
Qed.

End BlenderProperties.

Section BlenderExamples.
Import Analytics AnalyticsNotions.
Local Existing Instance Demo.thousandths.
Local Existing Instance Demo.exact_fit.
Local Existing Instance Demo.days_only.
Import Demo.

(** Without a credential, one report near the target gives the
    statistical answer. *)
Lemma prediction_falls_back_witness :
  let r := predict_pothole_conditions disabled here [Demo.report_at 1 1 0]
                                      "week" 100 in
  is_enabled disabled = false
  ∧ confidence r = 6 # 10
  ∧ ai (trends r) = None
  ∧ predictedSeverity r = low.
Proof.
  intros r. subst r.
  assert (is_enabled disabled = false) as Hoff by reflexivity.
  destruct (prediction_falls_back disabled here [Demo.report_at 1 1 0]
              "week" 100) as (Hfalls & _).
  destruct (Hfalls (or_introl Hoff)) as (_ & Hstat).
  change (_process_historical_data [Demo.report_at 1 1 0] here 5)
    with (Ok [Demo.row_at 1 1 0]) in Hstat.
  destruct Hstat as (Hc & Ht & Hs & _).
  split; [exact Hoff|]. split; [exact Hc|].
  split; [by rewrite Ht | by rewrite Hs].
Defined.

(** The same when the call of the model raises, and the AI answer when
    it does not. *)
Example prediction_with_model :
  let failed := predict_pothole_conditions failing here
                  [Demo.report_at 1 1 0] "7d" 100 in
  let answered := predict_pothole_conditions
                    (answering "Severity: high. Confidence: 0.9")
                    here [Demo.report_at 1 1 0] "7d" 100 in
  confidence failed = 6 # 10 ∧ ai (trends failed) = None
  ∧ predictedSeverity answered = high
  ∧ is_Some (ai (trends answered))
  ∧ (confidence answered == 9 # 10)%Q.
Proof. vm_compute. repeat split; eauto; discriminate. Qed.

(** C1 as stated fails for the parse: on a reply whose confidence ends
    in a full stop the parser raises and catches its own exception, and
    the prediction stays on the AI path.  Its confidence is 0.5, not
    0.6, it carries an [ai] entry, and it is not the statistical
    fallback. *)
Lemma unreadable_answer_stays_on_ai_path :
  let text := "Confidence: 0.8." in
  let r := predict_pothole_conditions (answering text)
             here [Demo.report_at 1 1 0] "7d" 100 in
  parse_ai_response_body text = Raise (ValueError "0.8.")
  ∧ confidence r = 5 # 10
  ∧ ¬ (confidence r == 6 # 10)%Q
  ∧ predictedSeverity r = medium
  ∧ ai (trends r) = Some {| description := "Error parsing AI response";
                            recommendations := [] |}
  ∧ ai (trends r) ≠ None
  ∧ r ≠ _fallback_prediction here [Demo.report_at 1 1 0] "7d".
Proof.
  repeat split; try reflexivity; try discriminate.
Qed.

(** C4 as stated fails: of two reports at the target, the first lacks
    its severity.  The geofilter raises instead of returning the row of
    the second report, and the prediction is the all-default payload. *)
Lemma malformed_report_is_not_skipped :
  let reports := [Demo.report_without_severity 1 1 0; Demo.report_at 1 1 0] in
  _process_historical_data reports here 5 = Raise (KeyError "severity")
  ∧ _process_historical_data [Demo.report_at 1 1 0] here 5
    = Ok [Demo.row_at 1 1 0]
  ∧ _process_historical_data reports here 5 ≠ Ok [Demo.row_at 1 1 0]
  ∧ predict_pothole_conditions disabled here reports "week" 100
    = default_payload.
Proof. repeat split; try reflexivity. discriminate. Qed.

(** The amended statement on those reports and on the well-formed one. *)
Lemma malformed_report_aborts_batch_witness :
  let reports := [Demo.report_without_severity 1 1 0; Demo.report_at 1 1 0] in
  lat here = Some 1%Q ∧ lng here = Some 1%Q
  ∧ (∃ e, _process_historical_data reports here 5 = Raise e)
  ∧ predict_pothole_conditions disabled here reports "week" 100
    = default_payload.
Proof.
  intros reports.
  destruct (malformed_report_aborts_batch disabled here 1 1 reports "week" 100
              eq_refl eq_refl) as (Hbatch & _).
  change (existsb (aborts 1 1 5) reports) with true in Hbatch.
  destruct Hbatch as (Hraise & _ & Hpred).
  split; [reflexivity|]. split; [reflexivity|].
  split; [exact Hraise | exact Hpred].
Defined.

End BlenderExamples.

(** * Properties of the keyword-mode parser *)

Section ParserProperties.
Import Analytics AnalyticsNotions.

Local Arguments append : simpl nomatch.

Lemma append_nil_r (s : string) : s +:+ "" = s.
Proof. induction s as [|c s IH]; simpl; [done | by f_equal]. Qed.

Lemma append_assoc (a b c : string) : (a +:+ b) +:+ c = a +:+ (b +:+ c).
Proof. induction a as [|x a IH]; simpl; [done | by f_equal]. Qed.

Lemma prefix_split (p s : string) :
  String.prefix p s = true → s = p +:+ PyStr.drop (String.length p) s.
Proof.
  revert s. induction p as [|a p IH]; intros s; [done|].
  destruct s as [|b s]; [done|]. simpl.
  destruct (ascii_dec a b) as [->|]; [|done].
  intros Hp. by rewrite <- (IH s Hp).
Qed.

Lemma prefix_append (p s : string) : String.prefix p (p +:+ s) = true.
Proof.
  induction p as [|a p IH]; simpl; [by destruct s|].
  by destruct (ascii_dec a a).
Qed.

Lemma drop_append (p s : string) : PyStr.drop (String.length p) (p +:+ s) = s.
Proof. induction p as [|a p IH]; simpl; [by destruct s | done]. Qed.

Lemma span_spec (p : ascii → bool) (s a b : string) :
  span p s = (a, b)
  ↔ s = a +:+ b ∧ PyStr.all_chars p a = true ∧ stops p b.
Proof.
  revert a b. induction s as [|c s IH]; intros a b; simpl.
  - split.
    + by intros [= <- <-].
    + intros (Hs & _ & _). destruct a; [|done]. simpl in Hs. by subst.
  - destruct (p c) eqn:Hc.
    + destruct (span p s) as [a' b'] eqn:Hspan.
      destruct (IH a' b') as [IH1 _].
      destruct (IH1 eq_refl) as (-> & Ha' & Hb').
      split.
      * intros [= <- <-]. simpl. by rewrite Hc.
      * intros (Hs & Ha & Hb). destruct a as [|x a]; simpl in *.
        { subst b. simpl in Hb. congruence. }
        injection Hs as -> Hs. apply andb_prop in Ha as [_ Ha].
        destruct (IH a b) as [_ IH2].
        specialize (IH2 (conj Hs (conj Ha Hb))). congruence.
    + split.
      * by intros [= <- <-].
      * intros (Hs & Ha & Hb). destruct a as [|x a]; simpl in *.
        { by subst. }
        injection Hs as -> Hs. rewrite Hc in Ha. done.
Qed.

Lemma numchar_not_sep (c : ascii) : is_numchar c = true → is_sep c = false.
Proof.
  unfold is_numchar, is_sep, PyStr.is_digit, PyStr.is_space.
  destruct (Ascii.eqb_spec c "."%char) as [->|_]; [done|].
  destruct (Ascii.eqb_spec c ":"%char) as [->|_]; [done|].
  rewrite !orb_false_r. intros Hd.
  apply andb_prop in Hd as [H1 H2].
  apply Nat.leb_le in H1, H2.
  apply orb_false_iff; split; apply andb_false_iff.
  - right. apply Nat.leb_gt. lia.
  - right. apply Nat.leb_gt. lia.
Qed.

Lemma match_confidence_at_iff (s run : string) :
  match_confidence_at s = Some run ↔ confidence_match s run.
Proof.
  unfold match_confidence_at, confidence_match. split.
  - destruct (String.prefix "confidence" s) eqn:Hp; [|done].
    apply prefix_split in Hp. change (String.length "confidence") with 10%nat in Hp.
    destruct (span is_sep (PyStr.drop 10 s)) as [seps rest] eqn:Hs.
    apply span_spec in Hs as (Hdrop & Hseps & _).
    destruct seps as [|c seps]; [done|].
    destruct (span is_numchar rest) as [run' rest'] eqn:Hr.
    apply span_spec in Hr as (Hrest & Hrun & Hstop).
    destruct run' as [|d run']; [done|]. intros [= <-].
    exists (String c seps), rest'.
    split; [by rewrite Hp at 1; rewrite Hdrop, Hrest|]. done.
  - intros (seps & rest & -> & Hne & Hseps & Hrne & Hrun & Hstop).
    rewrite prefix_append.
    change 10%nat with (String.length "confidence"). rewrite drop_append.
    assert (span is_sep (seps +:+ run +:+ rest) = (seps, run +:+ rest)) as ->.
    { apply span_spec. split; [done|]. split; [done|].
      destruct run as [|d run]; [done|]. simpl in *.
      apply andb_prop in Hrun as [Hd _]. by apply numchar_not_sep. }
    destruct seps; [done|].
    assert (span is_numchar (run +:+ rest) = (run, rest)) as ->
      by (by apply span_spec).
    by destruct run.
Qed.

Lemma first_confidence_match_none (s : string) :
  first_confidence_match s = None ↔ no_confidence s.
Proof.
  unfold no_confidence. induction s as [|c s IH]; simpl.
  - split; [|done]. intros _ pre suf run Hs Hm.
    destruct pre; [|done]. simpl in Hs. subst suf.
    apply match_confidence_at_iff in Hm. done.
  - destruct (match_confidence_at (String c s)) as [run0|] eqn:Hat.
    + split; [done|]. intros Hno. exfalso.
      apply (Hno "" (String c s) run0); [done|].
      by apply match_confidence_at_iff.
    + rewrite IH. split.
      * intros Hno pre suf run Hs Hm. destruct pre as [|x pre]; simpl in Hs.
        { subst suf. apply match_confidence_at_iff in Hm. congruence. }
        injection Hs as -> ->. by apply (Hno pre suf run).
      * intros Hno pre suf run Hs. apply (Hno (String c pre) suf run).
        simpl. by rewrite Hs.
Qed.

Lemma first_confidence_match_some (s run : string) :
  first_confidence_match s = Some run ↔ leftmost_confidence s run.
Proof.
  unfold leftmost_confidence. revert run. induction s as [|c s IH]; intros run.
  - simpl. split; [done|]. intros (pre & suf & Hs & Hm & _).
    destruct pre; [|done]. simpl in Hs. subst suf.
    apply match_confidence_at_iff in Hm. done.
  - cbn [first_confidence_match].
    destruct (match_confidence_at (String c s)) as [run0|] eqn:Hat.
    + split.
      * intros [= <-]. exists "", (String c s).
        split; [done|]. split; [by apply match_confidence_at_iff|].
        intros pre' suf' run' _ Hlt. simpl in Hlt. lia.
      * intros (pre & suf & Hs & Hm & Hleft).
        destruct pre as [|x pre]; simpl in Hs.
        { subst suf. apply match_confidence_at_iff in Hm. congruence. }
        exfalso. apply (Hleft "" (String c s) run0); [done | simpl; lia |].
        by apply match_confidence_at_iff.
    + rewrite IH. split.
      * intros (pre & suf & -> & Hm & Hleft).
        exists (String c pre), suf. split; [done|]. split; [done|].
        intros pre' suf' run' Hs Hlt.
        destruct pre' as [|x pre']; simpl in Hs.
        { subst suf'. intros Hm'. apply match_confidence_at_iff in Hm'.
          congruence. }
        injection Hs as -> Hs. apply (Hleft pre' suf' run' Hs).
        simpl in Hlt. lia.
      * intros (pre & suf & Hs & Hm & Hleft).
        destruct pre as [|x pre]; simpl in Hs.
        { subst suf. apply match_confidence_at_iff in Hm. congruence. }
        injection Hs as -> ->. exists pre, suf.
        split; [done|]. split; [done|].
        intros pre' suf' run' Hs' Hlt.
        apply (Hleft (String x pre') suf' run').
        -- simpl. by rewrite Hs'.
        -- simpl. lia.
Qed.

Lemma split_from_cons (pat : string) (skip : nat) (cur s : string) :
  ∃ piece pieces, PyStr.split_from pat skip cur s = piece :: pieces.
Proof.
  revert skip cur. induction s as [|c s IH]; intros skip cur;
    cbn [PyStr.split_from]; [eauto|].
  destruct skip as [|k]; [|apply IH].
  destruct (String.prefix pat (String c s)); [eauto | apply IH].
Qed.

Lemma split_of_contained (pat s cur : string) :
  pat ≠ "" → PyStr.contains pat s = true →
  (2 ≤ length (PyStr.split_from pat 0 cur s))%nat.
Proof.
  intros Hpat. revert cur. induction s as [|c s IH]; intros cur.
  - destruct pat; done.
  - cbn [PyStr.contains PyStr.split_from].
    destruct (String.prefix pat (String c s)) eqn:Hp.
    + intros _.
      destruct (split_from_cons pat (String.length pat - 1) "" s)
        as (piece & pieces & ->). simpl. lia.
    + simpl. apply IH.
Qed.

Lemma extract_description_ok (text : string) :
  trend_guard_agrees text → ∃ d, extract_description text = Ok d.
Proof.
  intros Hguard. unfold extract_description.
  destruct (PyStr.contains "trend" (PyStr.lower text)) eqn:Hlow; [|eauto].
  specialize (Hguard Hlow).
  pose proof (split_of_contained "trend" text "" ltac:(done) Hguard) as Hlen.
  unfold PyStr.split, item.
  destruct (PyStr.split_from "trend" 0 "" text) as [|first [|after rest]];
    simpl in Hlen; [lia | lia |].
  simpl. unfold PyStr.split.
  destruct (split_from_cons nl 0 "" after) as (piece & pieces & ->).
  simpl. eauto.
Qed.

Lemma clamp_bounds (q : Q) : (0 <= py_min 1 (py_max 0 q) <= 1)%Q.
Proof.
  unfold py_min, py_max.
  destruct (Qltb 0 q) eqn:H0.
  - apply Qltb_lt in H0. destruct (Qltb q 1) eqn:H1.
    + apply Qltb_lt in H1. lra.
    + lra.
  - change (Qltb 0 1) with true. cbv iota. lra.
Qed.

Lemma clamp_clamped (q : Q) : clamped q (py_min 1 (py_max 0 q)).
Proof.
  unfold clamped, py_min, py_max.
  destruct (Qltb 0 q) eqn:H0.
  - apply Qltb_lt in H0. destruct (Qltb q 1) eqn:H1.
    + apply Qltb_lt in H1. repeat split; intros; lra.
    + apply Qltb_ge in H1. repeat split; intros; lra.
  - apply Qltb_ge in H0. change (Qltb 0 1) with true. cbv iota.
    repeat split; intros; lra.
Qed.

(** C8, as amended.  Keyword-mode parsing returns for every text, with
    a confidence between 0 and 1: what its [try] block built, or the
    default result when that block raised.  Where the pattern matches,
    the digits and dots after the leftmost match are converted: if they
    are a decimal number, the confidence is that number brought into the
    interval from 0 to 1, and if they are not (two dots, a dot alone, a
    dot that ends a sentence) the result is the default one, with
    confidence 0.5.  Where the pattern matches nowhere the confidence is
    0.7.  The two statements about a confidence read from the text are for
    texts on which the guard and the split of the trend description
    agree. *)
Theorem keyword_confidence (text : string) :
  let r := _parse_ai_response text in
  let lowered := PyStr.lower text in
  ((∃ insights, parse_ai_response_body text = Ok insights ∧ r = insights)
   ∨ (∃ e, parse_ai_response_body text = Raise e ∧ r = parse_error_result))
  ∧ (0 <= ai_confidence r <= 1)%Q
  ∧ (∀ run,
       leftmost_confidence lowered run →
       match py_float run with
       | Ok q => trend_guard_agrees text → clamped q (ai_confidence r)
       | Raise _ => r = parse_error_result ∧ ai_confidence r = 5 # 10
       end)
  ∧ (no_confidence lowered → trend_guard_agrees text →
     ai_confidence r = 7 # 10).
Proof.
  intros r lowered. subst r. unfold _parse_ai_response.
  split; [|split; [|split]].
  - destruct (parse_ai_response_body text) as [i|e]; eauto.
  - unfold parse_ai_response_body.
    destruct (extract_confidence text) as [q|e]; simpl; [|lra].
    destruct (extract_description text) as [d|e]; simpl; [|lra].
    apply clamp_bounds.
  - intros run Hleft. apply first_confidence_match_some in Hleft.
    unfold parse_ai_response_body, extract_confidence. fold lowered.
    rewrite Hleft. destruct (py_float run) as [q|e]; simpl; [|done].
    intros Hguard.
    destruct (extract_description_ok text Hguard) as [d ->]. simpl.
    apply clamp_clamped.
  - intros Hno Hguard. apply first_confidence_match_none in Hno.
    unfold parse_ai_response_body, extract_confidence. fold lowered.
    rewrite Hno. simpl.
    destruct (extract_description_ok text Hguard) as [d ->]. done.
Qed.

End ParserProperties.

Section ParserExamples.
Import Analytics AnalyticsNotions.

Example py_float_examples :
  py_float "0.85" = Ok (85 / 100)%Q
  ∧ py_float "5" = Ok 5%Q
  ∧ py_float "." = Raise (ValueError ".")
  ∧ py_float "1.2.3" = Raise (ValueError "1.2.3")
  ∧ py_float "0.8." = Raise (ValueError "0.8.").
Proof. repeat split; reflexivity. Qed.

(** C8 as stated fails: the text holds the token and the number 0.8
    after it, closed by the full stop of the sentence; the pattern takes
    the full stop into the number, the conversion raises, and the
    confidence returned is 0.5: neither 0.8 nor the 0.7 of a text without
    the token. *)
Lemma confidence_lost_to_full_stop :
  let text := "Severity is high. Confidence: 0.8. Keep watching." in
  first_confidence_match (PyStr.lower text) = Some "0.8."
  ∧ _parse_ai_response text = parse_error_result
  ∧ ai_confidence (_parse_ai_response text) = 5 # 10
  ∧ ¬ (ai_confidence (_parse_ai_response text) == 8 # 10)%Q
  ∧ ¬ (ai_confidence (_parse_ai_response text) == 7 # 10)%Q.
Proof. repeat split; try reflexivity; by vm_compute. Qed.

(** A text on which the guard of the trend description and the split
    disagree: the word is there with a capital only, the split finds
    nothing, and the default result replaces the confidence read. *)
Example capitalised_trend_gives_default :
  let text := "Confidence: 0.9" +:+ nl +:+ "Trend: rising" in
  extract_confidence text = Ok (9 / 10)%Q
  ∧ extract_description text = Raise IndexError
  ∧ _parse_ai_response text = parse_error_result.
Proof. repeat split; reflexivity. Qed.

(** A text with a confidence and a trend in lower case. *)
Lemma keyword_confidence_witness :
  let text := "Severity is high. Confidence: 0.85" +:+ nl
              +:+ "The trend is rising" in
  leftmost_confidence (PyStr.lower text) "0.85"
  ∧ trend_guard_agrees text
  ∧ clamped (85 / 100) (ai_confidence (_parse_ai_response text))
  ∧ ai_severity (_parse_ai_response text) = high
  ∧ description (ai_trends (_parse_ai_response text)) = "is rising".
Proof.
  intros text.
  assert (leftmost_confidence (PyStr.lower text) "0.85") as Hleft
    by (apply first_confidence_match_some; reflexivity).
  assert (trend_guard_agrees text) as Hguard by (intros _; reflexivity).
  destruct (keyword_confidence text) as (_ & _ & Hsome & _).
  specialize (Hsome "0.85" Hleft). simpl in Hsome.
  split; [exact Hleft|]. split; [exact Hguard|].
  split; [exact (Hsome Hguard)|]. split; reflexivity.
Defined.

End ParserExamples.

(** * Properties of the trend forecast *)

Section ForecastProperties.
Context `{NumFormat} `{Analytics.ForecastFormat} `{Json}.
Import Analytics AnalyticsNotions.
Local Arguments append : simpl nomatch.

Lemma length_append (a b : string) :
  String.length (a +:+ b) = (String.length a + String.length b)%nat.
Proof. induction a as [|c a IH]; simpl; [done | by rewrite IH]. Qed.

Lemma take_append (a b : string) : PyStr.take (String.length a) (a +:+ b) = a.
Proof. induction a as [|c a IH]; simpl; [by destruct b | by rewrite IH]. Qed.

Lemma prefix_char (c : ascii) (s : string) :
  String.prefix (String c "") s
  = match s with
    | String a _ => Ascii.eqb c a
    | EmptyString => false
    end.
Proof.
  destruct s as [|a s]; [done|]. simpl.
  destruct (ascii_dec c a) as [->|Hne].
  - rewrite Ascii.eqb_refl. by destruct s.
  - symmetry. by apply Ascii.eqb_neq.
Qed.

Lemma find_none_contains (pat s : string) :
  PyStr.find pat s = None ↔ PyStr.contains pat s = false.
Proof.
  induction s as [|a s IH]; cbn [PyStr.find PyStr.contains].
  - destruct (String.prefix pat ""); [done|]. done.
  - destruct (String.prefix pat (String a s)); [done|]. simpl.
    rewrite <- IH. destruct (PyStr.find pat s); done.
Qed.

(** The first occurrence of a character is where the text before it has
    none. *)
Lemma find_first_char (c : ascii) (pre rest : string) :
  PyStr.contains (String c "") pre = false →
  PyStr.find (String c "") (pre +:+ String c rest) = Some (String.length pre).
Proof.
  induction pre as [|a pre IH]; intros Hpre.
  - change (PyStr.find (String c "") (String c rest) = Some 0%nat).
    cbn [PyStr.find]. by rewrite prefix_char, Ascii.eqb_refl.
  - cbn [PyStr.contains] in Hpre. apply orb_false_iff in Hpre as [Ha Hpre].
    rewrite prefix_char in Ha.
    change (PyStr.find (String c "") (String a (pre +:+ String c rest))
            = Some (S (String.length pre))).
    cbn [PyStr.find]. by rewrite prefix_char, Ha, (IH Hpre).
Qed.

Lemma rfind_none_contains (c : ascii) (s : string) :
  PyStr.rfind_char c s = None ↔ PyStr.contains (String c "") s = false.
Proof.
  induction s as [|a s IH]; cbn [PyStr.rfind_char PyStr.contains].
  - done.
  - rewrite prefix_char, orb_false_iff, <- IH, (Ascii.eqb_sym c a).
    destruct (PyStr.rfind_char c s); [split; [done | by intros [_ ?]]|].
    destruct (Ascii.eqb a c); [split; [done | by intros [? _]] | done].
Qed.

(** The last occurrence of a character is where the text after it has
    none. *)
Lemma rfind_last_char (c : ascii) (pre post : string) :
  PyStr.contains (String c "") post = false →
  PyStr.rfind_char c (pre +:+ String c post) = Some (String.length pre).
Proof.
  intros Hpost. apply rfind_none_contains in Hpost.
  induction pre as [|a pre IH]; simpl.
  - by rewrite Hpost, Ascii.eqb_refl.
  - by rewrite IH.
Qed.

Lemma slice_middle (pre mid post : string) :
  PyStr.slice (pre +:+ mid +:+ post) (String.length pre)
              (String.length pre + String.length mid) = mid.
Proof.
  unfold PyStr.slice.
  replace (String.length pre + String.length mid - String.length pre)%nat
    with (String.length mid) by lia.
  rewrite drop_append. apply take_append.
Qed.

Lemma dict_get_set_same (k : string) (v : JValue) (d : Dict) :
  dict_get k (dict_set k v d) = Some v.
Proof.
  induction d as [|[k' v'] d IH]; simpl.
  - by rewrite String.eqb_refl.
  - destruct (String.eqb k' k) eqn:Hk; simpl.
    + by rewrite String.eqb_refl.
    + by rewrite Hk.
Qed.

Lemma dict_get_set_other (k k' : string) (v : JValue) (d : Dict) :
  k ≠ k' → dict_get k' (dict_set k v d) = dict_get k' d.
Proof.
  intros Hne. induction d as [|[k0 v0] d IH]; simpl.
  - apply String.eqb_neq in Hne. by rewrite Hne.
  - destruct (String.eqb k0 k) eqn:Hk; simpl.
    + apply String.eqb_eq in Hk as ->.
      apply String.eqb_neq in Hne. by rewrite Hne.
    + by rewrite IH.
Qed.

Lemma extract_without_open (text : string) reports area now :
  PyStr.contains "{" text = false →
  extract_forecast text reports area now
  = Ok (_generate_mock_trends reports area now).
Proof.
  intros Hno. apply find_none_contains in Hno.
  unfold extract_forecast, find_Z. by rewrite Hno.
Qed.

Lemma extract_without_close (text : string) reports area now :
  PyStr.contains "}" text = false →
  extract_forecast text reports area now
  = Ok (_generate_mock_trends reports area now).
Proof.
  intros Hno. apply rfind_none_contains in Hno.
  unfold extract_forecast, rfind_Z. rewrite Hno.
  destruct (negb (find_Z "{" text =? -1)); [|done].
  change (-1 + 1) with 0. cbn [andb negb Z.eqb].
  assert (slice_Z text (find_Z "{" text) 0 = "") as ->.
  { unfold slice_Z, PyStr.slice. change (Z.to_nat 0) with 0%nat.
    rewrite Nat.sub_0_l.
    by destruct (PyStr.drop (Z.to_nat (find_Z "{" text)) text). }
  destruct loads_empty as [msg ->]. done.
Qed.

Lemma extract_block (pre body post : string) reports area now :
  PyStr.contains "{" pre = false →
  PyStr.contains "}" post = false →
  extract_forecast (pre +:+ "{" +:+ body +:+ "}" +:+ post) reports area now
  = match loads ("{" +:+ body +:+ "}") with
    | Ok (JDict trend_data) =>
        Ok (dict_update trend_data (forecast_metadata reports area now))
    | Ok _ => Raise (AttributeError "update")
    | Raise (JSONDecodeError _) => Ok (_generate_mock_trends reports area now)
    | Raise e => Raise e
    end.
Proof.
  intros Hpre Hpost.
  set (text := pre +:+ "{" +:+ body +:+ "}" +:+ post).
  assert (find_Z "{" text = Z.of_nat (String.length pre)) as Hfind.
  { unfold find_Z, text.
    change (pre +:+ "{" +:+ body +:+ "}" +:+ post)
      with (pre +:+ String "{" (body +:+ String "}" post)).
    by rewrite (find_first_char "{" pre _ Hpre). }
  assert (rfind_Z "}" text
          = Z.of_nat (String.length (pre +:+ "{" +:+ body))) as Hrfind.
  { unfold rfind_Z, text.
    replace (pre +:+ "{" +:+ body +:+ "}" +:+ post)
      with ((pre +:+ "{" +:+ body) +:+ String "}" post)
      by (by rewrite !append_assoc).
    by rewrite (rfind_last_char "}" _ post Hpost). }
  unfold extract_forecast. rewrite Hfind, Hrfind.
  assert (negb (Z.of_nat (String.length pre) =? -1)
          && negb (Z.of_nat (String.length (pre +:+ "{" +:+ body)) + 1 =? -1)
          = true) as ->.
  { apply andb_true_intro; split; apply negb_true_iff, Z.eqb_neq; lia. }
  assert (slice_Z text (Z.of_nat (String.length pre))
            (Z.of_nat (String.length (pre +:+ "{" +:+ body)) + 1)
          = "{" +:+ body +:+ "}") as ->; [|done].
  unfold text.
  unfold slice_Z. rewrite Nat2Z.id.
  replace (Z.to_nat (Z.of_nat (String.length (pre +:+ "{" +:+ body)) + 1))
    with (String.length pre + String.length ("{" +:+ body +:+ "}"))%nat.
  - replace (pre +:+ "{" +:+ body +:+ "}" +:+ post)
      with (pre +:+ ("{" +:+ body +:+ "}") +:+ post)
      by (by rewrite !append_assoc).
    apply slice_middle.
  - rewrite !length_append. simpl. lia.
Qed.

(** The statements of [dict.update] with the metadata of a forecast. *)
Lemma update_metadata_lookup (trend_data : Dict) reports area now :
  let r := dict_update trend_data (forecast_metadata reports area now) in
  dict_get "generated_at" r = Some (JStr (isoformat now))
  ∧ dict_get "area_name" r = Some (JStr area)
  ∧ dict_get "data_points" r = Some (JInt (Z.of_nat (length reports)))
  ∧ dict_get "model" r = Some (JStr "gemini-1.5-flash")
  ∧ ∀ k, k ∉ ["generated_at"; "area_name"; "data_points"; "model"] →
         dict_get k r = dict_get k trend_data.
Proof.
  unfold dict_update, forecast_metadata. cbn [foldl fst snd].
  repeat split.
  - rewrite !dict_get_set_other by done. apply dict_get_set_same.
  - rewrite !dict_get_set_other by done. apply dict_get_set_same.
  - rewrite !dict_get_set_other by done. apply dict_get_set_same.
  - apply dict_get_set_same.
  - intros k Hk. rewrite !not_elem_of_cons in Hk.
    destruct Hk as (Hk1 & Hk2 & Hk3 & Hk4 & _).
    rewrite !dict_get_set_other by done. done.
Qed.

(** [text[i:j]] is empty when the end does not lie after the start. *)
Lemma slice_Z_empty (text : string) (i j : Z) :
  j ≤ i → slice_Z text i j = "".
Proof.
  intros Hle. unfold slice_Z, PyStr.slice.
  replace (Z.to_nat j - Z.to_nat i)%nat with 0%nat by lia.
  by destruct (PyStr.drop (Z.to_nat i) text).
Qed.

(** [rfind] is at least [-1], so that the second test of line 401 never
    fails: what decides is the first brace and the parsing. *)
Lemma extract_forecast_slice (text : string) reports area now :
  extract_forecast text reports area now
  = if find_Z "{" text =? -1
    then Ok (_generate_mock_trends reports area now)
    else match loads (slice_Z text (find_Z "{" text)
                              (rfind_Z "}" text + 1)) with
         | Ok (JDict trend_data) =>
             Ok (dict_update trend_data (forecast_metadata reports area now))
         | Ok _ => Raise (AttributeError "update")
         | Raise (JSONDecodeError _) =>
             Ok (_generate_mock_trends reports area now)
         | Raise e => Raise e
         end.
Proof.
  unfold extract_forecast.
  assert ((rfind_Z "}" text + 1 =? -1) = false) as ->.
  { apply Z.eqb_neq. unfold rfind_Z.
    destruct (PyStr.rfind_char "}" text); lia. }
  by destruct (find_Z "{" text =? -1).
Qed.

(** The text between the first opening and the last closing brace. *)
Lemma block_slice (pre body post : string) :
  PyStr.contains "{" pre = false →
  PyStr.contains "}" post = false →
  let text := pre +:+ "{" +:+ body +:+ "}" +:+ post in
  find_Z "{" text = Z.of_nat (String.length pre)
  ∧ slice_Z text (find_Z "{" text) (rfind_Z "}" text + 1)
    = "{" +:+ body +:+ "}".
Proof.
  intros Hpre Hpost text.
  assert (find_Z "{" text = Z.of_nat (String.length pre)) as Hfind.
  { unfold find_Z, text.
    change (pre +:+ "{" +:+ body +:+ "}" +:+ post)
      with (pre +:+ String "{" (body +:+ String "}" post)).
    by rewrite (find_first_char "{" pre _ Hpre). }
  assert (rfind_Z "}" text
          = Z.of_nat (String.length (pre +:+ "{" +:+ body))) as Hrfind.
  { unfold rfind_Z, text.
    replace (pre +:+ "{" +:+ body +:+ "}" +:+ post)
      with ((pre +:+ "{" +:+ body) +:+ String "}" post)
      by (by rewrite !append_assoc).
    by rewrite (rfind_last_char "}" _ post Hpost). }
  split; [exact Hfind|]. rewrite Hfind, Hrfind.
  unfold text, slice_Z. rewrite Nat2Z.id.
  replace (Z.to_nat (Z.of_nat (String.length (pre +:+ "{" +:+ body)) + 1))
    with (String.length pre + String.length ("{" +:+ body +:+ "}"))%nat.
  - replace (pre +:+ "{" +:+ body +:+ "}" +:+ post)
      with (pre +:+ ("{" +:+ body +:+ "}") +:+ post)
      by (by rewrite !append_assoc).
    apply slice_middle.
  - rewrite !length_append. simpl. lia.
Qed.

(** C7.  On every response text of the model, the JSON-block flow parses
    the text from the first opening brace to the last closing brace,
    [text[json_start:json_end]].  Without an opening brace, when that
    slice is empty (no closing brace, or none after the first opening
    one) and whenever the parsing does not give an object, it returns the
    mock result and raises nothing.  When the parsing gives an object, it
    returns that object with the metadata merged in: the time of
    generation, the area name, the number of reports and the name of the
    model.  For a text with a block between its first opening and its
    last closing brace, the slice is that block. *)
Theorem forecast_json_block (self : PredictiveAnalytics)
    (generate_content : GenerativeModel) (reports : list Report)
    (area_name : string) (now : Z) (text : string) :
  model self = Some generate_content →
  generate_content (forecast_prompt reports area_name now) = Ok text →
  let mock := _generate_mock_trends reports area_name now in
  let r := generate_trend_forecast self reports area_name now in
  let json_start := find_Z "{" text in
  let json_end := rfind_Z "}" text + 1 in
  let json_str := slice_Z text json_start json_end in
  (PyStr.contains "{" text = false ∨ PyStr.contains "}" text = false →
   r = mock)
  ∧ (json_start = -1 ∨ json_end ≤ json_start → r = mock)
  ∧ (json_start ≠ -1 →
     match loads json_str with
     | Ok (JDict trend_data) =>
         r = dict_update trend_data
               (forecast_metadata reports area_name now)
         ∧ dict_get "generated_at" r = Some (JStr (isoformat now))
         ∧ dict_get "area_name" r = Some (JStr area_name)
         ∧ dict_get "data_points" r
           = Some (JInt (Z.of_nat (length reports)))
         ∧ dict_get "model" r = Some (JStr "gemini-1.5-flash")
         ∧ ∀ k, k ∉ ["generated_at"; "area_name"; "data_points"; "model"] →
                dict_get k r = dict_get k trend_data
     | _ => r = mock
     end)
  ∧ (∀ pre body post,
       text = pre +:+ "{" +:+ body +:+ "}" +:+ post →
       PyStr.contains "{" pre = false →
       PyStr.contains "}" post = false →
       json_str = "{" +:+ body +:+ "}"
       ∧ match loads ("{" +:+ body +:+ "}") with
         | Ok (JDict trend_data) =>
             r = dict_update trend_data
                   (forecast_metadata reports area_name now)
             ∧ dict_get "generated_at" r = Some (JStr (isoformat now))
             ∧ dict_get "area_name" r = Some (JStr area_name)
             ∧ dict_get "data_points" r
               = Some (JInt (Z.of_nat (length reports)))
             ∧ dict_get "model" r = Some (JStr "gemini-1.5-flash")
             ∧ ∀ k, k ∉ ["generated_at"; "area_name"; "data_points";
                         "model"] →
                    dict_get k r = dict_get k trend_data
         | _ => r = mock
         end).
Proof.
  intros Hmodel Hgen mock r json_start json_end json_str.
  assert (r = if String.eqb text "" then mock
              else match extract_forecast text reports area_name now with
                   | Ok trend_data => trend_data
                   | Raise _ => mock
                   end) as Hr.
  { subst r mock. unfold generate_trend_forecast, forecast_body.
    rewrite Hmodel, Hgen. cbn [exc_bind].
    by destruct (String.eqb text ""). }
  assert (json_start = -1 → r = mock) as Hnone.
  { intros Hs. rewrite Hr. destruct (String.eqb text ""); [done|].
    rewrite extract_forecast_slice. fold json_start. by rewrite Hs. }
  assert (json_start ≠ -1 →
          match loads json_str with
          | Ok (JDict trend_data) =>
              r = dict_update trend_data
                    (forecast_metadata reports area_name now)
              ∧ dict_get "generated_at" r = Some (JStr (isoformat now))
              ∧ dict_get "area_name" r = Some (JStr area_name)
              ∧ dict_get "data_points" r
                = Some (JInt (Z.of_nat (length reports)))
              ∧ dict_get "model" r = Some (JStr "gemini-1.5-flash")
              ∧ ∀ k, k ∉ ["generated_at"; "area_name"; "data_points";
                          "model"] →
                     dict_get k r = dict_get k trend_data
          | _ => r = mock
          end) as Hsome.
  { intros Hs.
    assert (String.eqb text "" = false) as Hne.
    { apply String.eqb_neq. intros ->. by apply Hs. }
    rewrite Hne, extract_forecast_slice in Hr.
    fold json_start json_end json_str in Hr.
    apply Z.eqb_neq in Hs. rewrite Hs in Hr.
    destruct (loads json_str) as [[]|[]]; try done.
    split; [done|]. rewrite Hr. apply update_metadata_lookup. }
  assert (json_end ≤ json_start → r = mock) as Hempty.
  { intros Hle. destruct (decide (json_start = -1)) as [Hs|Hs];
      [by apply Hnone|].
    specialize (Hsome Hs). unfold json_str in Hsome.
    rewrite slice_Z_empty in Hsome by done.
    destruct loads_empty as [msg Hmsg]. by rewrite Hmsg in Hsome. }
  split; [|split; [|split]].
  - intros [Hno | Hno].
    + apply Hnone. apply find_none_contains in Hno.
      unfold json_start, find_Z. by rewrite Hno.
    + apply rfind_none_contains in Hno.
      destruct (decide (json_start = -1)) as [Hs|Hs]; [by apply Hnone|].
      apply Hempty. unfold json_end, rfind_Z. rewrite Hno.
      unfold json_start, find_Z in *.
      destruct (PyStr.find "{" text); lia.
  - intros [Hs | Hle]; [by apply Hnone | by apply Hempty].
  - exact Hsome.
  - intros pre body post Htext Hpre Hpost.
    destruct (block_slice pre body post Hpre Hpost) as [Hfind Hslice].
    rewrite <- Htext in Hfind, Hslice.
    fold json_start in Hfind. fold json_start json_end json_str in Hslice.
    split; [exact Hslice|]. rewrite <- Hslice. apply Hsome.
    rewrite Hfind. lia.
Qed.

End ForecastProperties.

Section ForecastExamples.
Import Analytics AnalyticsNotions.
Local Existing Instance Demo.thousandths.
Local Existing Instance Demo.plain_forecast_format.
Local Existing Instance Demo.empty_object_only.

(** A model that wraps an empty object in prose: the object is found,
    parsed and returned with the metadata. *)
Lemma forecast_json_block_witness :
  let text := "Here is the forecast: {} Hope it helps." in
  let self := Demo.answering text in
  let r := generate_trend_forecast self [Demo.report_at 1 1 0] "Ward 7" 50 in
  model self = Some (λ _, Ok text)
  ∧ r = dict_update [] (forecast_metadata [Demo.report_at 1 1 0] "Ward 7" 50)
  ∧ dict_get "model" r = Some (JStr "gemini-1.5-flash")
  ∧ dict_get "data_points" r = Some (JInt 1).
Proof.
  intros text self r.
  destruct (forecast_json_block self (λ _, Ok text) [Demo.report_at 1 1 0]
              "Ward 7" 50 text eq_refl eq_refl) as (_ & _ & _ & Hblock).
  destruct (Hblock "Here is the forecast: " "" " Hope it helps."
              eq_refl eq_refl eq_refl) as [_ Hparsed].
  simpl in Hparsed. destruct Hparsed as (Hr & _ & _ & Hdp & Hm & _).
  split; [reflexivity|]. split; [exact Hr|]. split; [exact Hm | exact Hdp].
Defined.

(** Prose without braces, an opening brace alone, a closing brace before
    the only opening one and a block that is not JSON give the mock
    result. *)
Example forecast_mock_cases :
  let mock := _generate_mock_trends [] "Ward 7" 50 in
  generate_trend_forecast (Demo.answering "no forecast today") [] "Ward 7" 50
  = mock
  ∧ generate_trend_forecast (Demo.answering "{ unfinished") [] "Ward 7" 50
    = mock
  ∧ generate_trend_forecast (Demo.answering "done } next {") [] "Ward 7" 50
    = mock
  ∧ slice_Z "done } next {" (find_Z "{" "done } next {")
            (rfind_Z "}" "done } next {" + 1) = ""
  ∧ generate_trend_forecast (Demo.answering "{not json}") [] "Ward 7" 50
    = mock
  ∧ generate_trend_forecast Demo.disabled [] "Ward 7" 50 = mock
  ∧ dict_get "model" mock = Some (JStr "mock-fallback").
Proof. repeat split; reflexivity. Qed.

End ForecastExamples.

(** * Properties of the hotspot clusterer *)

Section Counting.
Import Analytics AnalyticsNotions.

Lemma count_of_le_length (l : Z) (labels : list Z) :
  (count_of l labels ≤ length labels)%nat.
Proof. apply length_filter. Qed.

Lemma count_of_cons (l x : Z) (labels : list Z) :
  count_of l (x :: labels)
  = ((if decide (x = l) then 1 else 0) + count_of l labels)%nat.
Proof.
  unfold count_of. destruct (decide (x = l)).
  - by rewrite filter_cons_True.
  - by rewrite filter_cons_False.
Qed.

Lemma count_of_insert_unlabelled (labels : list Z) (i : nat) (c : Z) :
  labels !! i = Some (-1) → c ≠ -1 →
  (count_of (-1) (<[i := c]> labels) + 1 = count_of (-1) labels)%nat.
Proof.
  revert i. induction labels as [|x labels IH]; intros i Hi Hc; [done|].
  destruct i as [|i]; simpl in *.
  - injection Hi as ->. rewrite !count_of_cons.
    rewrite decide_False by done. rewrite decide_True by done. lia.
  - rewrite !count_of_cons. rewrite <- (IH i Hi Hc). lia.
Qed.

(** The positions that carry a label, each once. *)
Lemma positions_of (c : Z) (labels : list Z) :
  ∃ idx : list nat,
    NoDup idx ∧ (∀ j, j ∈ idx ↔ labels !! j = Some c)
    ∧ length idx = count_of c labels.
Proof.
  induction labels as [|x labels (idx & Hnd & Hin & Hlen)].
  - exists []. split; [constructor|]. split; [|done].
    intros j. rewrite elem_of_nil. done.
  - exists ((if decide (x = c) then [0%nat] else []) ++ (S <$> idx))%list.
    split; [|split].
    + apply NoDup_app. split; [|split].
      * destruct (decide (x = c)); [apply NoDup_singleton | constructor].
      * intros j Hj Hj'. apply list_elem_of_fmap in Hj' as (j' & -> & _).
        destruct (decide (x = c)); [|by apply elem_of_nil in Hj].
        by apply list_elem_of_singleton in Hj.
      * apply NoDup_fmap; [|done]. intros a b. lia.
    + intros j. rewrite elem_of_app, list_elem_of_fmap. split.
      * intros [Hj | (j' & -> & Hj')].
        -- destruct (decide (x = c)) as [->|]; [|by apply elem_of_nil in Hj].
           by apply list_elem_of_singleton in Hj as ->.
        -- simpl. by apply Hin.
      * destruct j as [|j]; simpl.
        -- intros [= ->]. left. rewrite decide_True by done.
           by apply list_elem_of_singleton.
        -- intros Hj. right. exists j. split; [done|]. by apply Hin.
    + rewrite length_app, length_fmap, Hlen, count_of_cons.
      by destruct (decide (x = c)).
Qed.

Lemma count_of_covers (c : Z) (labels : list Z) (vs : list nat) :
  NoDup vs → (∀ v, v ∈ vs → labels !! v = Some c) →
  (length vs ≤ count_of c labels)%nat.
Proof.
  intros Hnd Hall. destruct (positions_of c labels) as (idx & _ & Hin & <-).
  apply submseteq_length, NoDup_submseteq; [done|].
  intros v Hv. by apply Hin, Hall.
Qed.

Lemma extends_refl (c : Z) (labels : list Z) : extends c labels labels.
Proof. intros v. by left. Qed.

Lemma extends_trans (c : Z) (l1 l2 l3 : list Z) :
  c ≠ -1 → extends c l1 l2 → extends c l2 l3 → extends c l1 l3.
Proof.
  intros Hc H12 H23 v.
  destruct (H12 v) as [E12 | [E1 E2]], (H23 v) as [E23 | [E2' E3]].
  - left. congruence.
  - right. split; congruence.
  - right. split; congruence.
  - congruence.
Qed.

Lemma extends_insert (c : Z) (labels : list Z) (i : nat) :
  labels !! i = Some (-1) → extends c labels (<[i := c]> labels).
Proof.
  intros Hi v. destruct (decide (v = i)) as [->|Hne].
  - right. split; [done|]. apply list_lookup_insert_eq.
    by eapply lookup_lt_Some.
  - left. by apply list_lookup_insert_ne.
Qed.

Lemma extends_count (c l : Z) (labels labels' : list Z) :
  l ≠ -1 → extends c labels labels' → length labels = length labels' →
  (count_of l labels ≤ count_of l labels')%nat.
Proof.
  intros Hl. revert labels'.
  induction labels as [|x labels IH]; intros [|x' labels'] Hext Hlen;
    simpl in Hlen; try done.
  rewrite !count_of_cons.
  assert (count_of l labels ≤ count_of l labels')%nat as Hrest.
  { apply IH; [|lia]. intros v. apply (Hext (S v)). }
  destruct (Hext 0%nat) as [E | [E1 E2]]; simpl in *.
  - injection E as ->. lia.
  - injection E1 as ->. rewrite (decide_False (P := -1 = l)) by done. lia.
Qed.

End Counting.

Section Expansion.
Import Analytics AnalyticsNotions.
Context (min_samples : nat) (nbhs : list (list nat)) (n : nat).
Hypothesis Hsize : ∀ i, (length (neighb nbhs i) ≤ n)%nat.

Lemma unlabelled_true (labels : list Z) (v : nat) :
  unlabelled labels v = true ↔ labels !! v = Some (-1).
Proof. apply bool_decide_eq_true. Qed.

Lemma unlabelled_false (labels : list Z) (v : nat) :
  unlabelled labels v = false ↔ labels !! v ≠ Some (-1).
Proof. apply bool_decide_eq_false. Qed.

(** One search, with fuel for all its steps: the labels are extended by
    the label [c] only, the neighbours of every labelled core sample end
    up labelled, and every new label is supported. *)
Lemma expand_invariant (c : Z) (fuel : nat) :
  c ≠ -1 →
  ∀ stack labels,
    (search_measure n stack labels ≤ fuel)%nat →
    length labels = n →
    closed_up_to min_samples nbhs c stack labels →
    supported min_samples nbhs labels →
    stack_supported min_samples nbhs c stack labels →
    let labels' := expand min_samples fuel nbhs c stack labels in
    length labels' = n
    ∧ extends c labels labels'
    ∧ closed_up_to min_samples nbhs c [] labels'
    ∧ supported min_samples nbhs labels'.
Proof.
  intros Hc. induction fuel as [|fuel IH];
    intros stack labels Hfuel Hlen Hclosed Hsupp Hstack.
  - assert (stack = []) as ->.
    { unfold search_measure in Hfuel. destruct stack; [done | simpl in *; lia]. }
    simpl. split; [done|]. split; [apply extends_refl | done].
  - destruct stack as [|i stack].
    { simpl. split; [done|]. split; [apply extends_refl | done]. }
    cbn [expand]. destruct (unlabelled labels i) eqn:Hi.
    + (* the sample gets the label *)
      apply unlabelled_true in Hi.
      assert (i < n)%nat as Hin by (rewrite <- Hlen; by eapply lookup_lt_Some).
      set (labels1 := <[i := c]> labels).
      assert (length labels1 = n) as Hlen1
        by (unfold labels1; by rewrite length_insert).
      assert (labels1 !! i = Some c) as Hi1
        by (unfold labels1; apply list_lookup_insert_eq; lia).
      assert (∀ v, v ≠ i → labels1 !! v = labels !! v) as Hother
        by (intros v Hv; unfold labels1; by apply list_lookup_insert_ne).
      assert (∀ v, labels !! v ≠ Some (-1) → labels1 !! v ≠ Some (-1))
        as Hkeep.
      { intros v Hv. destruct (decide (v = i)) as [->|Hne]; [congruence|].
        by rewrite Hother. }
      assert (count_of (-1) labels1 + 1 = count_of (-1) labels)%nat as Hcount
        by (by apply count_of_insert_unlabelled).
      assert (supported min_samples nbhs labels1) as Hsupp1.
      { intros v l Hv Hl. destruct (decide (v = i)) as [->|Hne].
        - assert (l = c) as -> by congruence.
          destruct (Hstack i) as [Hcore | (u & Hu & Hul & Hiu)];
            [apply list_elem_of_here | by left |].
          right. exists u. split; [done|]. split; [|done].
          rewrite Hother; [done|]. intros ->. congruence.
        - rewrite Hother in Hv by done.
          destruct (Hsupp v l Hv Hl) as [Hcore | (u & Hu & Hul & Hvu)];
            [by left|].
          right. exists u. split; [done|]. split; [|done].
          rewrite Hother; [done|]. intros ->. congruence. }
      destruct (is_core min_samples nbhs i) eqn:Hcore.
      * set (pushed := filter (λ v, unlabelled labels1 v = true)
                              (neighb nbhs i)).
        assert (length pushed ≤ n)%nat as Hpushed
          by (etrans; [apply length_filter | apply Hsize]).
        destruct (IH (reverse pushed ++ stack)%list labels1) as (H1 & H2 & H3 & H4).
        -- unfold search_measure in *.
           rewrite length_app, length_reverse. simpl in Hfuel. nia.
        -- done.
        -- intros u v l Hu Hl Hcu Hv.
           destruct (decide (u = i)) as [->|Hne].
           ++ assert (l = c) as -> by congruence.
              destruct (unlabelled labels1 v) eqn:Hv1.
              ** right. split; [done|].
                 apply elem_of_app. left. apply elem_of_reverse.
                 by apply list_elem_of_filter.
              ** left. by apply unlabelled_false.
           ++ rewrite Hother in Hu by done.
              destruct (Hclosed u v l Hu Hl Hcu Hv) as [Hlab | [-> Hst]].
              ** left. by apply Hkeep.
              ** apply elem_of_cons in Hst as [-> | Hst].
                 --- left. congruence.
                 --- right. split; [done|]. apply elem_of_app. by right.
        -- done.
        -- intros v Hv. apply elem_of_app in Hv as [Hv | Hv].
           ++ apply elem_of_reverse, list_elem_of_filter in Hv as [_ Hv].
              right. by exists i.
           ++ destruct (Hstack v) as [Hcv | (u & Hu & Hul & Hvu)];
                [by apply list_elem_of_further | by left |].
              right. exists u. split; [done|]. split; [|done].
              rewrite Hother; [done|]. intros ->. congruence.
        -- split; [done|]. split; [|done].
           eapply extends_trans; [done | by apply extends_insert | done].
      * destruct (IH stack labels1) as (H1 & H2 & H3 & H4).
        -- unfold search_measure in *. simpl in Hfuel. nia.
        -- done.
        -- intros u v l Hu Hl Hcu Hv.
           destruct (decide (u = i)) as [->|Hne]; [congruence|].
           rewrite Hother in Hu by done.
           destruct (Hclosed u v l Hu Hl Hcu Hv) as [Hlab | [-> Hst]].
           ++ left. by apply Hkeep.
           ++ apply elem_of_cons in Hst as [-> | Hst].
              ** left. congruence.
              ** by right.
        -- done.
        -- intros v Hv.
           destruct (Hstack v) as [Hcv | (u & Hu & Hul & Hvu)];
             [by apply list_elem_of_further | by left |].
           right. exists u. split; [done|]. split; [|done].
           rewrite Hother; [done|]. intros ->. congruence.
        -- split; [done|]. split; [|done].
           eapply extends_trans; [done | by apply extends_insert | done].
    + (* the sample has a label already *)
      apply unlabelled_false in Hi.
      apply IH; try done.
      * unfold search_measure in *. simpl in Hfuel. lia.
      * intros u v l Hu Hl Hcu Hv.
        destruct (Hclosed u v l Hu Hl Hcu Hv) as [Hlab | [-> Hst]];
          [by left|].
        apply elem_of_cons in Hst as [-> | Hst]; [by left | by right].
      * intros v Hv. apply Hstack. by apply list_elem_of_further.
Qed.

(** More fuel than the measure of a search does not change its result:
    the search ends with an empty stack, not for want of fuel. *)
Lemma expand_fuel_enough (c : Z) (fuel : nat) :
  c ≠ -1 →
  ∀ stack labels k,
    (search_measure n stack labels ≤ fuel)%nat →
    expand min_samples (fuel + k) nbhs c stack labels
    = expand min_samples fuel nbhs c stack labels.
Proof.
  intros Hc. induction fuel as [|fuel IH]; intros stack labels k Hfuel.
  - assert (stack = []) as ->.
    { unfold search_measure in Hfuel. destruct stack; [done | simpl in *; lia]. }
    by destruct k.
  - destruct stack as [|i stack]; [done|].
    cbn [expand Nat.add]. destruct (unlabelled labels i) eqn:Hi.
    + apply unlabelled_true in Hi.
      pose proof (count_of_insert_unlabelled labels i c Hi Hc) as Hcount.
      destruct (is_core min_samples nbhs i).
      * apply IH. unfold search_measure in *.
        rewrite length_app, length_reverse. simpl in Hfuel.
        assert (length (filter (λ v, unlabelled (<[i:=c]> labels) v = true)
                               (neighb nbhs i)) ≤ n)%nat
          by (etrans; [apply length_filter | apply Hsize]).
        nia.
      * apply IH. unfold search_measure in *. simpl in Hfuel. nia.
    + apply IH. unfold search_measure in *. simpl in Hfuel. lia.
Qed.

End Expansion.

Section Clusters.
Import Analytics AnalyticsNotions.
Context (min_samples : nat) (nbhs : list (list nat)) (n : nat).
Hypothesis Hvalid : ∀ i v, v ∈ neighb nbhs i → (v < n)%nat.
Hypothesis Hrefl : ∀ i, (i < n)%nat → i ∈ neighb nbhs i.
Hypothesis Hsym : ∀ i v, v ∈ neighb nbhs i → i ∈ neighb nbhs v.
Hypothesis Hnodup : ∀ i, NoDup (neighb nbhs i).
Hypothesis Hsize : ∀ i, (length (neighb nbhs i) ≤ n)%nat.
Hypothesis Hmin : (min_samples ≤ 3)%nat.

(** Between two searches, an unlabelled core sample has unlabelled
    neighbours only: a labelled neighbour would be a core sample, whose
    search would have reached the sample, or a border sample with three
    samples in its neighbourhood. *)
Lemma core_neighbours_unlabelled (c : Z) (labels : list Z) (i : nat) :
  clustered min_samples nbhs n c labels →
  labels !! i = Some (-1) →
  ∀ v, v ∈ neighb nbhs i → labels !! v = Some (-1).
Proof.
  intros Hcl Hi v Hv.
  assert (v < n)%nat as Hvn by (by eapply Hvalid).
  destruct (labels !! v) as [l|] eqn:Hl; cycle 1.
  { apply lookup_ge_None in Hl. rewrite (cl_length _ _ _ _ _ Hcl) in Hl. lia. }
  destruct (decide (l = -1)) as [->|Hne]; [done|]. exfalso.
  assert (is_core min_samples nbhs v = true) as Hcore.
  { destruct (cl_supported _ _ _ _ _ Hcl v l Hl Hne)
      as [Hcore | (u & Hu & Hul & Hvu)]; [done|].
    apply bool_decide_eq_true. etrans; [exact Hmin|].
    assert (NoDup [v; i; u]) as Hnd.
    { apply NoDup_cons. split.
      - rewrite !not_elem_of_cons. split; [|split]; [| |apply not_elem_of_nil].
        + intros ->. congruence.
        + intros ->.
          destruct (cl_closed _ _ _ _ _ Hcl u i l Hul Hne Hu)
            as [Hlab | [_ Hst]]; [by apply Hsym | done |].
          by apply elem_of_nil in Hst.
      - apply NoDup_cons. split; [|apply NoDup_singleton].
        rewrite list_elem_of_singleton. intros ->. congruence. }
    change 3%nat with (length [v; i; u]).
    apply submseteq_length, NoDup_submseteq; [done|].
    intros x Hx. rewrite !elem_of_cons in Hx.
    destruct Hx as [-> | [-> | [-> | Hx]]].
    - by apply Hrefl.
    - by apply Hsym.
    - by apply Hsym.
    - by apply elem_of_nil in Hx. }
  destruct (cl_closed _ _ _ _ _ Hcl v i l Hl Hne Hcore) as [Hlab | [_ Hst]];
    [by apply Hsym | done |].
  by apply elem_of_nil in Hst.
Qed.

(** A search started from an unlabelled core sample completes the next
    cluster. *)
Lemma expand_clustered (c : Z) (labels : list Z) (i : nat) (fuel : nat) :
  (n * (n + 1) + 1 ≤ fuel)%nat →
  clustered min_samples nbhs n c labels →
  labels !! i = Some (-1) →
  is_core min_samples nbhs i = true →
  clustered min_samples nbhs n (c + 1)
            (expand min_samples fuel nbhs c [i] labels).
Proof.
  intros Hfuel Hcl Hi Hcore.
  pose proof (cl_length _ _ _ _ _ Hcl) as Hlen.
  pose proof (cl_next _ _ _ _ _ Hcl) as Hc.
  assert (c ≠ -1) as Hc1 by lia.
  destruct (expand_invariant min_samples nbhs n Hsize c fuel Hc1 [i] labels)
    as (Hlen' & Hext & Hclosed' & Hsupp').
  - unfold search_measure. simpl.
    pose proof (count_of_le_length (-1) labels). nia.
  - done.
  - intros u v l Hu Hl Hcu Hv. left.
    destruct (cl_closed _ _ _ _ _ Hcl u v l Hu Hl Hcu Hv) as [?|[_ Hst]];
      [done | by apply elem_of_nil in Hst].
  - apply (cl_supported _ _ _ _ _ Hcl).
  - intros v Hv. apply list_elem_of_singleton in Hv as ->. by left.
  - set (labels' := expand min_samples fuel nbhs c [i] labels) in *.
    assert (labels' !! i = Some c) as Hi'.
    { assert (labels' = expand min_samples (fuel - 1) nbhs c
                          (reverse (filter (λ v, unlabelled (<[i:=c]> labels) v
                                                 = true) (neighb nbhs i))
                           ++ [])%list (<[i:=c]> labels)) as Hstep.
      { unfold labels'. destruct fuel as [|fuel]; [lia|].
        cbn [expand]. replace (S fuel - 1)%nat with fuel by lia.
        assert (unlabelled labels i = true) as -> by (by apply bool_decide_eq_true).
        by rewrite Hcore. }
      assert (<[i:=c]> labels !! i = Some c) as Hins
        by (apply list_lookup_insert_eq; rewrite Hlen;
            rewrite <- Hlen; by eapply lookup_lt_Some).
      destruct (expand_invariant min_samples nbhs n Hsize c (fuel - 1) Hc1
                  (reverse (filter (λ v, unlabelled (<[i:=c]> labels) v = true)
                                   (neighb nbhs i)) ++ [])%list
                  (<[i:=c]> labels)) as (_ & Hext1 & _).
      - unfold search_measure. rewrite length_app, length_reverse. simpl.
        pose proof (count_of_insert_unlabelled labels i c Hi Hc1).
        pose proof (count_of_le_length (-1) labels).
        assert (length (filter (λ v, unlabelled (<[i:=c]> labels) v = true)
                               (neighb nbhs i)) ≤ n)%nat
          by (etrans; [apply length_filter | apply Hsize]).
        nia.
      - by rewrite length_insert.
      - intros u v l Hu Hl Hcu Hv.
        destruct (decide (u = i)) as [->|Hne].
        + assert (l = c) as -> by congruence.
          destruct (unlabelled (<[i:=c]> labels) v) eqn:Hv1.
          * right. split; [done|]. apply elem_of_app. left.
            apply elem_of_reverse. by apply list_elem_of_filter.
          * left. by apply unlabelled_false.
        + rewrite list_lookup_insert_ne in Hu by done.
          destruct (cl_closed _ _ _ _ _ Hcl u v l Hu Hl Hcu Hv) as [Hlab|[_ Hst]];
            [|by apply elem_of_nil in Hst].
          left. destruct (decide (v = i)) as [->|Hvi]; [congruence|].
          by rewrite list_lookup_insert_ne.
      - intros v l Hv Hl. destruct (decide (v = i)) as [->|Hne]; [by left|].
        rewrite list_lookup_insert_ne in Hv by done.
        destruct (cl_supported _ _ _ _ _ Hcl v l Hv Hl)
          as [?|(u & Hu & Hul & Hvu)]; [by left|].
        right. exists u. split; [done|]. split; [|done].
        rewrite list_lookup_insert_ne; [done|]. intros ->. congruence.
      - intros v Hv. apply elem_of_app in Hv as [Hv|Hv];
          [|by apply elem_of_nil in Hv].
        apply elem_of_reverse, list_elem_of_filter in Hv as [_ Hv].
        right. by exists i.
      - rewrite Hstep. destruct (Hext1 i) as [-> | [E _]]; [done|congruence]. }
    split.
    + done.
    + lia.
    + intros v l Hv. destruct (Hext v) as [E | [_ E]].
      * rewrite E in Hv.
        destruct (cl_range _ _ _ _ _ Hcl v l Hv) as [?|?]; [by left | right; lia].
      * right. assert (l = c) by congruence. lia.
    + intros u v l Hu Hl Hcu Hv. left.
      destruct (Hclosed' u v l Hu Hl Hcu Hv) as [?|[_ Hst]];
        [done | by apply elem_of_nil in Hst].
    + done.
    + intros l Hl0 Hl1. destruct (decide (l = c)) as [->|Hne].
      * assert (min_samples ≤ length (neighb nbhs i))%nat as Hbig
          by (by apply bool_decide_eq_true in Hcore).
        etrans; [exact Hbig|]. apply count_of_covers; [apply Hnodup|].
        intros v Hv.
        pose proof (core_neighbours_unlabelled c labels i Hcl Hi v Hv) as Hv0.
        destruct (Hext v) as [E | [_ E]]; [|done].
        destruct (Hclosed' i v c Hi' Hc1 Hcore Hv) as [Hlab | [_ Hst]];
          [congruence | by apply elem_of_nil in Hst].
      * etrans; [apply (cl_sizes _ _ _ _ _ Hcl l); lia|].
        apply (extends_count c); [lia | done | congruence].
Qed.

Lemma dbscan_inner_clustered (fuel : nat) (todo : list nat) :
  (n * (n + 1) + 1 ≤ fuel)%nat →
  ∀ c labels,
    clustered min_samples nbhs n c labels →
    ∃ c', clustered min_samples nbhs n c'
            (dbscan_inner min_samples fuel nbhs todo c labels).
Proof.
  intros Hfuel. induction todo as [|i todo IH]; intros c labels Hcl.
  - by exists c.
  - cbn [dbscan_inner].
    destruct (unlabelled labels i && is_core min_samples nbhs i) eqn:Hgo.
    + apply andb_prop in Hgo as [Hi Hcore].
      apply bool_decide_eq_true in Hi.
      apply IH. by apply expand_clustered.
    + by apply IH.
Qed.

Lemma clustered_start : clustered min_samples nbhs n 0 (replicate n (-1)).
Proof.
  assert (∀ v l, replicate n (-1) !! v = Some l → l = -1) as Hall
    by (intros v l Hv; by apply lookup_replicate in Hv as [-> _]).
  split.
  - apply length_replicate.
  - done.
  - intros v l Hv. left. by eapply Hall.
  - intros u v l Hu Hl. by apply Hall in Hu.
  - intros v l Hv Hl. by apply Hall in Hv.
  - intros l ??. lia.
Qed.

(** Every cluster of the final labelling has at least [min_samples]
    members. *)
Lemma clustered_sizes (c : Z) (labels : list Z) (l : Z) :
  clustered min_samples nbhs n c labels →
  l ∈ labels → l ≠ -1 → (min_samples ≤ count_of l labels)%nat.
Proof.
  intros Hcl Hl Hne. apply list_elem_of_lookup in Hl as [v Hv].
  destruct (cl_range _ _ _ _ _ Hcl v l Hv) as [?|[? ?]]; [done|].
  by apply (cl_sizes _ _ _ _ _ Hcl).
Qed.

End Clusters.

Section Neighbourhoods.
Import Analytics AnalyticsNotions.
Context {P : Type} (near : P → P → bool).
Hypothesis near_refl : ∀ p, near p p = true.
Hypothesis near_sym : ∀ p q, near p q = near q p.

Lemma elem_of_indices_where (f : P → bool) (X : list P) (k v : nat) :
  v ∈ indices_where f X k
  ↔ (k ≤ v)%nat ∧ ∃ q, X !! (v - k)%nat = Some q ∧ f q = true.
Proof.
  revert k. induction X as [|x X IH]; intros k; simpl.
  - rewrite elem_of_nil. split; [done|]. by intros (_ & q & ? & _).
  - assert (v ∈ indices_where f X (S k)
            ↔ (k < v)%nat ∧ ∃ q, (x :: X) !! (v - k)%nat = Some q ∧ f q = true)
      as Htail.
    { rewrite IH. split.
      - intros (Hk & q & Hq & Hf). split; [lia|]. exists q. split; [|done].
        replace (v - k)%nat with (S (v - S k)) by lia. done.
      - intros (Hk & q & Hq & Hf). split; [lia|]. exists q. split; [|done].
        replace (v - k)%nat with (S (v - S k)) in Hq by lia. done. }
    destruct (f x) eqn:Hx.
    + rewrite elem_of_cons, Htail. split.
      * intros [-> | (Hk & Hq)]; [|split; [lia | done]].
        split; [lia|]. exists x. by rewrite Nat.sub_diag.
      * intros (Hk & q & Hq & Hf).
        destruct (decide (v = k)) as [->|Hne]; [by left|].
        right. split; [lia|]. by exists q.
    + rewrite Htail. split.
      * intros (Hk & Hq). split; [lia | done].
      * intros (Hk & q & Hq & Hf).
        destruct (decide (v = k)) as [->|Hne].
        -- rewrite Nat.sub_diag in Hq. simpl in Hq. congruence.
        -- split; [lia|]. by exists q.
Qed.

Lemma NoDup_indices_where (f : P → bool) (X : list P) (k : nat) :
  NoDup (indices_where f X k).
Proof.
  revert k. induction X as [|x X IH]; intros k; simpl; [constructor|].
  destruct (f x); [|apply IH].
  apply NoDup_cons. split; [|apply IH].
  rewrite elem_of_indices_where. lia.
Qed.

Lemma length_indices_where (f : P → bool) (X : list P) (k : nat) :
  (length (indices_where f X k) ≤ length X)%nat.
Proof.
  revert k. induction X as [|x X IH]; intros k; simpl; [done|].
  destruct (f x); simpl; [apply le_n_S|apply Nat.le_le_succ_r]; apply IH.
Qed.

Lemma neighb_neighborhoods (X : list P) (i : nat) :
  neighb (neighborhoods near X) i
  = match X !! i with
    | Some p => indices_where (near p) X 0
    | None => []
    end.
Proof.
  unfold neighb, neighborhoods. rewrite list_lookup_fmap.
  by destruct (X !! i).
Qed.

Lemma elem_of_neighb (X : list P) (i v : nat) :
  v ∈ neighb (neighborhoods near X) i
  ↔ ∃ p q, X !! i = Some p ∧ X !! v = Some q ∧ near p q = true.
Proof.
  rewrite neighb_neighborhoods. destruct (X !! i) as [p|].
  - rewrite elem_of_indices_where, Nat.sub_0_r. split.
    + intros (_ & q & Hq & Hn). by exists p, q.
    + intros (p' & q & [= <-] & Hq & Hn). split; [lia|]. by exists q.
  - rewrite elem_of_nil. split; [done|]. by intros (p & q & ? & _).
Qed.

(** The labelling of DBSCAN with at most three samples asked of a core
    sample: every sample has a label, and every cluster has at least
    [min_samples] members. *)
Lemma dbscan_clusters (min_samples : nat) (X : list P) :
  (min_samples ≤ 3)%nat →
  let labels := dbscan near min_samples X in
  length labels = length X
  ∧ ∀ l, l ∈ labels → l ≠ -1 → (min_samples ≤ count_of l labels)%nat.
Proof.
  intros Hmin labels. subst labels. unfold dbscan.
  set (n := length X). set (nbhs := neighborhoods near X).
  destruct (dbscan_inner_clustered min_samples nbhs n) with
    (fuel := (n * (n + 1) + 1)%nat) (todo := seq 0 n) (c := 0)
    (labels := replicate n (-1)) as [c' Hcl].
  - intros i v Hv. apply elem_of_neighb in Hv as (p & q & _ & Hq & _).
    by eapply lookup_lt_Some.
  - intros i Hi. apply elem_of_neighb.
    destruct (lookup_lt_is_Some_2 X i Hi) as [p Hp]. by exists p, p.
  - intros i v Hv. apply elem_of_neighb in Hv as (p & q & Hp & Hq & Hn).
    apply elem_of_neighb. exists q, p. by rewrite near_sym.
  - intros i. unfold nbhs. rewrite neighb_neighborhoods.
    destruct (X !! i); [apply NoDup_indices_where | constructor].
  - intros i. unfold nbhs. rewrite neighb_neighborhoods.
    destruct (X !! i); [apply length_indices_where | simpl; lia].
  - done.
  - lia.
  - by apply clustered_start.
  - split; [apply (cl_length _ _ _ _ _ Hcl)|].
    intros l. by apply (clustered_sizes min_samples nbhs n c').
Qed.

End Neighbourhoods.

Section Hotspots.
Import Analytics AnalyticsNotions.

Lemma Qle_bool_ext (a b a' b' : Q) :
  (a == a')%Q → (b == b')%Q → Qle_bool a b = Qle_bool a' b'.
Proof.
  intros Ha Hb. apply eq_true_iff_eq. rewrite !Qle_bool_iff.
  by rewrite Ha, Hb.
Qed.

Lemma euclid_near_refl (eps : Q) (p : Q * Q) : euclid_near eps p p = true.
Proof.
  unfold euclid_near. cbv zeta. apply Qle_bool_iff.
  assert ((p.1 - p.1) * (p.1 - p.1) + (p.2 - p.2) * (p.2 - p.2) == 0)%Q
    as -> by ring.
  unfold Qle, Qmult. simpl. nia.
Qed.

Lemma euclid_near_sym (eps : Q) (p q : Q * Q) :
  euclid_near eps p q = euclid_near eps q p.
Proof.
  unfold euclid_near. cbv zeta. apply Qle_bool_ext; [ring | reflexivity].
Qed.

Lemma cluster_points_length (coords : list (Q * Q)) (labels : list Z) (c : Z) :
  length coords = length labels →
  length (cluster_points coords labels c) = count_of c labels.
Proof.
  unfold cluster_points, count_of. rewrite length_fmap.
  revert labels. induction coords as [|p coords IH]; intros [|l labels] Hlen;
    simpl in Hlen; try done.
  cbn [zip zip_with].
  destruct (decide (l = c)) as [->|Hne].
  - rewrite !filter_cons_True by done. simpl. f_equal. apply IH. lia.
  - rewrite !filter_cons_False by done. apply IH. lia.
Qed.



End Hotspots.

Section HotspotClaims.
Import Analytics AnalyticsNotions.


End HotspotClaims.

Section HotspotExamples.
Import Analytics AnalyticsNotions.


(** Three reports within a few metres and one a kilometre away: one
    hotspot of three members, the fourth report is noise. *)
Example one_hotspot :
  let df := [Demo.row_at 1 1 0; Demo.row_at (10001 # 10000) 1 0;
             Demo.row_at 1 (10001 # 10000) 0; Demo.row_at (101 # 100) 1 0] in
  dbscan (euclid_near ((1 # 10) / 111)) 3
         ((λ r, (latitude r, longitude r)) <$> df) = [0; 0; 0; -1]
  ∧ count <$> _identify_hotspots df (1 # 10) = [3%nat]
  ∧ Forall (λ h, (intensity h == 3 # 10)%Q) (_identify_hotspots df (1 # 10)).
Proof.
  split; [reflexivity|]. split; [reflexivity|].
  repeat constructor.
Qed.

(** No report and one report give no hotspot. *)
Example no_hotspot :
  _identify_hotspots [] (1 # 10) = []
  ∧ _identify_hotspots [Demo.row_at 1 1 0] (1 # 10) = [].
Proof. split; reflexivity. Qed.

End HotspotExamples.

(** * Further properties of the SMS service *)

Section MoreSMS.
Context `{NumFormat}.
Import SMS SMSNotions MoreNotions.
Local Arguments append : simpl nomatch.

Lemma younger_younger (now now' : Z) (l : list Z) :
  now ≤ now' → younger now' (younger now l) = younger now' l.
Proof.
  intros Hle. unfold younger. induction l as [|t l IH]; [done|].
  destruct (decide (now - one_day < t)) as [Ht|Ht].
  - rewrite (filter_cons_True (λ x, now - one_day < x)) by done.
    destruct (decide (now' - one_day < t)).
    + rewrite !(filter_cons_True (λ x, now' - one_day < x)) by done.
      by rewrite IH.
    + rewrite !(filter_cons_False (λ x, now' - one_day < x)) by done.
      exact IH.
  - rewrite (filter_cons_False (λ x, now - one_day < x)) by done.
    rewrite (filter_cons_False (λ x, now' - one_day < x)) by lia.
    exact IH.
Qed.

(** A check after a check answers as if the first had not been made. *)
Lemma check_after_check (self : SMSService) (k0 k : string) (now now' : Z) :
  now ≤ now' →
  (_can_send_alert (_can_send_alert self k0 now).2 k now').1
  = (_can_send_alert self k now').1
  ∧ ledger_at (_can_send_alert (_can_send_alert self k0 now).2 k now').2 k
    = ledger_at (_can_send_alert self k now').2 k.
Proof.
  intros Hle. rewrite !can_send_answer, !can_send_service.
  rewrite !ledger_at_set_same.
  destruct (decide (k0 = k)) as [->|Hne].
  - rewrite !ledger_at_set_same, younger_younger by done. done.
  - rewrite !ledger_at_set_other by done. done.
Qed.

(** X1.  Pruning is not seen by later checks, and a call that fails does
    not use up the allowance: after a rate-limit check, and after a call
    of [send_high_priority_alert] that returned [False], a check at the
    same or a later time gives the answer, and leaves the entry, that it
    would have given and left without that check or call. *)
Theorem failed_call_keeps_later_answers (self : SMSService)
    (nums : list string) (loc : LocationData) (cnt now now_sent : Z)
    (gw : Gateway) (k0 k : string) (now' : Z) :
  now ≤ now' →
  let out := send_high_priority_alert self nums loc cnt now now_sent gw in
  ((_can_send_alert (_can_send_alert self k0 now).2 k now').1
   = (_can_send_alert self k now').1
   ∧ ledger_at (_can_send_alert (_can_send_alert self k0 now).2 k now').2 k
     = ledger_at (_can_send_alert self k now').2 k)
  ∧ ((result out).1 = false →
     (_can_send_alert (service out) k now').1
     = (_can_send_alert self k now').1
     ∧ ledger_at (_can_send_alert (service out) k now').2 k
       = ledger_at (_can_send_alert self k now').2 k).
Proof.
  intros Hle out. split; [by apply check_after_check|].
  intros Hfail.
  destruct (reaches_gateway self nums loc now) eqn:Hr.
  - destruct (send_reaching self nums loc cnt now now_sent gw Hr)
      as (_ & Hres & Hsvc). fold out in Hres, Hsvc.
    rewrite Hfail in Hres. rewrite <- Hres in Hsvc. rewrite Hsvc.
    by apply check_after_check.
  - destruct (send_not_reaching self nums loc cnt now now_sent gw Hr)
      as (_ & _ & [Hsvc | Hsvc]); fold out in Hsvc; rewrite Hsvc.
    + done.
    + by apply check_after_check.
Qed.

(** X2.  For an enabled service and a list of numbers that is not empty,
    the call is refused with the daily-limit message exactly when the
    timestamps of the key younger than 24 hours have reached
    [max_alerts_per_day], whatever that limit is; then nothing is posted.
    After a successful call the key holds at most [max_alerts_per_day]
    timestamps. *)
Theorem daily_limit_iff_recent_sends (self : SMSService)
    (nums : list string) (loc : LocationData) (cnt now now_sent : Z)
    (gw : Gateway) :
  is_enabled self = true → nums ≠ [] →
  let k := location_key_of loc in
  let out := send_high_priority_alert self nums loc cnt now now_sent gw in
  (result out = (false, "Daily alert limit reached for this location")
   ↔ (max_alerts_per_day self ≤ length (younger now (ledger_at self k)))%nat)
  ∧ ((max_alerts_per_day self ≤ length (younger now (ledger_at self k)))%nat
     → posted out = [])
  ∧ ((result out).1 = true →
     (length (ledger_at (service out) k) ≤ max_alerts_per_day self)%nat).
Proof.
  intros Hen Hnums k out.
  pose proof (can_send_answer self k now) as Hans.
  assert (∀ text, (false, "Daily alert limit reached for this location")
                  ≠ (false, "SMS API error: " +:+ text)) as Hapi by done.
  assert (∀ text, (false, "Daily alert limit reached for this location")
                  ≠ (false, "SMS service error: " +:+ text)) as Hsvc by done.
  assert (∀ e, (false, "Daily alert limit reached for this location")
               ≠ (false, alert_error_text e)) as Herr by (by intros []).
  subst out. unfold send_high_priority_alert. cbv zeta. fold k.
  rewrite Hen. destruct nums as [|n nums]; [done|]. cbn [negb].
  destruct (_can_send_alert self k now) as [allowed self1] eqn:Hc.
  assert (self1 = set_ledger self k (younger now (ledger_at self k))) as Hs
    by (rewrite <- can_send_service; by rewrite Hc).
  cbn [fst] in Hans.
  destruct allowed; cbn [negb].
  - symmetry in Hans. apply bool_decide_eq_true in Hans.
    assert (∀ r : Sent, result r ≠ (false,
              "Daily alert limit reached for this location") →
              (result r = (false, "Daily alert limit reached for this location")
               ↔ (max_alerts_per_day self
                  ≤ length (younger now (ledger_at self k)))%nat)) as Hno.
    { intros r Hr. split; [done | lia]. }
    destruct (filter _ _) as [|c cs] eqn:Hf.
    { split; [by apply Hno|]. split; [lia | done]. }
    destruct (gw _) as [e|status body].
    { split; [apply Hno; simpl; by intros ?%symmetry%Herr|].
      split; [lia | done]. }
    destruct (status =? 200).
    + destruct body as [body|e].
      * destruct (default false (eq_True <$> json_return body)).
        -- split; [by apply Hno|]. split; [lia|]. intros _. cbn [service].
           rewrite ledger_at_set_same, Hs, ledger_at_set_same.
           rewrite length_app. simpl. lia.
        -- split; [apply Hno; simpl; by intros ?%symmetry%Hapi|].
           split; [lia | done].
      * split; [apply Hno; simpl; by intros ?%symmetry%Herr|].
        split; [lia | done].
    + split; [apply Hno; simpl; by intros ?%symmetry%Hsvc|].
      split; [lia | done].
  - symmetry in Hans. apply bool_decide_eq_false in Hans.
    cbn [result posted]. split; [split; [lia | done]|]. split; done.
Qed.

Lemma valid_number_ten_digits (s : string) :
  valid_number s = true ↔ ten_digits s.
Proof.
  unfold valid_number, ten_digits, PyStr.isdigit.
  rewrite andb_true_iff, Nat.eqb_eq. split.
  - intros [Hl Hd]. split; [done|]. by destruct s.
  - intros [Hl Hd]. split; [done|]. by destruct s.
Qed.

Lemma remove_keeps_digits (pat : string) (c0 : ascii) (s : string) :
  PyStr.isdigit_char c0 = false →
  PyStr.all_chars PyStr.isdigit_char s = true →
  PyStr.remove (String c0 pat) s = s.
Proof.
  intros Hc0. unfold PyStr.remove. induction s as [|a s IH]; [done|].
  intros Hs. cbn [PyStr.all_chars] in Hs. apply andb_prop in Hs as [Ha Hs].
  cbn [PyStr.remove_from].
  assert (String.prefix (String c0 pat) (String a s) = false) as ->.
  { simpl. destruct (ascii_dec c0 a) as [->|]; [congruence | done]. }
  by rewrite IH.
Qed.

(** Removing a character leaves none of it, and brings in no other. *)
Lemma remove_char_gone (c : ascii) (s : string) :
  PyStr.contains (String c "") (PyStr.remove (String c "") s) = false.
Proof.
  unfold PyStr.remove. induction s as [|a s IH]; [done|].
  cbn [PyStr.remove_from]. rewrite prefix_char.
  destruct (Ascii.eqb c a) eqn:E; [exact IH|].
  cbn [PyStr.contains]. by rewrite prefix_char, E, IH.
Qed.

Lemma remove_char_keeps_free (c d : ascii) (s : string) :
  PyStr.contains (String d "") s = false →
  PyStr.contains (String d "") (PyStr.remove (String c "") s) = false.
Proof.
  unfold PyStr.remove. induction s as [|a s IH]; [done|].
  cbn [PyStr.contains]. rewrite prefix_char.
  intros [Hd Hs]%orb_false_iff.
  cbn [PyStr.remove_from]. rewrite prefix_char.
  destruct (Ascii.eqb c a); [by apply IH|].
  cbn [PyStr.contains]. by rewrite prefix_char, Hd, IH.
Qed.

(** X3.  The normalisation leaves no blank and no hyphen in a number,
    and it changes nothing in a number that passes the validation: what
    the service accepts is a fixed point of its normalisation. *)
Theorem clean_fixes_valid_numbers (number : string) :
  PyStr.contains " " (clean number) = false
  ∧ PyStr.contains "-" (clean number) = false
  ∧ (valid_number number = true →
     clean number = number ∧ valid_number (clean number) = true).
Proof.
  split; [|split].
  - unfold clean. apply remove_char_keeps_free, remove_char_gone.
  - unfold clean. apply remove_char_gone.
  - intros Hv. pose proof Hv as Hten.
    apply valid_number_ten_digits in Hten. destruct Hten as [Hl Hd].
    assert (clean number = number) as Hc.
    { unfold clean.
      rewrite (remove_keeps_digits "91" "+" number) by done.
      rewrite (remove_keeps_digits "" " " number) by done.
      by rewrite (remove_keeps_digits "" "-" number). }
    split; [done | by rewrite Hc].
Qed.

Lemma rev_string_app (acc s : string) :
  PyStr.rev_string acc s = PyStr.rev_string "" s +:+ acc.
Proof.
  revert acc. induction s as [|c s IH]; intros acc; [done|].
  cbn [PyStr.rev_string]. rewrite (IH (String c acc)), (IH (String c "")).
  by rewrite append_assoc.
Qed.

Lemma split_comma_free (cur x : string) :
  comma_free x →
  PyStr.split_from "," 0 cur x = [PyStr.rev_string "" cur +:+ x].
Proof.
  unfold comma_free. revert cur. induction x as [|c x IH]; intros cur Hx.
  - cbn [PyStr.split_from]. by rewrite append_nil_r.
  - cbn [PyStr.contains] in Hx. apply orb_false_iff in Hx as [Hc Hx].
    cbn [PyStr.split_from]. rewrite Hc, (IH _ Hx).
    cbn [PyStr.rev_string]. rewrite (rev_string_app (String c "")).
    by rewrite append_assoc.
Qed.

Lemma split_comma_cons (cur x rest : string) :
  comma_free x →
  PyStr.split_from "," 0 cur (x +:+ String "," rest)
  = (PyStr.rev_string "" cur +:+ x) :: PyStr.split_from "," 0 "" rest.
Proof.
  unfold comma_free. revert cur. induction x as [|c x IH]; intros cur Hx.
  - change ("" +:+ String "," rest) with (String "," rest).
    cbn [PyStr.split_from]. rewrite prefix_char, Ascii.eqb_refl.
    by rewrite append_nil_r.
  - cbn [PyStr.contains] in Hx. apply orb_false_iff in Hx as [Hc Hx].
    pose proof Hc as Hc'. rewrite prefix_char in Hc'.
    change (String c x +:+ String "," rest)
      with (String c (x +:+ String "," rest)).
    cbn [PyStr.split_from]. rewrite prefix_char, Hc', (IH _ Hx).
    cbn [PyStr.rev_string]. rewrite (rev_string_app (String c "")).
    by rewrite append_assoc.
Qed.

(** Joining with commas and splitting at commas gives the list back. *)
Lemma split_join_comma (l : list string) :
  l ≠ [] → Forall comma_free l → PyStr.split "," (PyStr.join "," l) = l.
Proof.
  intros Hl Hall. unfold PyStr.split.
  induction Hall as [|x l Hx Hall IH]; [done|].
  destruct l as [|y l].
  - cbn [PyStr.join]. by rewrite split_comma_free.
  - change (PyStr.join "," (x :: y :: l))
      with (x +:+ String "," (PyStr.join "," (y :: l))).
    rewrite split_comma_cons by done. by rewrite IH.
Qed.

Lemma digits_comma_free (s : string) :
  PyStr.all_chars PyStr.isdigit_char s = true → comma_free s.
Proof.
  unfold comma_free. induction s as [|c s IH]; [done|].
  cbn [PyStr.all_chars PyStr.contains]. intros [Hc Hs]%andb_prop.
  rewrite prefix_char, (IH Hs), orb_false_r.
  apply Ascii.eqb_neq. intros <-. done.
Qed.

Lemma is_enabled_key (self : SMSService) :
  is_enabled self = true ↔ api_key self ≠ "".
Proof.
  unfold is_enabled. rewrite negb_true_iff. apply String.eqb_neq.
Qed.

(** X4.  Whatever is posted to the gateway is well formed.  A call posts
    at most one request, and only with a credential, which the request
    carries.  The request of an alert lists the numbers left after the
    validation, at least one, each of ten characters that [str.isdigit]
    accepts, joined by commas, so that splitting the field at the commas
    gives those numbers back.  The request of a test carries the given
    message and the normalised number, of ten such characters. *)
Theorem posted_requests_well_formed (self : SMSService)
    (nums : list string) (loc : LocationData) (cnt now now_sent : Z)
    (gw : Gateway) (num msg : string) (p : Payload) :
  let alert := send_high_priority_alert self nums loc cnt now now_sent gw in
  let test := send_test_sms self num msg gw in
  (p ∈ posted alert →
   posted alert = [p]
   ∧ api_key self ≠ "" ∧ authorization p = api_key self
   ∧ route p = "q" ∧ sender_id p = "FXPTHL"
   ∧ valid_numbers nums ≠ []
   ∧ Forall ten_digits (valid_numbers nums)
   ∧ numbers p = PyStr.join "," (valid_numbers nums)
   ∧ PyStr.split "," (numbers p) = valid_numbers nums)
  ∧ (p ∈ posted test →
     posted test = [p]
     ∧ api_key self ≠ "" ∧ authorization p = api_key self
     ∧ route p = "q" ∧ sender_id p = "FXPTHL"
     ∧ message p = msg
     ∧ numbers p = clean num
     ∧ ten_digits (numbers p)).
Proof.
  intros alert test. split.
  - intros Hp. destruct (reaches_gateway self nums loc now) eqn:Hr; cycle 1.
    { destruct (send_not_reaching self nums loc cnt now now_sent gw Hr)
        as (_ & Hposted & _). fold alert in Hposted.
      rewrite Hposted in Hp. by apply elem_of_nil in Hp. }
    destruct (send_reaching self nums loc cnt now now_sent gw Hr)
      as (Hposted & _ & _). fold alert in Hposted.
    rewrite Hposted in Hp. apply list_elem_of_singleton in Hp as ->.
    unfold reaches_gateway in Hr.
    apply andb_prop in Hr as [Hr Hvalid]. apply andb_prop in Hr as [Hr _].
    apply andb_prop in Hr as [Hen _].
    apply bool_decide_eq_true in Hvalid. fold (valid_numbers nums) in Hvalid.
    assert (Forall ten_digits (valid_numbers nums)) as Hten.
    { apply Forall_forall. intros n Hn.
      apply list_elem_of_filter in Hn as [Hn _].
      by apply valid_number_ten_digits. }
    split; [done|]. split; [by apply is_enabled_key|].
    do 5 (split; [done|]). split; [done|].
    cbn [alert_payload numbers]. fold (valid_numbers nums).
    apply split_join_comma; [done|].
    eapply Forall_impl; [exact Hten|]. intros n [_ Hd].
    by apply digits_comma_free.
  - subst test. unfold send_test_sms.
    destruct (is_enabled self) eqn:Hen; cbn [negb];
      [|by intros ?%elem_of_nil].
    destruct (valid_number (clean num)) eqn:Hv; cbn [negb];
      [|by intros ?%elem_of_nil].
    apply is_enabled_key in Hen. apply valid_number_ten_digits in Hv.
    assert (∀ r : Sent,
              posted r = [{| authorization := api_key self; message := msg;
                             numbers := clean num; route := "q";
                             sender_id := "FXPTHL" |}] →
              p ∈ posted r →
              posted r = [p] ∧ api_key self ≠ ""
              ∧ authorization p = api_key self
              ∧ route p = "q" ∧ sender_id p = "FXPTHL" ∧ message p = msg
              ∧ numbers p = clean num ∧ ten_digits (numbers p)) as Hone.
    { intros r Hr Hp. rewrite Hr in Hp.
      apply list_elem_of_singleton in Hp as ->. by rewrite Hr. }
    destruct (gw _) as [e|status body]; [by apply Hone|].
    destruct (status =? 200); [|by apply Hone].
    destruct body as [body|e]; [|by apply Hone].
    destruct (default false (eq_True <$> json_return body)); by apply Hone.
Qed.

End MoreSMS.

Section MoreSMSExamples.
Import SMS SMSNotions MoreNotions.
Local Existing Instance Demo.thousandths.

(** A failed alert leaves a later check as it was. *)
Lemma failed_call_keeps_later_answers_witness :
  let self := service (send_high_priority_alert (init "key")
                         ["+91 98765-43210"] Demo.somewhere 5 0 7
                         Demo.accepting) in
  let k := location_key_of Demo.somewhere in
  let out := send_high_priority_alert self ["12345"] Demo.somewhere 5
               (2 * one_day) (2 * one_day) Demo.accepting in
  2 * one_day ≤ 3 * one_day
  ∧ result out = (false, "No valid phone numbers found")
  ∧ (_can_send_alert (service out) k (3 * one_day)).1
    = (_can_send_alert self k (3 * one_day)).1.
Proof.
  intros self k out.
  assert (2 * one_day ≤ 3 * one_day) as Hle by (vm_compute; discriminate).
  destruct (failed_call_keeps_later_answers self ["12345"] Demo.somewhere 5
              (2 * one_day) (2 * one_day) Demo.accepting k k (3 * one_day)
              Hle) as (_ & Hfail).
  destruct (Hfail eq_refl) as (Hans & _).
  split; [exact Hle|]. split; [reflexivity | exact Hans].
Defined.

(** With a limit of one and a send seven microseconds after midnight, an
    alert a minute later is refused. *)
Lemma daily_limit_iff_recent_sends_witness :
  let self := service (send_high_priority_alert (init "key")
                         ["+91 98765-43210"] Demo.somewhere 5 0 7
                         Demo.accepting) in
  let out := send_high_priority_alert self ["9876543210"] Demo.somewhere 5
               60000000 60000001 Demo.accepting in
  is_enabled self = true
  ∧ ["9876543210"] ≠ []
  ∧ result out = (false, "Daily alert limit reached for this location")
  ∧ posted out = [].
Proof.
  intros self out.
  destruct (daily_limit_iff_recent_sends self ["9876543210"] Demo.somewhere 5
              60000000 60000001 Demo.accepting eq_refl)
    as (Hiff & Hposted & _); [discriminate|].
  assert (max_alerts_per_day self
          ≤ length (younger 60000000
                      (ledger_at self (location_key_of Demo.somewhere))))%nat
    as Hfull by (vm_compute; lia).
  split; [reflexivity|]. split; [discriminate|].
  split; [by apply Hiff | by apply Hposted].
Defined.

Lemma clean_fixes_valid_numbers_witness :
  valid_number "9876543210" = true ∧ clean "9876543210" = "9876543210".
Proof.
  destruct (clean_fixes_valid_numbers "9876543210") as (_ & _ & Hfix).
  destruct (Hfix eq_refl) as [Hc _].
  split; [reflexivity | exact Hc].
Defined.

(** The validation follows [str.isdigit]: a number of ten superscript
    digits passes it, is left as it is and is posted; a number with a
    blank left between the plus sign and the country code keeps them. *)
Example superscript_number_is_posted :
  valid_number Demo.superscript_twos = true
  ∧ clean Demo.superscript_twos = Demo.superscript_twos
  ∧ numbers <$> posted (send_test_sms (init "key") Demo.superscript_twos
                                      "hello" Demo.accepting)
    = [Demo.superscript_twos]
  ∧ clean "+ 91 98765-43210" = "+919876543210".
Proof. repeat split; reflexivity. Qed.

(** Of three numbers given, the two of ten digits are posted. *)
Lemma posted_requests_well_formed_witness :
  let out := send_high_priority_alert (init "key")
               ["+91 98765-43210"; "12345"; "91234 56789"] Demo.somewhere 5
               0 7 Demo.accepting in
  ∃ p, p ∈ posted out
       ∧ numbers p = "9876543210,9123456789"
       ∧ PyStr.split "," (numbers p) = ["9876543210"; "9123456789"].
Proof.
  intros out.
  assert (∃ p, posted out = [p]) as [p Hp] by (eexists; reflexivity).
  assert (p ∈ posted out) as Hin by (rewrite Hp; apply list_elem_of_here).
  destruct (posted_requests_well_formed (init "key")
              ["+91 98765-43210"; "12345"; "91234 56789"] Demo.somewhere 5
              0 7 Demo.accepting "" "" p) as (Halert & _).
  destruct (Halert Hin) as (_ & _ & _ & _ & _ & _ & _ & Hnum & Hsplit).
  exists p. split; [exact Hin|]. split; [exact Hnum | exact Hsplit].
Defined.

End MoreSMSExamples.

(** * Further properties of the geofilter and of the blender *)

Section MoreGeofilter.
Import Analytics AnalyticsNotions MoreNotions.

Lemma no_abort_forall (tlat tlng radius_km : Q) (reports : list Report) :
  existsb (aborts tlat tlng radius_km) reports = false
  ↔ Forall (λ report, aborts tlat tlng radius_km report = false) reports.
Proof.
  induction reports as [|report rest IH]; simpl.
  - split; [constructor | done].
  - rewrite orb_false_iff, IH, Forall_cons. done.
Qed.

Lemma omap_length_le {A B} (f : A → option B) (l : list A) :
  (length (omap f l) ≤ length l)%nat.
Proof.
  induction l as [|x l IH]; [done|]. cbn [omap list_omap].
  destruct (f x); simpl; lia.
Qed.

Lemma geofilter_ok (target : LocationData) (tlat tlng radius_km : Q)
    (reports : list Report) (rows : list ReportData) :
  lat target = Some tlat → lng target = Some tlng →
  _process_historical_data reports target radius_km = Ok rows →
  existsb (aborts tlat tlng radius_km) reports = false
  ∧ rows = omap (row_of tlat tlng radius_km) reports.
Proof.
  intros Hlat Hlng Hok.
  pose proof (process_historical_data_spec target tlat tlng radius_km reports
                Hlat Hlng) as Hspec.
  destruct (existsb (aborts tlat tlng radius_km) reports).
  - destruct Hspec as [e He]. congruence.
  - split; [done | congruence].
Qed.

Lemma row_of_Some (tlat tlng radius_km : Q) (report : Report)
    (row : ReportData) :
  row_of tlat tlng radius_km report = Some row →
  coordinates report = Some (latitude row, longitude row)
  ∧ within_radius (latitude row) (longitude row) tlat tlng radius_km = true
  ∧ severity report = Some (row_severity row)
  ∧ createdAt report = Some (ValidTime (created_at row))
  ∧ verified report = Some (row_verified row)
  ∧ fixingStatus report = Some (fixing_status row)
  ∧ row_type row = default "pothole" (type report).
Proof.
  unfold row_of.
  destruct (coordinates report) as [[a b]|]; [|done].
  destruct (severity report) as [sev|]; [|done].
  destruct (createdAt report) as [[t|txt]|]; try done.
  destruct (verified report) as [ver|]; [|done].
  destruct (fixingStatus report) as [fixing|]; [|done].
  destruct (within_radius a b tlat tlng radius_km) eqn:Hw; [|done].
  by intros [= <-].
Qed.

(** X5.  When the geofilter returns a subset, the subset is sound and
    complete: its rows are those of the reports within the radius, in
    the order of the reports and at most as many; every row carries the
    coordinates, severity, time and status of a report of the input that
    lies within the radius; and every report of the input within the
    radius has its row in the subset. *)
Theorem geofilter_selects_within_radius (target : LocationData)
    (tlat tlng radius_km : Q) (reports : list Report)
    (rows : list ReportData) :
  lat target = Some tlat → lng target = Some tlng →
  _process_historical_data reports target radius_km = Ok rows →
  rows = omap (row_of tlat tlng radius_km) reports
  ∧ (length rows ≤ length reports)%nat
  ∧ (∀ row, row ∈ rows →
       within_radius (latitude row) (longitude row) tlat tlng radius_km = true
       ∧ ∃ report, report ∈ reports
           ∧ coordinates report = Some (latitude row, longitude row)
           ∧ severity report = Some (row_severity row)
           ∧ createdAt report = Some (ValidTime (created_at row))
           ∧ verified report = Some (row_verified row)
           ∧ fixingStatus report = Some (fixing_status row))
  ∧ (∀ report a b, report ∈ reports →
       coordinates report = Some (a, b) →
       within_radius a b tlat tlng radius_km = true →
       ∃ row, row ∈ rows ∧ latitude row = a ∧ longitude row = b
              ∧ severity report = Some (row_severity row)).
Proof.
  intros Hlat Hlng Hok.
  destruct (geofilter_ok target tlat tlng radius_km reports rows Hlat Hlng Hok)
    as [Hno ->].
  split; [done|]. split; [apply omap_length_le|]. split.
  - intros row Hrow. apply list_elem_of_omap in Hrow as (report & Hin & Hr).
    apply row_of_Some in Hr as (Hc & Hw & Hs & Ht & Hv & Hf & _).
    split; [done|]. by exists report.
  - intros report a b Hin Hc Hw.
    apply no_abort_forall in Hno. rewrite Forall_forall in Hno.
    specialize (Hno report Hin). unfold aborts in Hno.
    rewrite Hc, Hw in Hno. cbn [andb] in Hno.
    unfold lacks_required in Hno.
    destruct (severity report) as [sev|] eqn:Hs; [|done].
    destruct (createdAt report) as [[t|txt]|] eqn:Ht; try done.
    destruct (verified report) as [ver|] eqn:Hv; [|done].
    destruct (fixingStatus report) as [fixing|] eqn:Hf; [|done].
    eexists. split.
    + apply list_elem_of_omap. exists report. split; [done|].
      unfold row_of. by rewrite Hc, Hs, Ht, Hv, Hf, Hw.
    + done.
Qed.

Lemma within_radius_mono (a b x y r1 r2 : Q) :
  (r1 <= r2)%Q →
  within_radius a b x y r1 = true → within_radius a b x y r2 = true.
Proof.
  unfold within_radius. cbv zeta. intros Hle.
  rewrite !andb_true_iff, !Qle_bool_iff. intros [H0 Hd].
  split; [lra|].
  assert (r1 * r1 <= r2 * r2)%Q by nra. lra.
Qed.

Lemma row_of_mono (tlat tlng r1 r2 : Q) (report : Report) :
  (r1 <= r2)%Q →
  aborts tlat tlng r2 report = false →
  aborts tlat tlng r1 report = false
  ∧ row_of tlat tlng r1 report
    = match row_of tlat tlng r2 report with
      | Some row =>
          if within_radius (latitude row) (longitude row) tlat tlng r1
          then Some row else None
      | None => None
      end.
Proof.
  intros Hle. unfold aborts, row_of, lacks_required.
  destruct (coordinates report) as [[a b]|]; [|done].
  destruct (within_radius a b tlat tlng r1) eqn:H1.
  - rewrite (within_radius_mono a b tlat tlng r1 r2 Hle H1). cbn [andb].
    destruct (severity report), (createdAt report) as [[t|txt]|],
      (verified report), (fixingStatus report); try done.
    intros _. cbn [latitude longitude]. by rewrite H1.
  - cbn [andb]. intros Hab. split; [done|].
    destruct (within_radius a b tlat tlng r2); cbn [andb] in Hab.
    + destruct (severity report), (createdAt report) as [[t|txt]|],
        (verified report), (fixingStatus report); try done.
      cbn [latitude longitude]. by rewrite H1.
    + by destruct (severity report), (createdAt report) as [[t|txt]|],
        (verified report), (fixingStatus report).
Qed.

(** X6.  The geofilter is monotone in the radius: where it returns a
    subset for a radius, it returns one for every smaller radius too, and
    that one is made of the rows of the larger subset that lie within the
    smaller radius, in the same order. *)
Theorem geofilter_monotone_in_radius (target : LocationData)
    (tlat tlng r1 r2 : Q) (reports : list Report) (rows2 : list ReportData) :
  lat target = Some tlat → lng target = Some tlng →
  (r1 <= r2)%Q →
  _process_historical_data reports target r2 = Ok rows2 →
  _process_historical_data reports target r1
  = Ok (filter (λ row, within_radius (latitude row) (longitude row)
                                     tlat tlng r1 = true) rows2).
Proof.
  intros Hlat Hlng Hle Hok.
  destruct (geofilter_ok target tlat tlng r2 reports rows2 Hlat Hlng Hok)
    as [Hno ->].
  apply no_abort_forall in Hno.
  pose proof (process_historical_data_spec target tlat tlng r1 reports
                Hlat Hlng) as Hspec.
  assert (existsb (aborts tlat tlng r1) reports = false) as Hno1.
  { apply no_abort_forall. eapply Forall_impl; [exact Hno|].
    intros report Hab. by apply (row_of_mono tlat tlng r1 r2). }
  rewrite Hno1 in Hspec. rewrite Hspec. f_equal.
  clear Hok Hspec Hno1.
  induction Hno as [|report rest Hab Hrest IH]; [done|].
  cbn [omap list_omap].
  destruct (row_of_mono tlat tlng r1 r2 report Hle Hab) as [_ ->].
  destruct (row_of tlat tlng r2 report) as [row|].
  - destruct (within_radius (latitude row) (longitude row) tlat tlng r1)
      eqn:Hw.
    + rewrite filter_cons_True by done. by rewrite IH.
    + rewrite filter_cons_False by congruence. exact IH.
  - exact IH.
Qed.

End MoreGeofilter.

Section MoreBlender.
Context `{NumFormat} `{Numpy} `{Pandas}.
Import Analytics AnalyticsNotions MoreNotions.

(** The confidence of the keyword-mode parser lies between 0 and 1. *)
Lemma parse_confidence_bounds (text : string) :
  (0 <= ai_confidence (_parse_ai_response text) <= 1)%Q.
Proof.
  unfold _parse_ai_response, parse_ai_response_body.
  destruct (extract_confidence text) as [q|e]; simpl; [|lra].
  destruct (extract_description text) as [d|e]; simpl; [|lra].
  apply clamp_bounds.
Qed.

(** X7.  The model is not consulted when the subset is empty, when the
    time range cannot be read, or when the geofilter raises: the prompt
    is not built, and the prediction is the statistical fallback whatever
    model is configured.  On an empty subset that is the answer low and
    stable with frequency 0, no hotspot and confidence 0.6. *)
Theorem model_not_consulted (self : PredictiveAnalytics)
    (location_data : LocationData) (historical_reports : list Report)
    (time_range : string) (now : Z) :
  _process_historical_data historical_reports location_data 5 = Ok []
  ∨ (∃ e, Timedelta time_range = Raise e)
  ∨ (∃ e, _process_historical_data historical_reports location_data 5
          = Raise e) →
  let r := predict_pothole_conditions self location_data historical_reports
                                      time_range now in
  r = _fallback_prediction location_data historical_reports time_range
  ∧ (_process_historical_data historical_reports location_data 5 = Ok [] →
     r = {| predictedSeverity := low;
            confidence := 6 # 10;
            hotspots := [];
            trends := {| ai := None;
                         statistical := {| trend := stable; frequency := 0;
                                           prediction := low |} |} |}).
Proof.
  intros Hcase r.
  assert (r = _fallback_prediction location_data historical_reports
                time_range) as Hr.
  { subst r. unfold predict_pothole_conditions.
    destruct (model self) as [generate_content|]; [|done].
    unfold predict_body.
    destruct (_process_historical_data historical_reports location_data 5)
      as [df|e0] eqn:Hp; [|done].
    cbn [exc_bind].
    destruct Hcase as [[= ->] | [[e He] | [e He]]]; [done | | done].
    unfold _generate_ai_prompt. destruct df as [|row df]; [done|].
    by rewrite He. }
  split; [exact Hr|]. intros Hempty. rewrite Hr.
  unfold _fallback_prediction, fallback_body. by rewrite Hempty.
Qed.

(** X8.  The model has no part in the statistical half of a prediction:
    whatever model is configured and whatever it answers, the statistical
    trend result and the hotspots of the prediction are those of the
    statistical fallback, the confidence lies between 0 and 1, and a
    prediction without an [ai] entry is the fallback itself. *)
Theorem statistics_independent_of_model (self : PredictiveAnalytics)
    (location_data : LocationData) (historical_reports : list Report)
    (time_range : string) (now : Z) :
  let r := predict_pothole_conditions self location_data historical_reports
                                      time_range now in
  let fb := _fallback_prediction location_data historical_reports
                                 time_range in
  statistical (trends r) = statistical (trends fb)
  ∧ hotspots r = hotspots fb
  ∧ (0 <= confidence r <= 1)%Q
  ∧ (ai (trends r) = None → r = fb)
  ∧ (confidence fb = 6 # 10 ∨ confidence fb = 3 # 10).
Proof.
  intros r fb.
  assert (ai (trends fb) = None ∧ (0 <= confidence fb <= 1)%Q
          ∧ (confidence fb = 6 # 10 ∨ confidence fb = 3 # 10)) as (Hai & Hc & Hv).
  { subst fb. unfold _fallback_prediction, fallback_body.
    destruct (_process_historical_data historical_reports location_data 5);
      simpl; (split; [done|]); split; try lra; auto. }
  subst r. unfold predict_pothole_conditions.
  destruct (model self) as [generate_content|]; [|by fold fb].
  destruct (predict_body generate_content location_data historical_reports
                         time_range now) as [result|e] eqn:Hbody;
    [|by fold fb].
  unfold predict_body in Hbody.
  destruct (_process_historical_data historical_reports location_data 5)
    as [df|e0] eqn:Hp; [|done].
  cbn [exc_bind] in Hbody.
  destruct (_generate_ai_prompt df location_data time_range now)
    as [prompt|e1]; [|done].
  cbn [exc_bind] in Hbody.
  destruct (generate_content prompt) as [text|e2]; [|done].
  cbn [exc_bind] in Hbody. injection Hbody as <-.
  subst fb. unfold _fallback_prediction, fallback_body. rewrite Hp.
  cbn [exc_bind trends statistical hotspots confidence ai].
  split; [done|]. split; [done|].
  split; [apply parse_confidence_bounds|]. split; [done | by left].
Qed.

End MoreBlender.

Section MoreBlenderExamples.
Import Analytics AnalyticsNotions MoreNotions Demo.
Local Existing Instance Demo.thousandths.
Local Existing Instance Demo.exact_fit.
Local Existing Instance Demo.days_only.

(** Two reports at the target and one some 110 km away. *)
Lemma geofilter_selects_within_radius_witness :
  let reports := [Demo.report_at 1 1 0; Demo.report_at 2 1 0;
                  Demo.report_at 1 1 5] in
  lat here = Some 1%Q ∧ lng here = Some 1%Q
  ∧ _process_historical_data reports here 5
    = Ok [Demo.row_at 1 1 0; Demo.row_at 1 1 5]
  ∧ ∀ row, row ∈ [Demo.row_at 1 1 0; Demo.row_at 1 1 5] →
           within_radius (latitude row) (longitude row) 1 1 5 = true.
Proof.
  intros reports.
  assert (_process_historical_data reports here 5
          = Ok [Demo.row_at 1 1 0; Demo.row_at 1 1 5]) as Hok by reflexivity.
  destruct (geofilter_selects_within_radius here 1 1 5 reports _
              eq_refl eq_refl Hok) as (_ & _ & Hsound & _).
  split; [reflexivity|]. split; [reflexivity|]. split; [exact Hok|].
  intros row Hrow. by destruct (Hsound row Hrow).
Defined.

(** The same reports with a radius of 200 km and of 5 km. *)
Lemma geofilter_monotone_in_radius_witness :
  let reports := [Demo.report_at 1 1 0; Demo.report_at 2 1 0;
                  Demo.report_at 1 1 5] in
  lat here = Some 1%Q ∧ lng here = Some 1%Q ∧ (5 <= 200)%Q
  ∧ _process_historical_data reports here 200
    = Ok [Demo.row_at 1 1 0; Demo.row_at 2 1 0; Demo.row_at 1 1 5]
  ∧ _process_historical_data reports here 5
    = Ok (filter (λ row, within_radius (latitude row) (longitude row)
                                       1 1 5 = true)
                 [Demo.row_at 1 1 0; Demo.row_at 2 1 0; Demo.row_at 1 1 5]).
Proof.
  intros reports.
  assert (5 <= 200)%Q as Hle by (by vm_compute).
  assert (_process_historical_data reports here 200
          = Ok [Demo.row_at 1 1 0; Demo.row_at 2 1 0; Demo.row_at 1 1 5])
    as Hok by reflexivity.
  pose proof (geofilter_monotone_in_radius here 1 1 5 200 reports _
                eq_refl eq_refl Hle Hok) as Hsmall.
  split; [reflexivity|]. split; [reflexivity|]. split; [exact Hle|].
  split; [exact Hok | exact Hsmall].
Defined.

(** A model that would answer is not asked when no report is near. *)
Lemma model_not_consulted_witness :
  let r := predict_pothole_conditions (answering "Severity: high")
             here [Demo.report_at 9 9 0] "7d" 100 in
  _process_historical_data [Demo.report_at 9 9 0] here 5 = Ok []
  ∧ confidence r = 6 # 10
  ∧ predictedSeverity r = low
  ∧ ai (trends r) = None.
Proof.
  intros r. subst r.
  assert (_process_historical_data [Demo.report_at 9 9 0] here 5 = Ok [])
    as Hempty by reflexivity.
  destruct (model_not_consulted (answering "Severity: high") here
              [Demo.report_at 9 9 0] "7d" 100 (or_introl Hempty))
    as (_ & Hr).
  rewrite (Hr Hempty). split; [exact Hempty|]. repeat split.
Defined.

End MoreBlenderExamples.

(** ** More on the trend analyzer *)

Section MoreTrend.
Import Analytics AnalyticsNotions MoreNotions.

Lemma Zsum_fmap_add {A} (f g : A → Z) (l : list A) :
  Zsum ((λ k, f k + g k) <$> l) = Zsum (f <$> l) + Zsum (g <$> l).
Proof.
  unfold Zsum. induction l as [|a l IH]; [done|].
  cbn [fmap list_fmap foldr]. cbn [fmap] in IH. rewrite IH. lia.
Qed.

Lemma Zsum_fmap_zero {A} (l : list A) : Zsum ((λ _, 0) <$> l) = 0.
Proof.
  unfold Zsum. induction l as [|a l IH]; [done|].
  cbn [fmap list_fmap foldr]. cbn [fmap] in IH. by rewrite IH.
Qed.

Lemma count_in_cons (w k : Z) (weeks : list Z) :
  count_in k (w :: weeks)
  = (if decide (w = k) then 1 else 0) + count_in k weeks.
Proof.
  unfold count_in. rewrite filter_cons.
  destruct (decide (w = k)); simpl; lia.
Qed.

(** A week lies in exactly one bucket of a range that holds it. *)
Lemma Zsum_indicator (w : Z) (n : nat) :
  ∀ lo, Zsum ((λ k, if decide (w = k) then 1 else 0)
                <$> seqZ lo (Z.of_nat n))
        = if decide (lo ≤ w < lo + Z.of_nat n) then 1 else 0.
Proof.
  induction n as [|n IH]; intros lo.
  - rewrite seqZ_nil by lia. simpl. by destruct (decide _); [lia|].
  - rewrite seqZ_cons by lia.
    replace (Z.pred (Z.of_nat (S n))) with (Z.of_nat n) by lia.
    specialize (IH (Z.succ lo)). unfold Zsum in IH |- *.
    cbn [fmap list_fmap foldr]. rewrite IH.
    destruct (decide (w = lo)), (decide (Z.succ lo ≤ w < Z.succ lo + Z.of_nat n)),
      (decide (lo ≤ w < lo + Z.of_nat (S n))); lia.
Qed.

Lemma Zsum_counts (weeks : list Z) (lo len : Z) :
  Forall (λ w, lo ≤ w < lo + len) weeks →
  Zsum ((λ k, count_in k weeks) <$> seqZ lo len) = Z.of_nat (length weeks).
Proof.
  induction 1 as [|w weeks Hw Hrest IH].
  - apply Zsum_fmap_zero.
  - trans (Zsum ((λ k, (if decide (w = k) then 1 else 0) + count_in k weeks)
                  <$> seqZ lo len)).
    { f_equal. apply list_fmap_ext. intros i k _. apply count_in_cons. }
    rewrite (Zsum_fmap_add (λ k, if decide (w = k) then 1 else 0)
                           (λ k, count_in k weeks)), IH.
    replace len with (Z.of_nat (Z.to_nat len)) at 1 by lia.
    rewrite Zsum_indicator.
    destruct (decide _); [|lia]. simpl length. lia.
Qed.

Lemma Zminimum_Zmaximum_bounds (w : Z) (ws : list Z) :
  Forall (λ x, Zminimum w ws ≤ x ≤ Zmaximum w ws) (w :: ws).
Proof.
  assert (∀ x, x ∈ w :: ws → Zminimum w ws ≤ x ≤ Zmaximum w ws) as Hall.
  { induction ws as [|y ws IH]; intros x Hx.
    - apply list_elem_of_singleton in Hx as ->. simpl. lia.
    - simpl. apply elem_of_cons in Hx as [-> | Hx].
      + specialize (IH w (list_elem_of_here _ _)). lia.
      + apply elem_of_cons in Hx as [-> | Hx]; [lia|].
        specialize (IH x (list_elem_of_further _ _ _ Hx)). lia. }
  by apply Forall_forall.
Qed.

Lemma weekly_counts_sum (weeks : list Z) :
  Zsum (weekly_counts_of weeks) = Z.of_nat (length weeks).
Proof.
  destruct weeks as [|w ws]; [done|].
  unfold weekly_counts_of. apply Zsum_counts.
  eapply Forall_impl; [apply Zminimum_Zmaximum_bounds|].
  intros x Hx. simpl in Hx. lia.
Qed.

Lemma weekly_counts_nonneg (weeks : list Z) :
  Forall (λ c, 0 ≤ c) (weekly_counts_of weeks).
Proof.
  destruct weeks as [|w ws]; [constructor|].
  unfold weekly_counts_of. apply Forall_fmap, Forall_forall.
  intros k _. unfold count_in. simpl. lia.
Qed.

Lemma Zsum_nonneg (l : list Z) : Forall (λ c, 0 ≤ c) l → 0 ≤ Zsum l.
Proof. induction 1 as [|c l Hc Hl IH]; simpl; lia. Qed.

Lemma Zsum_drop_le (l : list Z) (k : nat) :
  Forall (λ c, 0 ≤ c) l → Zsum (drop k l) ≤ Zsum l.
Proof.
  intros Hl. revert k. induction Hl as [|c l Hc Hl IH]; intros k.
  - by destruct k.
  - destruct k as [|k]; [done|]. simpl. specialize (IH k). lia.
Qed.

(** The mean of counts, in terms of their sum. *)
Lemma Zmean_bounds (l : list Z) (lo hi : Z) :
  l ≠ [] →
  lo * Z.of_nat (length l) ≤ Zsum l ≤ hi * Z.of_nat (length l) →
  (inject_Z lo <= Zmean l <= inject_Z hi)%Q.
Proof.
  intros Hne Hsum. unfold Zmean.
  assert (0 < inject_Z (Z.of_nat (length l)))%Q as Hpos.
  { change 0%Q with (inject_Z 0). rewrite <- Zlt_Qlt.
    destruct l; [done | simpl; lia]. }
  split.
  - apply Qle_shift_div_l; [done|].
    rewrite <- inject_Z_mult, <- Zle_Qle. lia.
  - apply Qle_shift_div_r; [done|].
    rewrite <- inject_Z_mult, <- Zle_Qle. lia.
Qed.

Lemma Zmean_above (l : list Z) (lo : Z) :
  l ≠ [] → (inject_Z lo < Zmean l)%Q → lo * Z.of_nat (length l) < Zsum l.
Proof.
  intros Hne Hlt.
  destruct (Z_lt_le_dec (lo * Z.of_nat (length l)) (Zsum l)) as [|Hle];
    [done|].
  exfalso. apply (Qlt_not_le _ _ Hlt).
  apply (Zmean_bounds l (Zsum l - lo * Z.of_nat (length l) + lo) lo Hne).
  assert (0 < Z.of_nat (length l)) by (destruct l; [done | simpl; lia]).
  nia.
Qed.

(** What the trend result owes to the number of reports. *)
Lemma trend_frequency_bounds `{Numpy} (df : list ReportData) :
  let r := _analyze_trends df in
  (0 <= frequency r <= inject_Z (Z.of_nat (length df)))%Q
  ∧ (prediction r ≠ low → (2 ≤ length df)%nat)
  ∧ (prediction r = high → (7 ≤ length df)%nat).
Proof.
  intros r. set (weekly_counts := resample_W df).
  assert (Zsum weekly_counts = Z.of_nat (length df)) as Hsum.
  { unfold weekly_counts, resample_W.
    by rewrite weekly_counts_sum, length_fmap. }
  assert (Forall (λ c, 0 ≤ c) weekly_counts) as Hnn
    by apply weekly_counts_nonneg.
  assert (∀ l, l ≠ [] → Forall (λ c, 0 ≤ c) l →
               Zsum l ≤ Z.of_nat (length df) →
               (0 <= Zmean l <= inject_Z (Z.of_nat (length df)))%Q) as Hmean.
  { intros l Hne Hl Hle. change 0%Q with (inject_Z 0).
    apply Zmean_bounds; [done|].
    assert (0 < Z.of_nat (length l)) by (destruct l; [done | simpl; lia]).
    pose proof (Zsum_nonneg l Hl). nia. }
  subst r. unfold _analyze_trends. fold weekly_counts.
  destruct df as [|row df].
  { cbn [frequency prediction length]. split; [split; by vm_compute|].
    split; done. }
  set (rows := row :: df) in *.
  destruct (length weekly_counts <? 2)%nat eqn:Hshort.
  - cbn [frequency prediction]. split; [|split; done].
    destruct weekly_counts as [|c wc] eqn:Hwc.
    + split; [lra|]. change 0%Q with (inject_Z 0). rewrite <- Zle_Qle. lia.
    + apply Hmean; [done | done | lia].
  - apply Nat.ltb_ge in Hshort.
    cbn [frequency prediction trend].
    set (recent := last4 weekly_counts).
    assert (length recent = 2 ∨ length recent = 3 ∨ length recent = 4)%nat
      as Hlen by (unfold recent, last4; rewrite length_drop; lia).
    assert (recent ≠ []) as Hne by (intros E; rewrite E in Hlen; simpl in Hlen; lia).
    assert (Zsum recent ≤ Z.of_nat (length rows)) as Hle
      by (rewrite <- Hsum; by apply Zsum_drop_le).
    split.
    { apply Hmean; [done | by apply Forall_drop | done]. }
    split.
    { intros _.
      destruct (decide (2 ≤ length rows)%nat) as [|Hone]; [done|].
      exfalso. unfold rows in *.
      assert (df = []) as Hdf by (destruct df; [done | simpl in Hone; lia]).
      unfold weekly_counts, resample_W in Hshort. rewrite Hdf in Hshort.
      cbn [fmap list_fmap] in Hshort.
      rewrite weekly_counts_one_week in Hshort by constructor.
      simpl in Hshort. lia. }
    intros Hhigh.
    assert (3 < Zmean recent)%Q as H3.
    { unfold severity_of in Hhigh.
      destruct (Qltb 5 (Zmean recent)) eqn:H5.
      - apply Qltb_lt in H5. lra.
      - destruct (bool_decide (trend_of (polyfit_slope weekly_counts)
                               = increasing)); cbn [orb andb] in Hhigh.
        + destruct (Qltb 3 (Zmean recent)) eqn:H3; [by apply Qltb_lt|].
          by destruct (Qltb 2 (Zmean recent) || true).
        + by destruct (Qltb 2 (Zmean recent) || false). }
    apply (Zmean_above recent 3 Hne) in H3. lia.
Qed.

(** X9.  The weekly series counts every report of the subset once: its
    entries are not negative and add up to the number of reports.  The
    frequency of the trend result therefore lies between 0 and the number
    of reports, a prediction other than low needs at least two reports,
    and the prediction high at least seven. *)
Theorem weekly_counts_conserve_reports `{Numpy} (df : list ReportData) :
  let weekly_counts := resample_W df in
  let r := _analyze_trends df in
  Zsum weekly_counts = Z.of_nat (length df)
  ∧ Forall (λ c, 0 ≤ c) weekly_counts
  ∧ (0 <= frequency r <= inject_Z (Z.of_nat (length df)))%Q
  ∧ (prediction r ≠ low → (2 ≤ length df)%nat)
  ∧ (prediction r = high → (7 ≤ length df)%nat).
Proof.
  intros weekly_counts r. split.
  { unfold weekly_counts, resample_W.
    by rewrite weekly_counts_sum, length_fmap. }
  split; [apply weekly_counts_nonneg|].
  apply trend_frequency_bounds.
Qed.

End MoreTrend.

(** ** More on the hotspot clusterer *)

Section MoreExpansion.
Import Analytics AnalyticsNotions MoreNotions.
Context (min_samples : nat) (nbhs : list (list nat)).

Lemma expand_extends (c : Z) (fuel : nat) :
  c ≠ -1 →
  ∀ stack labels,
    extends c labels (expand min_samples fuel nbhs c stack labels).
Proof.
  intros Hc. induction fuel as [|fuel IH]; intros stack labels;
    [apply extends_refl|].
  destruct stack as [|i stack]; [apply extends_refl|].
  cbn [expand]. destruct (unlabelled labels i) eqn:Hi; [|apply IH].
  apply unlabelled_true in Hi.
  destruct (is_core min_samples nbhs i);
    (eapply extends_trans; [done | by apply extends_insert | apply IH]).
Qed.

(** The search labels the sample it starts from. *)
Lemma expand_labels_start (c : Z) (fuel : nat) (i : nat) (labels : list Z) :
  c ≠ -1 → labels !! i = Some (-1) →
  expand min_samples (S fuel) nbhs c [i] labels !! i = Some c.
Proof.
  intros Hc Hi. cbn [expand].
  assert (unlabelled labels i = true) as -> by (by apply unlabelled_true).
  assert (<[i:=c]> labels !! i = Some c) as Hins
    by (apply list_lookup_insert_eq; by eapply lookup_lt_Some).
  destruct (is_core min_samples nbhs i).
  - destruct (expand_extends c fuel Hc
                (reverse (filter (λ v, unlabelled (<[i:=c]> labels) v = true)
                                 (neighb nbhs i)) ++ [])%list
                (<[i:=c]> labels) i) as [-> | [E _]]; [done | congruence].
  - destruct (expand_extends c fuel Hc [] (<[i:=c]> labels) i)
      as [-> | [E _]]; [done | congruence].
Qed.

Hypothesis Hsym : ∀ i v, v ∈ neighb nbhs i → i ∈ neighb nbhs v.

(** A search keeps neighbouring core samples in one cluster. *)
Lemma expand_core_agree (c : Z) (fuel : nat) :
  c ≠ -1 →
  ∀ stack labels,
    closed_up_to min_samples nbhs c stack labels →
    core_agree min_samples nbhs labels →
    core_agree min_samples nbhs
               (expand min_samples fuel nbhs c stack labels).
Proof.
  intros Hc. induction fuel as [|fuel IH]; intros stack labels Hclosed Hagree;
    [done|].
  destruct stack as [|i stack]; [done|].
  cbn [expand]. destruct (unlabelled labels i) eqn:Hi.
  - apply unlabelled_true in Hi.
    set (labels1 := <[i := c]> labels).
    assert (labels1 !! i = Some c) as Hi1
      by (apply list_lookup_insert_eq; by eapply lookup_lt_Some).
    assert (∀ v, v ≠ i → labels1 !! v = labels !! v) as Hother
      by (intros v Hv; unfold labels1; by apply list_lookup_insert_ne).
    assert (∀ v, labels !! v ≠ Some (-1) → labels1 !! v ≠ Some (-1))
      as Hkeep.
    { intros v Hv. destruct (decide (v = i)) as [->|Hne]; [congruence|].
      by rewrite Hother. }
    assert (core_agree min_samples nbhs labels1) as Hagree1.
    { intros u v l l' Hcu Hcv Hv Hu Hl Hne Hne'.
      destruct (decide (u = i)) as [->|Hui], (decide (v = i)) as [->|Hvi].
      - congruence.
      - assert (l = c) as -> by congruence.
        rewrite Hother in Hl by done.
        destruct (Hclosed v i l' Hl Hne' Hcv (Hsym _ _ Hv)) as [?|[-> _]];
          [congruence | done].
      - assert (l' = c) as -> by congruence.
        rewrite Hother in Hu by done.
        destruct (Hclosed u i l Hu Hne Hcu Hv) as [?|[-> _]];
          [congruence | done].
      - rewrite Hother in Hu, Hl by done.
        exact (Hagree u v l l' Hcu Hcv Hv Hu Hl Hne Hne'). }
    destruct (is_core min_samples nbhs i) eqn:Hcore.
    + apply IH; [|done].
      intros u v l Hu Hl Hcu Hv.
      destruct (decide (u = i)) as [->|Hne].
      * assert (l = c) as -> by congruence.
        destruct (unlabelled labels1 v) eqn:Hv1.
        -- right. split; [done|].
           apply elem_of_app. left. apply elem_of_reverse.
           by apply list_elem_of_filter.
        -- left. by apply unlabelled_false.
      * rewrite Hother in Hu by done.
        destruct (Hclosed u v l Hu Hl Hcu Hv) as [Hlab | [-> Hst]].
        -- left. by apply Hkeep.
        -- apply elem_of_cons in Hst as [-> | Hst].
           ++ left. congruence.
           ++ right. split; [done|]. apply elem_of_app. by right.
    + apply IH; [|done].
      intros u v l Hu Hl Hcu Hv.
      destruct (decide (u = i)) as [->|Hne]; [congruence|].
      rewrite Hother in Hu by done.
      destruct (Hclosed u v l Hu Hl Hcu Hv) as [Hlab | [-> Hst]].
      * left. by apply Hkeep.
      * apply elem_of_cons in Hst as [-> | Hst].
        -- left. congruence.
        -- by right.
  - apply unlabelled_false in Hi. apply IH; [|done].
    intros u v l Hu Hl Hcu Hv.
    destruct (Hclosed u v l Hu Hl Hcu Hv) as [Hlab | [-> Hst]]; [by left|].
    apply elem_of_cons in Hst as [-> | Hst]; [by left | by right].
Qed.

End MoreExpansion.

Section MoreClusters.
Import Analytics AnalyticsNotions MoreNotions.
Context (nbhs : list (list nat)) (n : nat).
Hypothesis Hvalid : ∀ i v, v ∈ neighb nbhs i → (v < n)%nat.
Hypothesis Hrefl : ∀ i, (i < n)%nat → i ∈ neighb nbhs i.
Hypothesis Hsym : ∀ i v, v ∈ neighb nbhs i → i ∈ neighb nbhs v.
Hypothesis Hnodup : ∀ i, NoDup (neighb nbhs i).
Hypothesis Hsize : ∀ i, (length (neighb nbhs i) ≤ n)%nat.

(** The outer loop: what is labelled stays labelled, every core sample
    the loop has passed is labelled, and neighbouring core samples
    agree. *)
Lemma dbscan_inner_complete (fuel : nat) (todo : list nat) :
  (n * (n + 1) + 1 ≤ fuel)%nat →
  ∀ c labels,
    clustered 3 nbhs n c labels →
    core_agree 3 nbhs labels →
    let labels' := dbscan_inner 3 fuel nbhs todo c labels in
    (∃ c', clustered 3 nbhs n c' labels')
    ∧ core_agree 3 nbhs labels'
    ∧ (∀ v l, labels !! v = Some l → l ≠ -1 → labels' !! v = Some l)
    ∧ (∀ i, i ∈ todo → (i < n)%nat → is_core 3 nbhs i = true →
            labels' !! i ≠ Some (-1)).
Proof.
  intros Hfuel. induction todo as [|i todo IH]; intros c labels Hcl Hagree.
  - simpl. split; [by exists c|]. split; [done|]. split; [done|].
    intros i Hi. by apply elem_of_nil in Hi.
  - cbn [dbscan_inner].
    pose proof (cl_next _ _ _ _ _ Hcl) as Hc.
    pose proof (cl_length _ _ _ _ _ Hcl) as Hlen.
    assert (c ≠ -1) as Hc1 by lia.
    destruct (unlabelled labels i && is_core 3 nbhs i) eqn:Hgo.
    + apply andb_prop in Hgo as [Hi Hcore].
      apply unlabelled_true in Hi.
      set (labels1 := expand 3 fuel nbhs c [i] labels).
      assert (clustered 3 nbhs n (c + 1) labels1) as Hcl1.
      { by apply expand_clustered. }
      assert (core_agree 3 nbhs labels1) as Hagree1.
      { apply expand_core_agree; [done | done | | done].
        intros u v l Hu Hl Hcu Hv. left.
        destruct (cl_closed _ _ _ _ _ Hcl u v l Hu Hl Hcu Hv) as [?|[_ Hst]];
          [done | by apply elem_of_nil in Hst]. }
      assert (labels1 !! i = Some c) as Hi1.
      { unfold labels1. destruct fuel as [|fuel]; [lia|].
        by apply expand_labels_start. }
      assert (∀ v l, labels !! v = Some l → l ≠ -1 → labels1 !! v = Some l)
        as Hkeep1.
      { intros v l Hv Hl. unfold labels1.
        destruct (expand_extends 3 nbhs c fuel Hc1 [i] labels v)
          as [E | [E _]]; [by rewrite E | congruence]. }
      destruct (IH (c + 1) labels1 Hcl1 Hagree1) as (Hex & Hag & Hkeep & Hcores).
      split; [done|]. split; [done|]. split.
      * intros v l Hv Hl. apply Hkeep; [|done]. by apply Hkeep1.
      * intros j Hj Hjn Hcj. apply elem_of_cons in Hj as [-> | Hj].
        -- rewrite (Hkeep i c Hi1 Hc1). congruence.
        -- by apply Hcores.
    + destruct (IH c labels Hcl Hagree) as (Hex & Hag & Hkeep & Hcores).
      split; [done|]. split; [done|]. split; [done|].
      intros j Hj Hjn Hcj. apply elem_of_cons in Hj as [-> | Hj].
      * rewrite Hcj, andb_true_r in Hgo. apply unlabelled_false in Hgo.
        destruct (labels !! i) as [l|] eqn:Hl.
        -- assert (l ≠ -1) as Hne by congruence.
           rewrite (Hkeep i l Hl Hne). congruence.
        -- apply lookup_ge_None in Hl. lia.
      * by apply Hcores.
Qed.

(** With three samples to a core, a sample that is not a core sample has
    at most one neighbour besides itself. *)
Lemma border_one_neighbour (v a u : nat) :
  is_core 3 nbhs v = false →
  a ∈ neighb nbhs v → u ∈ neighb nbhs v → a ≠ v → u ≠ v → a = u.
Proof.
  intros Hv Ha Hu Hav Huv.
  destruct (decide (a = u)) as [|Hne]; [done|]. exfalso.
  apply bool_decide_eq_false in Hv. apply Hv.
  assert (NoDup [v; a; u]) as Hnd.
  { apply NoDup_cons. split.
    - rewrite !not_elem_of_cons. split; [|split]; [| |apply not_elem_of_nil];
        congruence.
    - apply NoDup_cons. split; [|apply NoDup_singleton].
      by rewrite list_elem_of_singleton. }
  change 3%nat with (length [v; a; u]).
  apply submseteq_length, NoDup_submseteq; [done|].
  intros x Hx. rewrite !elem_of_cons in Hx.
  destruct Hx as [-> | [-> | [-> | Hx]]]; [| done | done |].
  - apply Hrefl. by eapply Hvalid, Hsym.
  - by apply elem_of_nil in Hx.
Qed.

(** What the finished labelling says of core samples and of noise. *)
Lemma clustered_components (c : Z) (labels : list Z) :
  clustered 3 nbhs n c labels →
  core_agree 3 nbhs labels →
  (∀ i, (i < n)%nat → is_core 3 nbhs i = true → labels !! i ≠ Some (-1)) →
  (∀ i, (i < n)%nat → is_core 3 nbhs i = true →
        ∃ l, labels !! i = Some l ∧ l ≠ -1
             ∧ ∀ v, v ∈ neighb nbhs i → labels !! v = Some l)
  ∧ (∀ j, (j < n)%nat →
          labels !! j = Some (-1)
          ↔ is_core 3 nbhs j = false
            ∧ ∀ u, u ∈ neighb nbhs j → is_core 3 nbhs u = false).
Proof.
  intros Hcl Hagree Hcores.
  pose proof (cl_length _ _ _ _ _ Hcl) as Hlen.
  assert (∀ v, (v < n)%nat → ∃ l, labels !! v = Some l) as Hlab.
  { intros v Hv. apply lookup_lt_is_Some_2. lia. }
  assert (∀ i, (i < n)%nat → is_core 3 nbhs i = true →
               ∃ l, labels !! i = Some l ∧ l ≠ -1
                    ∧ ∀ v, v ∈ neighb nbhs i → labels !! v = Some l) as Hcore.
  { intros i Hi Hci. destruct (Hlab i Hi) as [l Hl].
    assert (l ≠ -1) as Hne by (intros ->; by apply (Hcores i)).
    exists l. split; [done|]. split; [done|]. intros v Hv.
    destruct (Hlab v (Hvalid _ _ Hv)) as [l' Hl'].
    assert (l' ≠ -1) as Hne'.
    { intros ->.
      destruct (cl_closed _ _ _ _ _ Hcl i v l Hl Hne Hci Hv) as [?|[_ Hst]];
        [done | by apply elem_of_nil in Hst]. }
    rewrite Hl'. f_equal.
    destruct (is_core 3 nbhs v) eqn:Hcv.
    - symmetry. by apply (Hagree i v l l').
    - destruct (cl_supported _ _ _ _ _ Hcl v l' Hl' Hne')
        as [? | (u & Hcu & Hul & Hvu)]; [congruence|].
      assert (i = u) as <-.
      { apply (border_one_neighbour v i u); try done.
        - by apply Hsym.
        - by apply Hsym.
        - intros ->. congruence.
        - intros ->. congruence. }
      congruence. }
  split; [exact Hcore|].
  intros j Hj. split.
  - intros Hnoise. split.
    + destruct (is_core 3 nbhs j) eqn:Hcj; [|done].
      by destruct (Hcores j Hj Hcj).
    + intros u Hu. destruct (is_core 3 nbhs u) eqn:Hcu; [|done].
      destruct (Hcore u (Hvalid _ _ Hu) Hcu) as (l & _ & Hne & Hall).
      rewrite (Hall j (Hsym _ _ Hu)) in Hnoise. congruence.
  - intros [Hcj Hnone]. destruct (Hlab j Hj) as [l Hl].
    destruct (decide (l = -1)) as [->|Hne]; [done|]. exfalso.
    destruct (cl_supported _ _ _ _ _ Hcl j l Hl Hne)
      as [? | (u & Hcu & _ & Hju)]; [congruence|].
    rewrite (Hnone u (Hsym _ _ Hju)) in Hcu. done.
Qed.

End MoreClusters.

Section MoreNeighbourhoods.
Import Analytics AnalyticsNotions MoreNotions.
Context {P : Type} (near : P → P → bool).
Hypothesis near_refl : ∀ p, near p p = true.
Hypothesis near_sym : ∀ p q, near p q = near q p.

Lemma length_indices_where_filter (f : P → bool) (X : list P) (k : nat) :
  length (indices_where f X k) = length (filter (λ x, f x = true) X).
Proof.
  revert k. induction X as [|x X IH]; intros k; [done|].
  cbn [indices_where]. rewrite filter_cons.
  destruct (f x) eqn:Hx.
  - rewrite decide_True by done. simpl. by rewrite IH.
  - rewrite decide_False by done. apply IH.
Qed.

Lemma is_core_neighborhoods (X : list P) (i : nat) (p : P) :
  X !! i = Some p →
  is_core 3 (neighborhoods near X) i = true
  ↔ (3 ≤ length (filter (λ q, near p q = true) X))%nat.
Proof.
  intros Hp. unfold is_core. rewrite bool_decide_eq_true.
  by rewrite neighb_neighborhoods, Hp, length_indices_where_filter.
Qed.

(** The labelling of DBSCAN with three samples to a core: a core sample
    and all its neighbours carry one label, which is not noise; a sample
    is noise exactly when neither it nor one of its neighbours is a core
    sample. *)
Lemma dbscan_components (X : list P) :
  let labels := dbscan near 3 X in
  let nbhs := neighborhoods near X in
  (∀ i, (i < length X)%nat → is_core 3 nbhs i = true →
        ∃ l, labels !! i = Some l ∧ l ≠ -1
             ∧ ∀ v, v ∈ neighb nbhs i → labels !! v = Some l)
  ∧ (∀ j, (j < length X)%nat →
          labels !! j = Some (-1)
          ↔ is_core 3 nbhs j = false
            ∧ ∀ u, u ∈ neighb nbhs j → is_core 3 nbhs u = false).
Proof.
  intros labels nbhs. subst labels. unfold dbscan.
  set (n := length X). fold nbhs.
  assert (∀ i v, v ∈ neighb nbhs i → (v < n)%nat) as Hvalid.
  { intros i v Hv. apply elem_of_neighb in Hv as (p & q & _ & Hq & _).
    by eapply lookup_lt_Some. }
  assert (∀ i, (i < n)%nat → i ∈ neighb nbhs i) as Hrefl.
  { intros i Hi. apply elem_of_neighb.
    destruct (lookup_lt_is_Some_2 X i Hi) as [p Hp]. by exists p, p. }
  assert (∀ i v, v ∈ neighb nbhs i → i ∈ neighb nbhs v) as Hsym.
  { intros i v Hv. apply elem_of_neighb in Hv as (p & q & Hp & Hq & Hn).
    apply elem_of_neighb. exists q, p. by rewrite near_sym. }
  assert (∀ i, NoDup (neighb nbhs i)) as Hnodup.
  { intros i. unfold nbhs. rewrite neighb_neighborhoods.
    destruct (X !! i); [apply NoDup_indices_where | constructor]. }
  assert (∀ i, (length (neighb nbhs i) ≤ n)%nat) as Hsize.
  { intros i. unfold nbhs. rewrite neighb_neighborhoods.
    destruct (X !! i); [apply length_indices_where | simpl; lia]. }
  destruct (dbscan_inner_complete nbhs n Hvalid Hrefl Hsym Hnodup Hsize
              (n * (n + 1) + 1) (seq 0 n) (Nat.le_refl _) 0
              (replicate n (-1)))
    as ([c' Hcl] & Hagree & _ & Hcores).
  - by apply clustered_start.
  - intros u v l l' _ _ _ Hu _ Hl. by apply lookup_replicate in Hu as [-> _].
  - apply (clustered_components nbhs n Hvalid Hrefl Hsym c');
      [done | done |].
    intros i Hi Hci. apply Hcores; [|done | done].
    apply elem_of_seq. lia.
Qed.

End MoreNeighbourhoods.

Section MoreHotspots.
Import Analytics AnalyticsNotions MoreNotions.

Lemma identify_hotspots_unfold (df : list ReportData) (eps_km : Q) :
  let coords := (λ r, (latitude r, longitude r)) <$> df in
  let labels := dbscan (euclid_near (eps_km / 111)) 3 coords in
  _identify_hotspots df eps_km
  = hotspot_of coords labels
      <$> filter (λ cluster_id, cluster_id ≠ -1) (remove_dups labels).
Proof. by destruct df. Qed.

Lemma hotspot_of_label (df : list ReportData) (eps_km : Q) (l : Z) :
  let coords := (λ r, (latitude r, longitude r)) <$> df in
  let labels := dbscan (euclid_near (eps_km / 111)) 3 coords in
  l ∈ labels → l ≠ -1 →
  hotspot_of coords labels l ∈ _identify_hotspots df eps_km.
Proof.
  intros coords labels Hl Hne. rewrite identify_hotspots_unfold.
  apply list_elem_of_fmap. exists l. split; [done|].
  apply list_elem_of_filter. split; [done|].
  by apply elem_of_remove_dups.
Qed.

Lemma nearby_filter (eps_km : Q) (df : list ReportData) (a : ReportData) :
  length (filter (λ q, euclid_near (eps_km / 111)
                         (latitude a, longitude a) q = true)
                 ((λ r, (latitude r, longitude r)) <$> df))
  = length (filter (λ b, nearby eps_km a b = true) df).
Proof.
  induction df as [|b df IH]; [done|].
  cbn [fmap list_fmap]. rewrite !filter_cons.
  destruct (decide (euclid_near (eps_km / 111) (latitude a, longitude a)
                                (latitude b, longitude b) = true)) as [Hb|Hb],
    (decide (nearby eps_km a b = true)) as [Hb'|Hb'].
  - cbn [length]. f_equal. exact IH.
  - by destruct Hb'.
  - by destruct Hb.
  - exact IH.
Qed.

(** X10.  With three reports to a core, the clusters are the connected
    groups of dense reports with what lies around them: a dense report
    (at least three reports within [eps_km] of it, itself included) lies
    in a hotspot together with every report within [eps_km] of it, so
    that the hotspot counts at least those; and a report is left out of
    every hotspot exactly when neither it nor a report within [eps_km]
    of it is dense. *)
Theorem dense_reports_share_hotspot (df : list ReportData) (eps_km : Q) :
  let coords := (λ r, (latitude r, longitude r)) <$> df in
  let labels := dbscan (euclid_near (eps_km / 111)) 3 coords in
  let hs := _identify_hotspots df eps_km in
  ∀ i a, df !! i = Some a →
    (dense eps_km df a →
     ∃ cluster_id,
       cluster_id ≠ -1
       ∧ labels !! i = Some cluster_id
       ∧ hotspot_of coords labels cluster_id ∈ hs
       ∧ (∀ j b, df !! j = Some b → nearby eps_km a b = true →
                 labels !! j = Some cluster_id)
       ∧ (length (filter (λ b, nearby eps_km a b = true) df)
          ≤ count (hotspot_of coords labels cluster_id))%nat)
    ∧ (labels !! i = Some (-1)
       ↔ ¬ dense eps_km df a
         ∧ ∀ b, b ∈ df → nearby eps_km a b = true → ¬ dense eps_km df b).
Proof.
  intros coords labels hs i a Ha.
  set (near := euclid_near (eps_km / 111)).
  set (nbhs := neighborhoods near coords).
  assert (∀ p, near p p = true) as Hrefl by apply euclid_near_refl.
  assert (∀ p q, near p q = near q p) as Hsym by apply euclid_near_sym.
  destruct (dbscan_components near Hrefl Hsym coords) as [Hcore Hnoise].
  fold nbhs in Hcore, Hnoise.
  change (dbscan near 3 coords) with labels in Hcore, Hnoise.
  assert (∀ j b, df !! j = Some b →
                 coords !! j = Some (latitude b, longitude b)) as Hcoord.
  { intros j b Hb. unfold coords. by rewrite list_lookup_fmap, Hb. }
  assert (length coords = length df) as Hlen
    by (unfold coords; by rewrite length_fmap).
  assert (∀ j b, df !! j = Some b →
                 is_core 3 nbhs j = true ↔ dense eps_km df b) as Hdense.
  { intros j b Hb. unfold nbhs.
    rewrite (is_core_neighborhoods near coords j _ (Hcoord j b Hb)).
    unfold dense, near, coords. by rewrite nearby_filter. }
  assert (∀ j b, df !! j = Some b → (j < length coords)%nat) as Hlt.
  { intros j b Hb. rewrite Hlen. by eapply lookup_lt_Some. }
  assert (∀ j b, df !! j = Some b →
                 j ∈ neighb nbhs i ↔ nearby eps_km a b = true) as Hnb.
  { intros j b Hb. unfold nbhs. rewrite elem_of_neighb. split.
    - intros (p & q & Hp & Hq & Hn).
      rewrite (Hcoord i a Ha) in Hp. rewrite (Hcoord j b Hb) in Hq.
      by simplify_eq.
    - intros Hn. exists (latitude a, longitude a), (latitude b, longitude b).
      split; [by apply Hcoord|]. split; [by apply Hcoord | done]. }
  split.
  - intros Hd. apply (Hdense i a Ha) in Hd.
    destruct (Hcore i (Hlt i a Ha) Hd) as (l & Hl & Hne & Hall).
    exists l. split; [done|]. split; [done|].
    assert (l ∈ labels) as Hin by (by eapply list_elem_of_lookup_2).
    split; [by apply hotspot_of_label|]. split.
    + intros j b Hb Hn. apply Hall. by apply (Hnb j b Hb).
    + cbn [hotspot_of count].
      rewrite cluster_points_length; cycle 1.
      { unfold labels.
        by destruct (dbscan_clusters near Hrefl Hsym 3 coords (le_n 3)). }
      rewrite <- nearby_filter.
      fold coords near.
      rewrite <- (length_indices_where_filter (near (latitude a, longitude a))
                    coords 0).
      pose proof (neighb_neighborhoods near coords i) as Hnbi.
      rewrite (Hcoord i a Ha) in Hnbi. fold nbhs in Hnbi. rewrite <- Hnbi.
      apply count_of_covers; [|done].
      rewrite Hnbi. apply NoDup_indices_where.
  - rewrite (Hnoise i (Hlt i a Ha)), <- (Hdense i a Ha).
    rewrite not_true_iff_false.
    split; intros [Hci Hnone]; (split; [done|]).
    + intros b Hb Hn. apply list_elem_of_lookup in Hb as [j Hb].
      rewrite <- (Hdense j b Hb), not_true_iff_false.
      apply Hnone. by apply (Hnb j b Hb).
    + intros u Hu.
      assert (u < length df)%nat as Hu'.
      { unfold nbhs in Hu. apply elem_of_neighb in Hu as (p & q & _ & Hq & _).
        rewrite <- Hlen. by eapply lookup_lt_Some. }
      destruct (lookup_lt_is_Some_2 df u Hu') as [b Hb].
      apply not_true_iff_false. rewrite (Hdense u b Hb).
      apply Hnone; [by eapply list_elem_of_lookup_2|].
      by apply (Hnb u b Hb).
Qed.

Lemma sum_list_fmap_add {A} (f g : A → nat) (l : list A) :
  sum_list ((λ k, f k + g k)%nat <$> l)
  = (sum_list (f <$> l) + sum_list (g <$> l))%nat.
Proof.
  induction l as [|a l IH]; [done|].
  csimpl. rewrite IH. lia.
Qed.

Lemma sum_list_indicator (x : Z) (ks : list Z) :
  NoDup ks →
  sum_list ((λ k, if decide (x = k) then 1 else 0)%nat <$> ks)
  = if decide (x ∈ ks) then 1%nat else 0%nat.
Proof.
  induction 1 as [|k ks Hk Hnd IH]; [done|].
  csimpl. rewrite IH.
  destruct (decide (x = k)) as [->|Hne].
  - rewrite decide_False by done. by rewrite decide_True by left.
  - destruct (decide (x ∈ ks)) as [Hin|Hout].
    + by rewrite decide_True by (by right).
    + rewrite decide_False; [done|].
      intros Hx. apply elem_of_cons in Hx as [?|?]; done.
Qed.

(** The samples of the clusters [ks], counted cluster by cluster. *)
Lemma sum_count_of (labels ks : list Z) :
  NoDup ks →
  sum_list ((λ k, count_of k labels) <$> ks)
  = length (filter (λ x, x ∈ ks) labels).
Proof.
  intros Hnd. induction labels as [|x labels IH].
  - induction ks as [|k ks IHk]; [done|].
    apply NoDup_cons in Hnd as [_ Hnd]. specialize (IHk Hnd).
    csimpl. by rewrite IHk.
  - trans (sum_list ((λ k, (if decide (x = k) then 1 else 0)
                           + count_of k labels)%nat <$> ks)).
    { f_equal. apply list_fmap_ext. intros j k _. apply count_of_cons. }
    rewrite (sum_list_fmap_add (λ k, if decide (x = k) then 1%nat else 0%nat)
                               (λ k, count_of k labels)).
    rewrite IH, sum_list_indicator by done.
    rewrite filter_cons. by destruct (decide (x ∈ ks)).
Qed.

Lemma sum_list_at_least {A} (f : A → nat) (m : nat) (l : list A) :
  Forall (λ k, m ≤ f k)%nat l → (m * length l ≤ sum_list (f <$> l))%nat.
Proof.
  induction 1 as [|k l Hk Hl IH]; [simpl; lia|].
  csimpl. lia.
Qed.

(** The counts of the hotspots and the noise add up to the reports. *)
Lemma hotspot_counts_sum (df : list ReportData) (eps_km : Q) :
  let coords := (λ r, (latitude r, longitude r)) <$> df in
  let labels := dbscan (euclid_near (eps_km / 111)) 3 coords in
  let hs := _identify_hotspots df eps_km in
  (sum_list (count <$> hs) + count_of (-1) labels = length df)%nat.
Proof.
  intros coords labels hs.
  set (near := euclid_near (eps_km / 111)).
  destruct (dbscan_clusters near (euclid_near_refl _) (euclid_near_sym _)
              3 coords (le_n 3)) as [Hlen _].
  change (dbscan near 3 coords) with labels in Hlen.
  assert (length labels = length df) as Hlen'
    by (rewrite Hlen; unfold coords; by rewrite length_fmap).
  set (ks := filter (λ cluster_id, cluster_id ≠ -1) (remove_dups labels)).
  assert (NoDup ks) as Hnd by apply NoDup_filter, NoDup_remove_dups.
  assert (∀ k, k ∈ ks ↔ k ∈ labels ∧ k ≠ -1) as Hks.
  { intros k. unfold ks. rewrite list_elem_of_filter, elem_of_remove_dups.
    tauto. }
  assert (count <$> hs = (λ k, count_of k labels) <$> ks) as Hcounts.
  { unfold hs. rewrite identify_hotspots_unfold. fold coords labels ks.
    rewrite <- list_fmap_compose. apply list_fmap_ext.
    intros j k _. cbn [compose hotspot_of count].
    by apply cluster_points_length. }
  assert (∀ l', Forall (λ x, x ∈ labels) l' →
                (length (filter (λ x, x ∈ ks) l') + count_of (-1) l'
                 = length l')%nat) as Hsplit.
  { induction 1 as [|x l' Hx Hl' IH]; [done|].
    rewrite filter_cons, count_of_cons. cbn [length].
    destruct (decide (x = -1)) as [->|Hne].
    - rewrite decide_False by (rewrite Hks; tauto). lia.
    - rewrite decide_True by (by apply Hks). cbn [length]. lia. }
  rewrite Hcounts, sum_count_of, <- Hlen' by done.
  apply Hsplit. by apply Forall_forall.
Qed.

(** A hotspot counts at least three reports, and at most all. *)
Lemma hotspot_count_bounds (df : list ReportData) (eps_km : Q) (h : Hotspot) :
  h ∈ _identify_hotspots df eps_km → (3 ≤ count h ≤ length df)%nat.
Proof.
  intros Hh. rewrite identify_hotspots_unfold in Hh.
  apply list_elem_of_fmap in Hh as (l & -> & Hl).
  apply list_elem_of_filter in Hl as [Hne Hl].
  rewrite elem_of_remove_dups in Hl.
  set (coords := (λ r, (latitude r, longitude r)) <$> df).
  destruct (dbscan_clusters (euclid_near (eps_km / 111))
              (euclid_near_refl _) (euclid_near_sym _) 3 coords (le_n 3))
    as [Hlen Hsizes].
  cbn [hotspot_of count]. rewrite cluster_points_length by done.
  split; [by apply Hsizes|].
  etrans; [apply count_of_le_length|].
  rewrite Hlen. unfold coords. by rewrite length_fmap.
Qed.

Lemma hotspots_at_most_third (df : list ReportData) (eps_km : Q) :
  (3 * length (_identify_hotspots df eps_km) ≤ length df)%nat.
Proof.
  pose proof (hotspot_counts_sum df eps_km) as Hsum. cbv zeta in Hsum.
  assert (3 * length (_identify_hotspots df eps_km)
          ≤ sum_list (count <$> _identify_hotspots df eps_km))%nat as Hthree.
  { apply sum_list_at_least, Forall_forall. intros h Hh.
    by destruct (hotspot_count_bounds df eps_km h Hh). }
  lia.
Qed.

(** X11.  The clusterer counts no report twice: the counts of the
    hotspots and the number of reports labelled noise add up to the
    number of reports, every report that is not noise is counted in a
    hotspot of the result, and there are at most a third as many hotspots
    as reports. *)
Theorem hotspots_partition_reports (df : list ReportData) (eps_km : Q) :
  let coords := (λ r, (latitude r, longitude r)) <$> df in
  let labels := dbscan (euclid_near (eps_km / 111)) 3 coords in
  let hs := _identify_hotspots df eps_km in
  (sum_list (count <$> hs) + count_of (-1) labels = length df)%nat
  ∧ (3 * length hs ≤ length df)%nat
  ∧ (∀ i l, labels !! i = Some l → l ≠ -1 →
            hotspot_of coords labels l ∈ hs
            ∧ (3 ≤ count (hotspot_of coords labels l))%nat).
Proof.
  intros coords labels hs.
  split; [apply hotspot_counts_sum|].
  split; [apply hotspots_at_most_third|].
  intros i l Hl Hne.
  assert (l ∈ labels) as Hin by (by eapply list_elem_of_lookup_2).
  split; [by apply hotspot_of_label|].
  apply (hotspot_count_bounds df eps_km). by apply hotspot_of_label.
Qed.

End MoreHotspots.

Section MoreHotspotExamples.
Import Analytics AnalyticsNotions MoreNotions.

(** Three reports within 100 m of the first one, and a fourth a kilometre
    away. *)
Lemma dense_reports_share_hotspot_witness :
  let df := [Demo.row_at 1 1 0; Demo.row_at (10001 # 10000) 1 0;
             Demo.row_at 1 (10001 # 10000) 0; Demo.row_at (101 # 100) 1 0] in
  dense (1 # 10) df (Demo.row_at 1 1 0)
  ∧ ∃ cluster_id,
      cluster_id ≠ -1
      ∧ (3 ≤ count (hotspot_of ((λ r, (latitude r, longitude r)) <$> df)
                      (dbscan (euclid_near ((1 # 10) / 111)) 3
                              ((λ r, (latitude r, longitude r)) <$> df))
                      cluster_id))%nat.
Proof.
  intros df.
  assert (dense (1 # 10) df (Demo.row_at 1 1 0)) as Hd
    by (by vm_compute).
  split; [exact Hd|].
  destruct (dense_reports_share_hotspot df (1 # 10) 0 (Demo.row_at 1 1 0)
              eq_refl) as [Hdense _].
  destruct (Hdense Hd) as (cluster_id & Hne & _ & _ & _ & Hcount).
  exists cluster_id. split; [exact Hne|].
  etrans; [exact Hd | exact Hcount].
Defined.

End MoreHotspotExamples.

(** ** More on the keyword-mode parser *)

Section MoreParser.
Import Analytics AnalyticsNotions MoreNotions.
Local Arguments append : simpl nomatch.

Lemma split_free (pat cur s : string) :
  PyStr.contains pat s = false →
  PyStr.split_from pat 0 cur s = [PyStr.rev_string "" cur +:+ s].
Proof.
  revert cur. induction s as [|c s IH]; intros cur Hs.
  - cbn [PyStr.split_from]. by rewrite append_nil_r.
  - cbn [PyStr.contains] in Hs. apply orb_false_iff in Hs as [Hc Hs].
    cbn [PyStr.split_from]. rewrite Hc, (IH _ Hs).
    cbn [PyStr.rev_string]. rewrite (rev_string_app (String c "")).
    by rewrite append_assoc.
Qed.

Lemma split_from_skip (pat : string) (k : nat) (cur s : string) :
  PyStr.split_from pat k cur s = PyStr.split_from pat 0 cur (PyStr.drop k s).
Proof.
  revert s. induction k as [|k IH]; intros s; [by destruct s|].
  destruct s as [|c s]; [done|]. cbn [PyStr.split_from PyStr.drop]. apply IH.
Qed.

(** Splitting at a pattern cuts at its first occurrence. *)
Lemma split_from_find (pat : string) (s : string) :
  pat ≠ "" →
  ∀ n cur,
    PyStr.find pat s = Some n →
    PyStr.split_from pat 0 cur s
    = (PyStr.rev_string "" cur +:+ PyStr.take n s)
      :: PyStr.split_from pat 0 "" (PyStr.drop (n + String.length pat) s).
Proof.
  intros Hpat. induction s as [|c s IH]; intros n cur Hn.
  - cbn [PyStr.find] in Hn. destruct pat; [done|]. done.
  - cbn [PyStr.find] in Hn. cbn [PyStr.split_from].
    destruct (String.prefix pat (String c s)) eqn:Hp.
    + injection Hn as <-. cbn [PyStr.take]. rewrite append_nil_r.
      f_equal. rewrite split_from_skip. f_equal.
      destruct pat as [|a pat]; [done|].
      cbn [String.length plus PyStr.drop].
      by replace (S (String.length pat) - 1)%nat with (String.length pat)
        by lia.
    + destruct (PyStr.find pat s) as [m|] eqn:Hm; [|done].
      injection Hn as <-. rewrite (IH m (String c cur) eq_refl).
      cbn [PyStr.rev_string PyStr.take plus PyStr.drop].
      rewrite (rev_string_app (String c "")). by rewrite append_assoc.
Qed.

Lemma item_split_0 (pat s : string) :
  pat ≠ "" → item (PyStr.split pat s) 0 = Ok (before pat s).
Proof.
  intros Hpat. unfold PyStr.split, before.
  destruct (PyStr.find pat s) as [n|] eqn:Hn.
  - by rewrite (split_from_find pat s Hpat n "" Hn).
  - apply find_none_contains in Hn. by rewrite split_free.
Qed.

Lemma item_split_1 (pat s : string) (n : nat) :
  pat ≠ "" → PyStr.find pat s = Some n →
  item (PyStr.split pat s) 1
  = Ok (before pat (PyStr.drop (n + String.length pat) s)).
Proof.
  intros Hpat Hn. unfold PyStr.split.
  rewrite (split_from_find pat s Hpat n "" Hn).
  change (item (?x :: ?l) 1) with (item l 0).
  by apply item_split_0.
Qed.

(** A pattern in lower case that occurs in a text occurs in the folded
    text. *)
Lemma prefix_lower (pat s : string) :
  String.prefix pat s = true →
  String.prefix (PyStr.lower pat) (PyStr.lower s) = true.
Proof.
  revert s. induction pat as [|a pat IH]; intros s; [by destruct s|].
  destruct s as [|c s]; [done|]. cbn [String.prefix PyStr.lower].
  destruct (ascii_dec a c) as [->|]; [|done]. intros Hp.
  destruct (ascii_dec (PyStr.lower_char c) (PyStr.lower_char c)); [|done].
  by apply IH.
Qed.

Lemma contains_lower (pat s : string) :
  PyStr.contains pat s = true →
  PyStr.contains (PyStr.lower pat) (PyStr.lower s) = true.
Proof.
  induction s as [|c s IH]; cbn [PyStr.contains PyStr.lower].
  - by destruct pat.
  - intros [Hp | Hs]%orb_prop.
    + apply prefix_lower in Hp. cbn [PyStr.lower] in Hp. by rewrite Hp.
    + rewrite (IH Hs). apply orb_true_r.
Qed.

Lemma extract_description_raises (text : string) :
  (∃ e, extract_description text = Raise e)
  ↔ PyStr.contains "trend" (PyStr.lower text) = true
    ∧ PyStr.contains "trend" text = false.
Proof.
  split.
  - intros [e He].
    destruct (PyStr.contains "trend" (PyStr.lower text)) eqn:Hlow; cycle 1.
    { unfold extract_description in He. by rewrite Hlow in He. }
    split; [done|].
    destruct (PyStr.contains "trend" text) eqn:Hraw; [|done].
    destruct (extract_description_ok text) as [d Hd]; [by intros _|].
    congruence.
  - intros [Hlow Hraw]. unfold extract_description. rewrite Hlow.
    unfold PyStr.split. rewrite split_free by done. by exists IndexError.
Qed.

(** X12.  The keyword-mode parser gives up in two cases only: the run of
    digits and dots after the first "confidence" is not a number, or the
    word "trend" occurs in the reply but never in lower case.  In those
    cases the whole reply is lost: the result is the error payload
    (medium, 0.5), whatever severity words and recommendations the reply
    holds.  In every other case the severity is the first level with a
    keyword in the folded reply, and the recommendations are the lines that
    hold a recommendation word. *)
Theorem parse_errors_characterised (text : string) :
  let lowered := PyStr.lower text in
  let bad_number :=
    ∃ run e, first_confidence_match lowered = Some run
             ∧ py_float run = Raise e in
  let lost_trend :=
    PyStr.contains "trend" lowered = true
    ∧ PyStr.contains "trend" text = false in
  let r := _parse_ai_response text in
  ((∃ e, parse_ai_response_body text = Raise e) ↔ bad_number ∨ lost_trend)
  ∧ (bad_number ∨ lost_trend → r = parse_error_result)
  ∧ (¬ (bad_number ∨ lost_trend) →
     ai_severity r = first_level lowered severity_keywords
     ∧ recommendations (ai_trends r) = extract_recommendations text
     ∧ ∃ q d, extract_confidence text = Ok q
              ∧ extract_description text = Ok d
              ∧ ai_confidence r = py_min 1 (py_max 0 q)
              ∧ description (ai_trends r) = d).
Proof.
  intros lowered bad_number lost_trend r.
  assert ((∃ e, extract_confidence text = Raise e) ↔ bad_number) as Hconf.
  { unfold extract_confidence, bad_number. fold lowered.
    destruct (first_confidence_match lowered) as [run|].
    - split; [intros [e He]; by exists run, e|].
      intros (run' & e & [= <-] & He). by exists e.
    - split; [by intros [e He]|]. by intros (run' & e & ? & _). }
  pose proof (extract_description_raises text) as Hdesc.
  fold lowered in Hdesc. fold lost_trend in Hdesc.
  assert ((∃ e, parse_ai_response_body text = Raise e)
          ↔ bad_number ∨ lost_trend) as Hbody.
  { rewrite <- Hconf, <- Hdesc. unfold parse_ai_response_body.
    destruct (extract_confidence text) as [q|e1]; cbn [exc_bind].
    - destruct (extract_description text) as [d|e2]; cbn [exc_bind].
      + split; [by intros [e He]|]. by intros [[e He] | [e He]].
      + split; [intros _; right; by exists e2|]. intros _. by exists e2.
    - split; [intros _; left; by exists e1|]. intros _. by exists e1. }
  split; [exact Hbody|]. split.
  - intros Hbad. apply Hbody in Hbad as [e He].
    subst r. unfold _parse_ai_response. by rewrite He.
  - intros Hgood. rewrite <- Hbody in Hgood.
    subst r. unfold _parse_ai_response.
    unfold parse_ai_response_body in *.
    destruct (extract_confidence text) as [q|e1]; cbn [exc_bind] in *;
      [|destruct Hgood; by exists e1].
    destruct (extract_description text) as [d|e2]; cbn [exc_bind] in *;
      [|destruct Hgood; by exists e2].
    cbn [ai_severity ai_trends recommendations ai_confidence description].
    split; [done|]. split; [done|]. by exists q, d.
Qed.

(** X13.  The description is what follows the first "trend" of the
    reply, up to the end of the line or to the next "trend", whichever
    comes first, without the blanks around it; it is empty when the
    folded reply does not hold the word. *)
Theorem description_follows_first_trend (text : string) :
  (∀ n, PyStr.find "trend" text = Some n →
        extract_description text
        = Ok (PyStr.strip (before nl (before "trend"
                                        (PyStr.drop (n + 5) text)))))
  ∧ (PyStr.contains "trend" (PyStr.lower text) = false →
     extract_description text = Ok "").
Proof.
  split.
  - intros n Hn. unfold extract_description.
    assert (PyStr.contains "trend" text = true) as Hraw.
    { destruct (PyStr.contains "trend" text) eqn:E; [done|].
      apply find_none_contains in E. congruence. }
    apply (contains_lower "trend" text) in Hraw.
    change (PyStr.lower "trend") with "trend" in Hraw. rewrite Hraw.
    rewrite (item_split_1 "trend" text n) by done. cbn [exc_bind].
    change (String.length "trend") with 5%nat.
    by rewrite item_split_0.
  - intros Hlow. unfold extract_description. by rewrite Hlow.
Qed.

End MoreParser.

Section MoreParserExamples.
Import Analytics AnalyticsNotions MoreNotions.

(** A reply with its only "Trend" capitalised. *)
Lemma parse_errors_characterised_witness :
  let text := "Severity: high. Confidence: 0.9" +:+ nl
              +:+ "Trend: rising. We recommend a repair." in
  PyStr.contains "trend" (PyStr.lower text) = true
  ∧ PyStr.contains "trend" text = false
  ∧ _parse_ai_response text = parse_error_result.
Proof.
  intros text.
  assert (PyStr.contains "trend" (PyStr.lower text) = true) as Hlow
    by reflexivity.
  assert (PyStr.contains "trend" text = false) as Hraw by reflexivity.
  destruct (parse_errors_characterised text) as (_ & Herr & _).
  split; [exact Hlow|]. split; [exact Hraw|].
  apply Herr. right. split; [exact Hlow | exact Hraw].
Defined.

(** A reply with the word twice on one line. *)
Lemma description_follows_first_trend_witness :
  let text := "The trend is rising; the trend holds." +:+ nl
              +:+ "Confidence: 0.8" in
  PyStr.find "trend" text = Some 4%nat
  ∧ extract_description text = Ok "is rising; the".
Proof.
  intros text.
  assert (PyStr.find "trend" text = Some 4%nat) as Hn by reflexivity.
  destruct (description_follows_first_trend text) as [Hdesc _].
  split; [exact Hn|]. rewrite (Hdesc 4%nat Hn). reflexivity.
Defined.

End MoreParserExamples.

(** ** More on the trend forecast *)

Section MoreForecast.
Context `{NumFormat} `{Analytics.ForecastFormat} `{Json}.
Import Analytics AnalyticsNotions MoreNotions.

Lemma mock_trends_lookup (reports : list Report) (area_name : string)
    (now : Z) :
  let r := _generate_mock_trends reports area_name now in
  dict_get "generated_at" r = Some (JStr (isoformat now))
  ∧ dict_get "area_name" r = Some (JStr area_name)
  ∧ dict_get "data_points" r = Some (JInt (Z.of_nat (length reports)))
  ∧ dict_get "model" r = Some (JStr "mock-fallback").
Proof. repeat split. Qed.

(** The two shapes of what [extract_forecast] returns. *)
Lemma extract_forecast_cases (text : string) (reports : list Report)
    (area_name : string) (now : Z) :
  extract_forecast text reports area_name now
  = Ok (_generate_mock_trends reports area_name now)
  ∨ (∃ e, extract_forecast text reports area_name now = Raise e)
  ∨ ∃ trend_data,
      loads (slice_Z text (find_Z "{" text) (rfind_Z "}" text + 1))
      = Ok (JDict trend_data)
      ∧ extract_forecast text reports area_name now
        = Ok (dict_update trend_data
                (forecast_metadata reports area_name now)).
Proof.
  unfold extract_forecast.
  destruct (negb (find_Z "{" text =? -1) && negb (rfind_Z "}" text + 1 =? -1));
    [|by left].
  destruct (loads _) as [[| | | | | |trend_data]|e] eqn:Hloads.
  1-6: right; left; eexists; reflexivity.
  - right. right. by exists trend_data.
  - destruct e; try (by left); right; left; eexists; reflexivity.
Qed.

(** X14.  Every forecast carries the time of generation, the name of the
    area and the number of reports, and a model tag that tells where it
    comes from: "mock-fallback" on the mock forecast, which is returned
    without a model, when the model raises or answers with an empty
    text, and whenever the reply yields no JSON object;
    "gemini-1.5-flash" on a parsed object, which needs a model that
    answered with a text holding a JSON object. *)
Theorem forecast_always_labelled (self : PredictiveAnalytics)
    (reports : list Report) (area_name : string) (now : Z) :
  let mock := _generate_mock_trends reports area_name now in
  let prompt := forecast_prompt reports area_name now in
  let r := generate_trend_forecast self reports area_name now in
  dict_get "generated_at" r = Some (JStr (isoformat now))
  ∧ dict_get "area_name" r = Some (JStr area_name)
  ∧ dict_get "data_points" r = Some (JInt (Z.of_nat (length reports)))
  ∧ ((r = mock ∧ dict_get "model" r = Some (JStr "mock-fallback"))
     ∨ (dict_get "model" r = Some (JStr "gemini-1.5-flash")
        ∧ ∃ generate_content text trend_data,
            model self = Some generate_content
            ∧ generate_content prompt = Ok text
            ∧ text ≠ ""
            ∧ loads (slice_Z text (find_Z "{" text) (rfind_Z "}" text + 1))
              = Ok (JDict trend_data)
            ∧ r = dict_update trend_data
                    (forecast_metadata reports area_name now)))
  ∧ (model self = None → r = mock)
  ∧ (∀ generate_content,
       model self = Some generate_content →
       (∃ e, generate_content prompt = Raise e)
       ∨ generate_content prompt = Ok "" →
       r = mock).
Proof.
  intros mock prompt r.
  assert (r = mock
          ∨ ∃ generate_content text trend_data,
              model self = Some generate_content
              ∧ generate_content prompt = Ok text
              ∧ text ≠ ""
              ∧ loads (slice_Z text (find_Z "{" text) (rfind_Z "}" text + 1))
                = Ok (JDict trend_data)
              ∧ r = dict_update trend_data
                      (forecast_metadata reports area_name now)) as Hshape.
  { subst r. unfold generate_trend_forecast.
    destruct (model self) as [generate_content|]; [|by left].
    unfold forecast_body. fold prompt.
    destruct (generate_content prompt) as [text|e] eqn:Hgen; [|by left].
    cbn [exc_bind].
    destruct (String.eqb text "") eqn:Hempty; [by left|]. cbn [negb].
    apply String.eqb_neq in Hempty.
    destruct (extract_forecast_cases text reports area_name now)
      as [-> | [[e ->] | (trend_data & Hloads & ->)]]; [by left | by left |].
    right. by exists generate_content, text, trend_data. }
  assert (dict_get "generated_at" r = Some (JStr (isoformat now))
          ∧ dict_get "area_name" r = Some (JStr area_name)
          ∧ dict_get "data_points" r = Some (JInt (Z.of_nat (length reports))))
    as (Hg & Ha & Hd).
  { destruct Hshape as [-> | (g & text & trend_data & _ & _ & _ & _ & ->)].
    - by destruct (mock_trends_lookup reports area_name now) as (? & ? & ? & _).
    - by destruct (update_metadata_lookup trend_data reports area_name now)
        as (? & ? & ? & _). }
  split; [done|]. split; [done|]. split; [done|]. split.
  { destruct Hshape as [Hr | (g & text & trend_data & Hm & Hg' & Hne & Hl & Hr)].
    - left. split; [done|]. rewrite Hr.
      by destruct (mock_trends_lookup reports area_name now) as (_ & _ & _ & ?).
    - right. split; [|by exists g, text, trend_data]. rewrite Hr.
      by destruct (update_metadata_lookup trend_data reports area_name now)
        as (_ & _ & _ & ? & _). }
  split.
  - intros Hnone. subst r. unfold generate_trend_forecast. by rewrite Hnone.
  - intros g Hg' Hcase. subst r. unfold generate_trend_forecast.
    rewrite Hg'. unfold forecast_body. fold prompt.
    destruct Hcase as [[e ->] | ->]; done.
Qed.

End MoreForecast.

Section MoreHistograms.
Import Analytics AnalyticsNotions MoreNotions.

Lemma counts_get_bump (k k' : string) (counts : list (string * nat)) :
  counts_get k (bump k' counts)
  = (counts_get k counts + if decide (k' = k) then 1 else 0)%nat.
Proof.
  induction counts as [|[k0 n] counts IH].
  - cbn [bump counts_get]. destruct (decide (k' = k)) as [->|Hne].
    + by rewrite String.eqb_refl.
    + apply String.eqb_neq in Hne. by rewrite Hne.
  - cbn [bump counts_get]. destruct (String.eqb k0 k') eqn:E0.
    + apply String.eqb_eq in E0 as ->. cbn [counts_get].
      destruct (String.eqb k' k) eqn:E.
      * apply String.eqb_eq in E as ->. rewrite decide_True by done. lia.
      * apply String.eqb_neq in E. rewrite decide_False by done. lia.
    + cbn [counts_get]. destruct (String.eqb k0 k) eqn:E; [|exact IH].
      apply String.eqb_eq in E as ->. apply String.eqb_neq in E0.
      rewrite decide_False by congruence. lia.
Qed.

Lemma bump_total (k : string) (counts : list (string * nat)) :
  sum_list ((bump k counts).*2) = S (sum_list (counts.*2)).
Proof.
  induction counts as [|[k0 n] counts IH]; [done|].
  cbn [bump]. destruct (String.eqb k0 k); csimpl; [done|].
  rewrite IH. lia.
Qed.

Lemma bump_keys (k : string) (counts : list (string * nat)) :
  (bump k counts).*1
  = if decide (k ∈ counts.*1) then counts.*1 else (counts.*1 ++ [k])%list.
Proof.
  induction counts as [|[k0 n] counts IH]; [done|].
  cbn [bump]. destruct (String.eqb k0 k) eqn:E0.
  - apply String.eqb_eq in E0 as ->. csimpl.
    by rewrite decide_True by left.
  - apply String.eqb_neq in E0. csimpl. rewrite IH.
    destruct (decide (k ∈ counts.*1)) as [Hin|Hout].
    + by rewrite decide_True by (by right).
    + rewrite decide_False; [done|].
      intros Hk. apply elem_of_cons in Hk as [?|?]; congruence.
Qed.

Lemma bump_keys_NoDup (k : string) (counts : list (string * nat)) :
  NoDup (counts.*1) → NoDup ((bump k counts).*1).
Proof.
  intros Hnd. rewrite bump_keys. destruct (decide _) as [|Hout]; [done|].
  apply NoDup_app. split; [done|]. split; [|apply NoDup_singleton].
  intros x Hx Hx'. apply list_elem_of_singleton in Hx' as ->. done.
Qed.

Lemma bump_keys_prefix (k : string) (counts : list (string * nat)) :
  counts.*1 `prefix_of` (bump k counts).*1.
Proof.
  rewrite bump_keys. destruct (decide _); [done|]. by apply prefix_app_r.
Qed.

(** A histogram built by counting the items that have a bucket. *)
Lemma histogram_fold {A} (bucket : A → option string) (items : list A) :
  ∀ init,
    let d := foldl (λ counts item,
                      match bucket item with
                      | Some key => bump key counts
                      | None => counts
                      end) init items in
    (∀ k, counts_get k d
          = (counts_get k init
             + length (filter (λ item, bucket item = Some k) items))%nat)
    ∧ sum_list (d.*2)
      = (sum_list (init.*2)
         + length (filter (λ item, is_Some (bucket item)) items))%nat
    ∧ (NoDup (init.*1) → NoDup (d.*1))
    ∧ init.*1 `prefix_of` d.*1.
Proof.
  induction items as [|item items IH]; intros init.
  - simpl. split; [intros k; lia|]. split; [lia|]. done.
  - cbn [foldl].
    assert (∀ k, length (filter (λ item, bucket item = Some k)
                                (item :: items))
                 = ((if decide (bucket item = Some k) then 1 else 0)
                    + length (filter (λ item, bucket item = Some k) items))%nat)
      as Hone.
    { intros k. rewrite filter_cons. by destruct (decide _). }
    assert (length (filter (λ item, is_Some (bucket item)) (item :: items))
            = ((if decide (is_Some (bucket item)) then 1 else 0)
               + length (filter (λ item, is_Some (bucket item)) items))%nat)
      as Hall.
    { rewrite filter_cons. by destruct (decide _). }
    destruct (bucket item) as [key|] eqn:Hb.
    + destruct (IH (bump key init)) as (Hget & Hsum & Hnd & Hpre).
      split; [|split; [|split]].
      * intros k. rewrite Hget, counts_get_bump, Hone.
        destruct (decide (key = k)) as [->|Hne].
        -- rewrite decide_True by done. lia.
        -- rewrite decide_False by congruence. lia.
      * rewrite Hsum, bump_total, Hall. rewrite decide_True by done. lia.
      * intros Hi. by apply Hnd, bump_keys_NoDup.
      * etrans; [apply bump_keys_prefix | exact Hpre].
    + destruct (IH init) as (Hget & Hsum & Hnd & Hpre).
      split; [|split; [|split]]; try done.
      * intros k. rewrite Hget, Hone. by rewrite decide_False by done.
      * rewrite Hsum, Hall. rewrite decide_False; [done|]. by intros [? ?].
Qed.

(** X15.  The severity histogram counts every report once, under its
    severity, or under "medium" when it has none: the count of a key is
    the number of reports of that level (zero for a key that is absent),
    the counts add up to the number of reports, no key occurs twice, and
    the keys high, medium and low come first, also at zero. *)
Theorem severity_distribution_counts (reports : list Report) :
  let d := _analyze_severity_distribution reports in
  (∀ k, counts_get k d
        = length (filter (λ report, severity_bucket report = k) reports))
  ∧ sum_list (d.*2) = length reports
  ∧ NoDup (d.*1)
  ∧ ["high"; "medium"; "low"] `prefix_of` d.*1.
Proof.
  intros d.
  destruct (histogram_fold (λ report, Some (severity_bucket report)) reports
              [("high", 0%nat); ("medium", 0%nat); ("low", 0%nat)])
    as (Hget & Hsum & Hnd & Hpre).
  change (foldl _ _ reports) with d in Hget, Hsum, Hnd, Hpre.
  split; [|split; [|split]].
  - intros k. rewrite Hget.
    assert (counts_get k [("high", 0%nat); ("medium", 0%nat); ("low", 0%nat)]
            = 0%nat) as ->.
    { cbn [counts_get]. by repeat destruct (String.eqb _ k). }
    cbn [plus]. f_equal. apply list_filter_iff. intros report.
    split; [by intros [= ->] | by intros ->].
  - rewrite Hsum. csimpl.
    clear. induction reports as [|report reports IH]; [done|].
    rewrite filter_cons, decide_True by (by eexists). cbn [length].
    by f_equal.
  - apply Hnd. change (NoDup ["high"; "medium"; "low"]).
    apply (bool_decide_unpack (NoDup ["high"; "medium"; "low"])).
    by vm_compute.
  - exact Hpre.
Qed.

Section Monthly.
Context `{NumFormat} `{Analytics.ForecastFormat} `{Json}.

(** X16.  The monthly histogram counts every report once under the month
    of its date, or under the current month when it has no date, and
    passes over the reports whose date cannot be read: the count of a
    month is the number of reports that fall in it, the counts add up to
    the number of reports that were not passed over, and no month occurs
    twice. *)
Theorem monthly_patterns_counts (reports : list Report) (now : Z) :
  let d := _analyze_monthly_patterns reports now in
  (∀ k, counts_get k d
        = length (filter (λ report, month_bucket now report = Some k)
                         reports))
  ∧ sum_list (d.*2)
    = length (filter (λ report, is_Some (month_bucket now report)) reports)
  ∧ (sum_list (d.*2) ≤ length reports)%nat
  ∧ NoDup (d.*1).
Proof.
  intros d.
  assert (foldl (λ counts item,
                   match month_bucket now item with
                   | Some key => bump key counts
                   | None => counts
                   end) [] reports = d) as Hd.
  { subst d. unfold _analyze_monthly_patterns. generalize (@nil (string * nat)).
    induction reports as [|report reports IH]; intros init; [done|].
    cbn [foldl]. rewrite <- IH. f_equal.
    unfold month_bucket. destruct (createdAt report) as [raw|]; [|done].
    by destruct (month_key raw). }
  destruct (histogram_fold (month_bucket now) reports [])
    as (Hget & Hsum & Hnd & _).
  rewrite Hd in Hget, Hsum, Hnd.
  split; [exact Hget|]. split; [exact Hsum|]. split.
  - rewrite Hsum. apply length_filter.
  - apply Hnd. constructor.
Qed.

End Monthly.

End MoreHistograms.

(** ** The statistical half of a prediction and the reports nearby *)

Section MoreComposition.
Context `{NumFormat} `{Numpy} `{Pandas}.
Import Analytics AnalyticsNotions MoreNotions.

Lemma row_of_in_radius (tlat tlng radius_km : Q) (report : Report) :
  aborts tlat tlng radius_km report = false →
  if in_radius tlat tlng radius_km report
  then is_Some (row_of tlat tlng radius_km report)
  else row_of tlat tlng radius_km report = None.
Proof.
  unfold aborts, row_of, in_radius, lacks_required.
  destruct (coordinates report) as [[a b]|]; [|done].
  destruct (within_radius a b tlat tlng radius_km);
    by destruct (severity report), (createdAt report) as [[t|txt]|],
      (verified report), (fixingStatus report).
Qed.

(** The subset has one row for every report within the radius. *)
Lemma geofilter_length (target : LocationData) (tlat tlng radius_km : Q)
    (reports : list Report) (rows : list ReportData) :
  lat target = Some tlat → lng target = Some tlng →
  _process_historical_data reports target radius_km = Ok rows →
  length rows
  = length (filter (λ report, in_radius tlat tlng radius_km report = true)
                   reports).
Proof.
  intros Hlat Hlng Hok.
  destruct (geofilter_ok target tlat tlng radius_km reports rows Hlat Hlng Hok)
    as [Hno ->].
  apply no_abort_forall in Hno. clear Hok.
  induction Hno as [|report rest Hab Hrest IH]; [done|].
  cbn [omap list_omap]. rewrite filter_cons.
  apply row_of_in_radius in Hab.
  destruct (in_radius tlat tlng radius_km report) eqn:Hin.
  - rewrite decide_True by done. destruct Hab as [row ->].
    cbn [length]. by rewrite IH.
  - rewrite decide_False by done. by rewrite Hab.
Qed.

(** The statistical trend result and the hotspots of a prediction are
    those of the geofiltered subset, or the defaults. *)
Lemma prediction_statistics_shape (self : PredictiveAnalytics)
    (location_data : LocationData) (historical_reports : list Report)
    (time_range : string) (now : Z) :
  let r := predict_pothole_conditions self location_data historical_reports
                                      time_range now in
  (∃ df, _process_historical_data historical_reports location_data 5 = Ok df
         ∧ statistical (trends r) = _analyze_trends df
         ∧ hotspots r = _identify_hotspots df (1 # 10)
         ∧ (model self = None → predictedSeverity r = prediction (_analyze_trends df)))
  ∨ (statistical (trends r)
     = {| trend := stable; frequency := 0; prediction := low |}
     ∧ hotspots r = [] ∧ (model self = None → predictedSeverity r = low)).
Proof.
  intros r. subst r. unfold predict_pothole_conditions.
  assert (let fb := _fallback_prediction location_data historical_reports
                                         time_range in
          (∃ df, _process_historical_data historical_reports location_data 5
                 = Ok df
                 ∧ statistical (trends fb) = _analyze_trends df
                 ∧ hotspots fb = _identify_hotspots df (1 # 10)
                 ∧ predictedSeverity fb = prediction (_analyze_trends df))
          ∨ (statistical (trends fb)
             = {| trend := stable; frequency := 0; prediction := low |}
             ∧ hotspots fb = [] ∧ predictedSeverity fb = low)) as Hfb.
  { unfold _fallback_prediction, fallback_body.
    destruct (_process_historical_data historical_reports location_data 5)
      as [df|e]; [left; by exists df | by right]. }
  destruct (model self) as [generate_content|].
  - destruct (predict_body generate_content location_data historical_reports
                           time_range now) as [result|e] eqn:Hbody.
    + unfold predict_body in Hbody.
      destruct (_process_historical_data historical_reports location_data 5)
        as [df|e0]; [|done].
      cbn [exc_bind] in Hbody.
      destruct (_generate_ai_prompt df location_data time_range now)
        as [prompt|e1]; [|done].
      cbn [exc_bind] in Hbody.
      destruct (generate_content prompt) as [text|e2]; [|done].
      cbn [exc_bind] in Hbody. injection Hbody as <-.
      left. by exists df.
    + destruct Hfb as [(df & Hdf & Hs & Hh & Hp) | (Hs & Hh & Hp)].
      * left. by exists df.
      * by right.
  - destruct Hfb as [(df & Hdf & Hs & Hh & Hp) | (Hs & Hh & Hp)].
    + left. by exists df.
    + by right.
Qed.

(** X17.  The statistical half of every prediction rests on the reports
    within 5 km of the target: the frequency is at most their number, the
    statistical prediction high needs at least seven of them, every
    hotspot counts at least three and at most all of them, and there are
    at most a third as many hotspots.  Without a model this bounds the
    predicted severity itself. *)
Theorem statistics_rest_on_nearby_reports (self : PredictiveAnalytics)
    (target : LocationData) (tlat tlng : Q) (reports : list Report)
    (time_range : string) (now : Z) :
  lat target = Some tlat → lng target = Some tlng →
  let r := predict_pothole_conditions self target reports time_range now in
  let nearby :=
    length (filter (λ report, in_radius tlat tlng 5 report = true) reports) in
  (0 <= frequency (statistical (trends r)) <= inject_Z (Z.of_nat nearby))%Q
  ∧ (prediction (statistical (trends r)) = high → (7 ≤ nearby)%nat)
  ∧ (3 * length (hotspots r) ≤ nearby)%nat
  ∧ (∀ h, h ∈ hotspots r → (3 ≤ count h ≤ nearby)%nat)
  ∧ (model self = None → predictedSeverity r = high → (7 ≤ nearby)%nat).
Proof.
  intros Hlat Hlng r nearby.
  destruct (prediction_statistics_shape self target reports time_range now)
    as [(df & Hdf & Hs & Hh & Hp) | (Hs & Hh & Hp)]; fold r in Hs, Hh, Hp.
  - assert (length df = nearby) as Hn
      by (by apply (geofilter_length target tlat tlng 5 reports df)).
    destruct (trend_frequency_bounds df) as (Hfreq & _ & Hhigh).
    pose proof (hotspots_at_most_third df (1 # 10)) as Hthird.
    rewrite Hs, Hh, <- Hn.
    split; [done|]. split; [done|]. split; [done|]. split.
    + intros h. apply hotspot_count_bounds.
    + intros Hnone. rewrite (Hp Hnone). exact Hhigh.
  - rewrite Hs, Hh. cbn [frequency prediction length].
    split.
    { split; [by vm_compute|]. change 0%Q with (inject_Z 0).
      rewrite <- Zle_Qle. lia. }
    split; [done|]. split; [lia|]. split.
    + intros h Hin. by apply elem_of_nil in Hin.
    + intros Hnone. by rewrite (Hp Hnone).
Qed.

End MoreComposition.

Section MoreCompositionExamples.
Import Analytics AnalyticsNotions MoreNotions Demo.
Local Existing Instance Demo.thousandths.
Local Existing Instance Demo.exact_fit.
Local Existing Instance Demo.days_only.

(** Three reports at the target and one some 110 km away. *)
Lemma statistics_rest_on_nearby_reports_witness :
  let reports := [Demo.report_at 1 1 0; Demo.report_at 1 1 1;
                  Demo.report_at 2 1 0; Demo.report_at 1 1 2] in
  let r := predict_pothole_conditions disabled here reports "7d" 100 in
  lat here = Some 1%Q ∧ lng here = Some 1%Q
  ∧ (3 * length (hotspots r) ≤ 3)%nat
  ∧ (frequency (statistical (trends r)) <= 3)%Q.
Proof.
  intros reports r.
  destruct (statistics_rest_on_nearby_reports disabled here 1 1 reports
              "7d" 100 eq_refl eq_refl) as (Hfreq & _ & Hthird & _).
  split; [reflexivity|]. split; [reflexivity|].
  split; [exact Hthird | exact (proj2 Hfreq)].
Defined.

End MoreCompositionExamples.
